(** * spellb00k: entity store, provider dispatch, plan parser, sequence workflow

    A shallow embedding of the service layer of the application
    (src/services/llmService.ts, chapterService.ts, projectService.ts,
    src/lib/database.ts and the three modules under src/providers) together
    with the properties its specification states about them.

    Conventions.
    - A JavaScript string is the list of its UTF-16 code units ([jstring]);
      [lit] turns a Rocq string literal into one.
    - [undefined]/[null] are [None]; a [Partial<T>] is a record of options.
    - A JavaScript number is an IEEE 754 double.  The numbers the program
      computes with are integers (chapter orders), kept as [Z]; [+] on them
      is [Js.plus], the exact sum rounded to the nearest double.
    - An [async] function is a computation over an explicit world (the
      database and the log of requests sent so far) that either returns or
      throws; [try]/[catch] is a combinator on such computations. *)

From Stdlib Require Import List Bool Arith ZArith NArith Lia String Ascii.
Import ListNotations.

Set Implicit Arguments.

(* ------------------------------------------------------------------ *)
(** ** JavaScript strings *)

Module Js.

Local Open Scope N_scope.

Definition char := N.
Definition jstring := list char.

Definition lit (s : string) : jstring :=
  List.map N_of_ascii (list_ascii_of_string s).

(** ECMAScript WhiteSpace and LineTerminator code points: what
    [String.prototype.trim] strips and what [\s] matches. *)
Definition isWhiteSpace (c : char) : bool :=
  ((0x09 <=? c) && (c <=? 0x0D)) || (c =? 0x20) || (c =? 0xA0)
  || (c =? 0x1680) || ((0x2000 <=? c) && (c <=? 0x200A))
  || (c =? 0x2028) || (c =? 0x2029) || (c =? 0x202F) || (c =? 0x205F)
  || (c =? 0x3000) || (c =? 0xFEFF).

(** The characters that [.] does not match (no [s] flag). *)
Definition isLineTerminator (c : char) : bool :=
  (c =? 0x0A) || (c =? 0x0D) || (c =? 0x2028) || (c =? 0x2029).

(** [\d] *)
Definition isDigit (c : char) : bool := (0x30 <=? c) && (c <=? 0x39).

Definition colon : char := 0x3A.
Definition newline : char := 0x0A.

Fixpoint dropWhile (p : char -> bool) (s : jstring) : jstring :=
  match s with
  | [] => []
  | c :: s' => if p c then dropWhile p s' else s
  end.

Fixpoint takeWhile (p : char -> bool) (s : jstring) : jstring :=
  match s with
  | [] => []
  | c :: s' => if p c then c :: takeWhile p s' else []
  end.

Definition trimStart (s : jstring) : jstring := dropWhile isWhiteSpace s.
Definition trimEnd (s : jstring) : jstring := rev (dropWhile isWhiteSpace (rev s)).
Definition trim (s : jstring) : jstring := trimEnd (trimStart s).

Fixpoint startsWith (p s : jstring) : bool :=
  match p, s with
  | [], _ => true
  | _ :: _, [] => false
  | a :: p', b :: s' => (a =? b) && startsWith p' s'
  end.

Definition endsWith (p s : jstring) : bool := startsWith (rev p) (rev s).

Definition substring (n : nat) (s : jstring) : jstring := skipn n s.

(** [s.split('\n')]: always at least one piece. *)
Fixpoint split_lines (s : jstring) : list jstring :=
  match s with
  | [] => [[]]
  | c :: s' =>
      if c =? newline then [] :: split_lines s'
      else match split_lines s' with
           | l :: ls => (c :: l) :: ls
           | [] => [[c]]
           end
  end.

(** Truthiness of a possibly-undefined string. *)
Definition truthy (s : option jstring) : bool :=
  match s with
  | Some (_ :: _) => true
  | _ => false
  end.

(** String conversion of a possibly-undefined operand of [+]. *)
Definition toStr (s : option jstring) : jstring :=
  match s with
  | Some v => v
  | None => lit "undefined"
  end.

Definition eqb (a b : jstring) : bool :=
  if list_eq_dec N.eq_dec a b then true else false.

(** The text whose lines are [ls], joined by a line feed. *)
Fixpoint joinLines (ls : list string) : jstring :=
  match ls with
  | [] => []
  | [l] => lit l
  | l :: ls' => lit l ++ newline :: joinLines ls'
  end.

(** *** Numbers *)

(** The double nearest to the integer [z], ties to even: what a number
    variable holds for [z], and what reading a stored integer yields.  Up
    to 2^53 in magnitude every integer is a double; between 2^k and
    2^(k+1), for k >= 53, the doubles are the multiples of 2^(k-52).  (No
    stored number reaches 2^1024, where doubles end.) *)
Definition toNumber (z : Z) : Z :=
  let a := Z.abs z in
  if (a <? 2 ^ 53)%Z then z
  else
    let e := (Z.log2 a - 52)%Z in
    let q := (a / 2 ^ e)%Z in
    let r := (a mod 2 ^ e)%Z in
    let half := (2 ^ (e - 1))%Z in
    let q' := if (r <? half)%Z then q
              else if (half <? r)%Z then (q + 1)%Z
              else if Z.even q then q else (q + 1)%Z in
    (Z.sgn z * (q' * 2 ^ e))%Z.

(** [a + b] on numbers that hold integers. *)
Definition plus (a b : Z) : Z := toNumber (toNumber a + toNumber b).

(** [Number.isSafeInteger(z)] *)
Definition isSafeInteger (z : Z) : bool :=
  ((- 2 ^ 53 <? z) && (z <? 2 ^ 53))%Z.

End Js.

(* ------------------------------------------------------------------ *)
(** ** Plan response parser (llmService.parseEbookPlanResponse) *)

Module Parser.
Import Js.

(** [Partial<Chapter>] as the parser builds it. *)
Record PartialChapter := mkPartial {
  title : option jstring;
  description : option jstring;
  content : option jstring;
  order : option Z
}.

(** [{}] *)
Definition emptyChapter : PartialChapter := mkPartial None None None None.

(** [trimmedLine.match(re)] for the header pattern: the anchored word
    Chapter, one or more [\s], one or more [\d], a colon, any [\s], then a
    capture group taking every character up to the first line terminator.
    The result is capture group 1.  The classes [\s], [\d] and the colon
    are pairwise disjoint, so the greedy runs are the only way to match and
    backtracking cannot change the capture. *)
Definition matchTitle (trimmedLine : jstring) : option jstring :=
  if startsWith (lit "Chapter") trimmedLine then
    let r1 := skipn 7 trimmedLine in
    match r1 with
    | c :: _ =>
        if isWhiteSpace c then
          let r2 := dropWhile isWhiteSpace r1 in
          match r2 with
          | d :: _ =>
              if isDigit d then
                match dropWhile isDigit r2 with
                | k :: r3 =>
                    if N.eqb k colon
                    then Some (takeWhile (fun x => negb (isLineTerminator x))
                                         (dropWhile isWhiteSpace r3))
                    else None
                | [] => None
                end
              else None
          | [] => None
          end
        else None
    | [] => None
    end
  else None.

(** The loop variables of the parser. *)
Record pstate := mkState {
  chapters : list PartialChapter;
  currentChapter : PartialChapter;
  isDescription : bool
}.

Definition initial : pstate := mkState [] emptyChapter false.

(** One iteration of [for (const line of lines)]. *)
Definition step (st : pstate) (line : jstring) : pstate :=
  let trimmedLine := trim line in
  let cur := currentChapter st in
  if startsWith (lit "Chapter") trimmedLine then
    let chapters' :=
      if isDescription st && truthy (title cur)
      then chapters st ++ [cur] else chapters st in
    let titleMatch := matchTitle trimmedLine in
    mkState chapters'
      (mkPartial
         (Some (match titleMatch with
                | Some m => trim m
                | None => lit "Untitled Chapter"
                end))
         (Some []) (Some []) (Some (Z.of_nat (List.length chapters'))))
      false
  else if startsWith (lit "Description:") trimmedLine then
    if truthy (title cur) then
      mkState (chapters st)
        (mkPartial (title cur)
           (Some (trim (substring (List.length (lit "Description:")) trimmedLine)))
           (content cur) (order cur))
        true
    else st
  else if isDescription st && truthy (title cur) then
    mkState (chapters st)
      (mkPartial (title cur)
         (Some (toStr (description cur) ++ lit " " ++ trimmedLine))
         (content cur) (order cur))
      (isDescription st)
  else st.

(** The array [chapters] when the filter is reached (line 314 done). *)
Definition parsedChapters (response : jstring) : list PartialChapter :=
  let st := fold_left step (split_lines response) initial in
  if truthy (title (currentChapter st))
  then chapters st ++ [currentChapter st] else chapters st.

Definition isValid (c : PartialChapter) : bool :=
  truthy (title c) && truthy (description c).

Definition parseEbookPlanResponse (response : jstring)
  : option (list PartialChapter) :=
  let chapters := parsedChapters response in
  let validChapters := filter isValid chapters in
  if (0 <? List.length chapters)%nat && (List.length validChapters =? 0)%nat then None
  else if (0 <? List.length validChapters)%nat then Some validChapters else None.

End Parser.

(* ------------------------------------------------------------------ *)
(** ** Asynchronous computations

    An [async] function runs against the world and either returns a value
    or throws; effects made before a throw stay in the world. *)

Module Async.

Inductive exn := Error (message : string).

Inductive outcome (A : Type) : Type :=
| Ret (a : A)
| Throw (e : exn).
Arguments Ret {A} a.
Arguments Throw {A} e.

Section Monad.
Variable W : Type.

Definition M (A : Type) : Type := W -> outcome A * W.

Definition ret {A} (a : A) : M A := fun w => (Ret a, w).
Definition throw {A} (e : exn) : M A := fun w => (Throw e, w).

Definition bind {A B} (m : M A) (k : A -> M B) : M B :=
  fun w =>
    match m w with
    | (Ret a, w') => k a w'
    | (Throw e, w') => (Throw e, w')
    end.

(** [try { m } catch (error) { h }] *)
Definition try_catch {A} (m : M A) (h : exn -> M A) : M A :=
  fun w =>
    match m w with
    | (Ret a, w') => (Ret a, w')
    | (Throw e, w') => h e w'
    end.

(** A synchronous expression that may throw, used inside an async body. *)
Definition lift {A} (o : outcome A) : M A := fun w => (o, w).

End Monad.

Arguments ret {W A} a.
Arguments throw {W A} e.
Arguments bind {W A B} m k.
Arguments try_catch {W A} m h.
Arguments lift {W A} o.

Module Notations.
Notation "x <- m ;; k" := (bind m (fun x => k))
  (at level 61, m at next level, right associativity).
Notation "m ;;; k" := (bind m (fun _ => k))
  (at level 61, right associativity).
Notation "'TRY' m 'CATCH' h" := (try_catch m h)
  (at level 60, m at level 200, h at level 200).
End Notations.

End Async.

(* ------------------------------------------------------------------ *)
(** ** The embedded relational store (src/lib/database.ts) *)

Module Project.
Import Js.
(** A row of [projects]. *)
Record t := mk {
  id : Z;
  name : jstring;
  description : option jstring;
  parameters : option jstring;
  createdAt : jstring;
  updatedAt : jstring
}.
End Project.

Module Chapter.
Import Js.
(** A row of [chapters]. *)
Record t := mk {
  id : Z;
  projectId : Z;
  title : jstring;
  description : jstring;
  content : option jstring;
  order : Z;
  createdAt : jstring;
  updatedAt : jstring
}.
End Chapter.

Module Db.
Import Js Async.

(** The store is taken as initialised: the tables and the two updatedAt
    triggers exist, and a failure to open it shows as a statement that
    raises.  Tables are kept in rowid order.  [statements] counts the write
    statements executed so far; the clock is read at that index. *)
Record database := mkDb {
  projects : list Project.t;
  chapters : list Chapter.t;
  sqlite_sequence_chapters : Z;
  last_insert_rowid : Z;
  statements : nat
}.

(** [SET column = ?] items of the two UPDATE statements. *)
Inductive chapterAssign :=
| SetTitle (v : jstring)
| SetDescription (v : jstring)
| SetContent (v : option jstring)
| SetOrder (v : Z).

Inductive projectAssign :=
| SetName (v : jstring)
| SetProjectDescription (v : option jstring)
| SetParameters (v : jstring).

(** The write statements the services send to [dbService.run]. *)
Inductive statement :=
| InsertChapter (projectId : Z) (title description : jstring)
                (content : option jstring) (order : Z)
| UpdateChapter (sets : list chapterAssign) (id : Z)
| UpdateProject (sets : list projectAssign) (id : Z).

Record MaxOrderRow := mkMaxOrder { maxOrder : option Z }.

(** The SELECT statements the services send to [dbService.get]/[getOne],
    indexed by the type of their rows. *)
Inductive query : Type -> Type :=
| SelectMaxOrder (projectId : Z) : query MaxOrderRow
| SelectLastInsertedChapter : query Chapter.t
| SelectChaptersByProject (projectId : Z) : query Chapter.t
| SelectChapterById (id : Z) : query Chapter.t
| SelectProjectById (id : Z) : query Project.t.

(** What the engine does beyond the tables: when a statement raises
    (constraint, initialisation or binding failure) and what
    CURRENT_TIMESTAMP reads at each write. *)
Class Engine := {
  run_fails : statement -> database -> bool;
  get_fails : forall T, query T -> database -> bool;
  CURRENT_TIMESTAMP : nat -> jstring
}.

Definition applyChapterAssign (c : Chapter.t) (a : chapterAssign) : Chapter.t :=
  match a with
  | SetTitle v =>
      Chapter.mk (Chapter.id c) (Chapter.projectId c) v (Chapter.description c)
        (Chapter.content c) (Chapter.order c) (Chapter.createdAt c) (Chapter.updatedAt c)
  | SetDescription v =>
      Chapter.mk (Chapter.id c) (Chapter.projectId c) (Chapter.title c) v
        (Chapter.content c) (Chapter.order c) (Chapter.createdAt c) (Chapter.updatedAt c)
  | SetContent v =>
      Chapter.mk (Chapter.id c) (Chapter.projectId c) (Chapter.title c)
        (Chapter.description c) v (Chapter.order c) (Chapter.createdAt c)
        (Chapter.updatedAt c)
  | SetOrder v =>
      Chapter.mk (Chapter.id c) (Chapter.projectId c) (Chapter.title c)
        (Chapter.description c) (Chapter.content c) v (Chapter.createdAt c)
        (Chapter.updatedAt c)
  end.

Definition applyProjectAssign (p : Project.t) (a : projectAssign) : Project.t :=
  match a with
  | SetName v =>
      Project.mk (Project.id p) v (Project.description p) (Project.parameters p)
        (Project.createdAt p) (Project.updatedAt p)
  | SetProjectDescription v =>
      Project.mk (Project.id p) (Project.name p) v (Project.parameters p)
        (Project.createdAt p) (Project.updatedAt p)
  | SetParameters v =>
      Project.mk (Project.id p) (Project.name p) (Project.description p) (Some v)
        (Project.createdAt p) (Project.updatedAt p)
  end.

(** Trigger [update_chapter_updatedAt]. *)
Definition touchChapter (now : jstring) (c : Chapter.t) : Chapter.t :=
  Chapter.mk (Chapter.id c) (Chapter.projectId c) (Chapter.title c)
    (Chapter.description c) (Chapter.content c) (Chapter.order c)
    (Chapter.createdAt c) now.

(** Trigger [update_project_updatedAt]. *)
Definition touchProject (now : jstring) (p : Project.t) : Project.t :=
  Project.mk (Project.id p) (Project.name p) (Project.description p)
    (Project.parameters p) (Project.createdAt p) now.

(** [UPDATE chapters SET ... WHERE id = ?] on one row. *)
Definition updateChapterRow (now : jstring) (sets : list chapterAssign) (id : Z)
    (c : Chapter.t) : Chapter.t :=
  if Z.eqb (Chapter.id c) id
  then touchChapter now (fold_left applyChapterAssign sets c)
  else c.

Definition updateProjectRow (now : jstring) (sets : list projectAssign) (id : Z)
    (p : Project.t) : Project.t :=
  if Z.eqb (Project.id p) id
  then touchProject now (fold_left applyProjectAssign sets p)
  else p.

(** Largest rowid in [chapters], 0 for the empty table. *)
Definition maxChapterId (cs : list Chapter.t) : Z :=
  fold_left (fun m c => Z.max m (Chapter.id c)) cs 0%Z.

Section WithEngine.
Context {engine : Engine}.

(** Effect of an accepted write statement. *)
Definition exec (s : statement) (d : database) : database :=
  let now := CURRENT_TIMESTAMP (statements d) in
  match s with
  | InsertChapter pid t ds ct o =>
      (* INTEGER PRIMARY KEY AUTOINCREMENT *)
      let id := (Z.max (sqlite_sequence_chapters d) (maxChapterId (chapters d)) + 1)%Z in
      mkDb (projects d)
           (chapters d ++ [Chapter.mk id pid t ds ct o now now])
           id id (S (statements d))
  | UpdateChapter sets id =>
      mkDb (projects d)
           (List.map (updateChapterRow now sets id) (chapters d))
           (sqlite_sequence_chapters d) (last_insert_rowid d) (S (statements d))
  | UpdateProject sets id =>
      mkDb (List.map (updateProjectRow now sets id) (projects d))
           (chapters d)
           (sqlite_sequence_chapters d) (last_insert_rowid d) (S (statements d))
  end.

(** MAX("order") over a set of rows; NULL when there is none. *)
Definition maxOrderOf (cs : list Chapter.t) : option Z :=
  match cs with
  | [] => None
  | c :: cs' => Some (fold_left (fun m x => Z.max m (Chapter.order x)) cs' (Chapter.order c))
  end.

(** ORDER BY "order" ASC: rows with equal keys keep rowid order. *)
Fixpoint insertByOrder (c : Chapter.t) (l : list Chapter.t) : list Chapter.t :=
  match l with
  | [] => [c]
  | x :: l' =>
      if (Chapter.order c <=? Chapter.order x)%Z then c :: l
      else x :: insertByOrder c l'
  end.

Definition orderByOrder (l : list Chapter.t) : list Chapter.t :=
  fold_right insertByOrder [] l.

(** Rows a SELECT returns. *)
Definition answer {T} (q : query T) (d : database) : list T :=
  match q in query T return list T with
  | SelectMaxOrder pid =>
      [mkMaxOrder (maxOrderOf
         (filter (fun c => Z.eqb (Chapter.projectId c) pid) (chapters d)))]
  | SelectLastInsertedChapter =>
      filter (fun c => Z.eqb (Chapter.id c) (last_insert_rowid d)) (chapters d)
  | SelectChaptersByProject pid =>
      orderByOrder (filter (fun c => Z.eqb (Chapter.projectId c) pid) (chapters d))
  | SelectChapterById id =>
      filter (fun c => Z.eqb (Chapter.id c) id) (chapters d)
  | SelectProjectById id =>
      filter (fun p => Z.eqb (Project.id p) id) (projects d)
  end.

End WithEngine.

End Db.

(* ------------------------------------------------------------------ *)
(** ** Values exchanged with the model backends *)

Module Wire.
Import Js Async.

#[local] Set Warnings "-register-all".

(** A value decoded by [response.json()].  A number carries the text
    [String(n)] gives for it. *)
Inductive json :=
| JNull
| JBool (b : bool)
| JNumber (text : jstring)
| JString (s : jstring)
| JArray (items : list json)
| JObject (fields : list (jstring * json)).

(** A JavaScript value read out of decoded JSON: [None] is [undefined]. *)
Definition jsval := option json.

(** src/providers/types.ts *)
Record ProviderConfig := mkConfig {
  apiKey : option jstring;
  baseUrl : option jstring;
  model : jstring
}.

(** [ChatCompletionMessageParam] *)
Record Message := mkMessage { role : jstring; msg_content : jstring }.

(** The options the providers pass to [new OpenAI(...)]. *)
Record Client := mkClient { client_apiKey : jstring; baseURL : option jstring }.

(** What [chat.completions.create] resolves to, as far as the providers
    read it: [choices[0]?.message?.content]. *)
Record ChoiceMessage := mkChoiceMessage { content : option jstring }.
Record Choice := mkChoice { message : option ChoiceMessage }.
Record ChatCompletion := mkCompletion { choices : option (list (option Choice)) }.

(** An entry of [(await openai.models.list()).data]. *)
Record Model := mkModel { model_id : jstring }.

(** What [fetch] resolves to. *)
Record Response := mkResponse {
  ok : bool;
  status : N;
  body : outcome json      (* [await response.json()] *)
}.

(** A request sent to a backend. *)
Inductive request :=
| Fetch (url : jstring)
| ModelsList (c : Client)
| ChatCreate (c : Client) (messages : list Message) (model : jstring).

(** The backends: each answer may depend on the requests sent before. *)
Class Network := {
  fetch : list request -> jstring -> outcome Response;
  models_list : list request -> Client -> outcome (list Model);
  chat_completions_create :
    list request -> Client -> list Message -> jstring -> outcome ChatCompletion
}.

(** [data.key] on a decoded value that is neither null nor undefined. *)
Fixpoint lookup (key : jstring) (fields : list (jstring * json)) : jsval :=
  match fields with
  | [] => None
  | (k, v) :: rest =>
      match lookup key rest with
      | Some v' => Some v'            (* a repeated key keeps its last value *)
      | None => if Js.eqb k key then Some v else None
      end
  end.

Definition getProp (key : jstring) (v : json) : jsval :=
  match v with
  | JObject fields => lookup key fields
  | _ => None
  end.

(** [v?.key] *)
Definition optProp (key : jstring) (v : jsval) : jsval :=
  match v with
  | None | Some JNull => None
  | Some x => getProp key x
  end.

(** [String(v)] for a decoded value. *)
Fixpoint toString (v : json) : jstring :=
  match v with
  | JNull => lit "null"
  | JBool true => lit "true"
  | JBool false => lit "false"
  | JNumber t => t
  | JString s => s
  | JArray items =>
      (fix join (l : list json) : jstring :=
         match l with
         | [] => []
         | [x] => match x with JNull => [] | _ => toString x end
         | x :: l' =>
             (match x with JNull => [] | _ => toString x end)
               ++ lit "," ++ join l'
         end) items
  | JObject _ => lit "[object Object]"
  end.

(** [a < b] on strings: code unit by code unit. *)
Fixpoint ltStr (a b : jstring) : bool :=
  match a, b with
  | _, [] => false
  | [], _ :: _ => true
  | x :: a', y :: b' => N.ltb x y || (N.eqb x y && ltStr a' b')
  end.

Fixpoint insertSorted (v : json) (l : list json) : list json :=
  match l with
  | [] => [v]
  | x :: l' =>
      if ltStr (toString x) (toString v) then x :: insertSorted v l'
      else v :: l
  end.

Fixpoint defined (l : list jsval) : list json :=
  match l with
  | [] => []
  | Some v :: l' => v :: defined l'
  | None :: l' => defined l'
  end.

(** [array.sort()] with the default comparator: stable, by string value,
    [undefined] elements last. *)
Definition sort (l : list jsval) : list jsval :=
  List.map Some (fold_right insertSorted [] (defined l))
    ++ filter (fun v => match v with None => true | Some _ => false end) l.

End Wire.

(* ------------------------------------------------------------------ *)
(** ** The world the services act on *)

Module World.
Import Js Async.

(** src/lib/settingsService.ts *)
Record LlmSettings := mkSettings {
  provider : jstring;
  apiKey : jstring;
  baseUrl : jstring;
  model : jstring
}.

Record world := mkWorld {
  db : Db.database;
  requests : list Wire.request;      (* oldest first *)
  settings : LlmSettings             (* what [loadLlmSettings()] yields *)
}.

Definition withDatabase (d : Db.database) (w : world) : world :=
  mkWorld d (requests w) (settings w).

Definition sent (r : Wire.request) (w : world) : world :=
  mkWorld (db w) (requests w ++ [r]) (settings w).

(** Synchronous built-ins and the prompt template, whose text no property
    here depends on. *)
Class Runtime := {
  JSON_parse : jstring -> outcome Wire.json;
  JSON_stringify : Wire.json -> jstring;
  generateChapterContentPrompt :
    Project.t -> Chapter.t -> option jstring -> outcome jstring
}.

End World.

(** [dbService] *)
Module DbService.
Import Js Async Async.Notations Db World.

Section WithEngine.
Context {engine : Engine}.

(** A statement that raises leaves the tables as they were. *)
Definition run (s : statement) : M world unit :=
  fun w =>
    if run_fails s (db w) then (Throw (Error "run"), w)
    else (Ret tt, withDatabase (exec s (db w)) w).

Definition get {T} (q : query T) : M world (list T) :=
  fun w =>
    if get_fails q (db w) then (Throw (Error "get"), w)
    else (Ret (answer q (db w)), w).

Definition getOne {T} (q : query T) : M world (option T) :=
  results <- get q ;;
  ret (match results with
       | r :: _ => Some r
       | [] => None
       end).

End WithEngine.
End DbService.

(* ------------------------------------------------------------------ *)
(** ** src/services/chapterService.ts *)

Module ChapterService.
Import Js Async Async.Notations Db World.

(** The [updates] argument of [updateChapter]: an absent key is [None]. *)
Record ChapterUpdates := mkUpdates {
  title : option jstring;
  description : option jstring;
  content : option (option jstring);     (* [Some None] is an explicit null *)
  order : option Z
}.

Definition noUpdates : ChapterUpdates := mkUpdates None None None None.

(** An element of the [updates] argument of [updateChapterOrder]. *)
Record OrderUpdate := mkOrderUpdate { id : Z; newOrder : Z }.

Definition fieldsToUpdate (updates : ChapterUpdates) : list chapterAssign :=
  (match title updates with Some v => [SetTitle v] | None => [] end)
  ++ (match description updates with Some v => [SetDescription v] | None => [] end)
  ++ (match content updates with Some v => [SetContent v] | None => [] end)
  ++ (match order updates with Some v => [SetOrder v] | None => [] end).

Section WithEngine.
Context {engine : Engine}.

Definition createChapter (projectId : Z) (title description : jstring)
    (content : option jstring) : M world (option Chapter.t) :=
  TRY
    (result <- DbService.getOne (SelectMaxOrder projectId) ;;
     let nextOrder :=
       Js.plus (match match result with
                      | Some r => maxOrder r
                      | None => None
                      end with
                | Some m => m
                | None => (-1)%Z
                end) 1%Z in
     DbService.run (InsertChapter projectId title description content nextOrder) ;;;
     newChapter <- DbService.getOne SelectLastInsertedChapter ;;
     ret newChapter)
  CATCH (fun _ => ret None).

Definition getChaptersByProjectId (projectId : Z) : M world (list Chapter.t) :=
  TRY
    (chapters <- DbService.get (SelectChaptersByProject projectId) ;;
     ret chapters)
  CATCH (fun _ => ret []).

Definition getChapterById (id : Z) : M world (option Chapter.t) :=
  TRY
    (chapter <- DbService.getOne (SelectChapterById id) ;;
     ret chapter)
  CATCH (fun _ => ret None).

Definition updateChapter (id : Z) (updates : ChapterUpdates)
  : M world (option Chapter.t) :=
  let sets := fieldsToUpdate updates in
  if (List.length sets =? 0)%nat then getChapterById id
  else
    TRY
      (DbService.run (UpdateChapter sets id) ;;;
       getChapterById id)
    CATCH (fun _ => ret None).

(** [for (const update of updates) await dbService.run(...)] *)
Fixpoint runOrderUpdates (updates : list OrderUpdate) : M world unit :=
  match updates with
  | [] => ret tt
  | update :: rest =>
      DbService.run (UpdateChapter [SetOrder (newOrder update)] (id update)) ;;;
      runOrderUpdates rest
  end.

Definition updateChapterOrder (updates : list OrderUpdate) : M world bool :=
  if (List.length updates =? 0)%nat then ret true
  else
    TRY (runOrderUpdates updates ;;; ret true)
    CATCH (fun _ => ret false).

End WithEngine.
End ChapterService.

(* ------------------------------------------------------------------ *)
(** ** src/services/projectService.ts *)

Module ProjectService.
Import Js Async Async.Notations Db World.

Record ProjectUpdates := mkUpdates {
  name : option jstring;
  description : option (option jstring);
  parameters : option Wire.json
}.

Definition noUpdates : ProjectUpdates := mkUpdates None None None.

Section WithEngine.
Context {engine : Engine} {runtime : Runtime}.

Definition fieldsToUpdate (updates : ProjectUpdates) : list projectAssign :=
  (match name updates with Some v => [SetName v] | None => [] end)
  ++ (match description updates with Some v => [SetProjectDescription v] | None => [] end)
  ++ (match parameters updates with
      | Some v => [SetParameters (JSON_stringify v)]
      | None => []
      end).

Definition getProjectById (id : Z) : M world (option Project.t) :=
  TRY
    (project <- DbService.getOne (SelectProjectById id) ;;
     ret project)
  CATCH (fun _ => ret None).

Definition updateProject (id : Z) (updates : ProjectUpdates)
  : M world (option Project.t) :=
  let sets := fieldsToUpdate updates in
  if (List.length sets =? 0)%nat then getProjectById id
  else
    TRY
      (DbService.run (UpdateProject sets id) ;;;
       getProjectById id)
    CATCH (fun _ => ret None).

End WithEngine.
End ProjectService.

(* ------------------------------------------------------------------ *)
(** ** src/providers *)

Module Providers.
Import Js Async Async.Notations Wire World.

(** src/providers/types.ts: [testConnection] is optional. *)
Record LlmProvider := mkProvider {
  listModels : ProviderConfig -> M world (option (list jsval));
  getChatCompletion : list Message -> ProviderConfig -> M world (option jstring);
  testConnection : option (ProviderConfig -> M world bool)
}.

(** [chatCompletion.choices[0]?.message?.content]; indexing a missing
    [choices] is a TypeError. *)
Definition firstContent (c : ChatCompletion) : outcome (option jstring) :=
  match choices c with
  | None => Throw (Error "TypeError")
  | Some [] => Ret None
  | Some (None :: _) => Ret None
  | Some (Some choice :: _) =>
      match message choice with
      | None => Ret None
      | Some m => Ret (content m)
      end
  end.

(** [list.data.map(model => model.id).sort()] *)
Definition sortedIds (data : list Model) : list jsval :=
  sort (List.map (fun m => Some (JString (model_id m))) data).

(** [items.map(model => model.name)]: reading a property of null throws. *)
Fixpoint mapNames (items : list json) : outcome (list jsval) :=
  match items with
  | [] => Ret []
  | model :: rest =>
      match model with
      | JNull => Throw (Error "TypeError")
      | _ =>
          match mapNames rest with
          | Ret names => Ret (getProp (lit "name") model :: names)
          | Throw e => Throw e
          end
      end
  end.

(** [data?.models?.map((model: any) => model.name).sort() || []] *)
Definition tagNames (data : json) : outcome (list jsval) :=
  match optProp (lit "models") (Some data) with
  | None | Some JNull => Ret []
  | Some (JArray items) =>
      match mapNames items with
      | Ret names => Ret (sort names)
      | Throw e => Throw e
      end
  | Some _ => Throw (Error "TypeError")       (* [.map] is not a function *)
  end.

Section WithNetwork.
Context {network : Network}.

Definition doFetch (url : jstring) : M world Response :=
  fun w => (fetch (requests w) url, sent (Fetch url) w).

Definition modelsList (c : Client) : M world (list Model) :=
  fun w => (models_list (requests w) c, sent (ModelsList c) w).

Definition chatCreate (c : Client) (messages : list Message) (model : jstring)
  : M world ChatCompletion :=
  fun w => (chat_completions_create (requests w) c messages model,
            sent (ChatCreate c messages model) w).

(** The body shared by the three [getChatCompletion] methods, given the
    provider's [getClient]. *)
Definition chatCompletionVia (getClient : ProviderConfig -> outcome Client)
    (messages : list Message) (config : ProviderConfig)
  : M world (option jstring) :=
  TRY
    (openai <- lift (getClient config) ;;
     chatCompletion <- chatCreate openai messages (Wire.model config) ;;
     responseContent <- lift (firstContent chatCompletion) ;;
     if negb (truthy responseContent) then ret None
     else ret responseContent)
  CATCH (fun _ => ret None).

End WithNetwork.
End Providers.

(** *** openaiProvider.ts *)
Module OpenAI.
Import Js Async Async.Notations Wire World Providers.

Section WithNetwork.
Context {network : Network}.

Definition getClient (config : ProviderConfig) : outcome Client :=
  if negb (truthy (Wire.apiKey config))
  then Throw (Error "OpenAI API Key missing.")
  else Ret (mkClient (toStr (Wire.apiKey config)) None).

Definition listModels (config : ProviderConfig) : M world (option (list jsval)) :=
  TRY
    (openai <- lift (getClient config) ;;
     list <- modelsList openai ;;
     ret (Some (sortedIds list)))
  CATCH (fun _ => ret None).

Definition getChatCompletion := chatCompletionVia getClient.

Definition testConnection (config : ProviderConfig) : M world bool :=
  TRY
    (models <- listModels config ;;
     ret (match models with
          | Some l => (0 <? List.length l)%nat
          | None => false
          end))
  CATCH (fun _ => ret false).

Definition openaiProvider : LlmProvider :=
  mkProvider listModels getChatCompletion (Some testConnection).

End WithNetwork.
End OpenAI.

(** *** ollamaProvider.ts *)
Module Ollama.
Import Js Async Async.Notations Wire World Providers.

Section WithNetwork.
Context {network : Network}.

Definition getClient (config : ProviderConfig) : outcome Client :=
  if negb (truthy (Wire.baseUrl config))
  then Throw (Error "Ollama Base URL missing.")
  else
    let url := toStr (Wire.baseUrl config) in
    let baseUrl := if endsWith (lit "/v1") url then url else url ++ lit "/v1" in
    Ret (mkClient (lit "ollama") (Some baseUrl)).

Definition tagsUrl (url : jstring) : jstring :=
  if endsWith (lit "/") url then url ++ lit "api/tags" else url ++ lit "/api/tags".

(** The [try] block of [listModels]: the native endpoint. *)
Definition nativeList (config : ProviderConfig) : M world (option (list jsval)) :=
  response <- doFetch (tagsUrl (toStr (Wire.baseUrl config))) ;;
  (if negb (ok response) then throw (Error "HTTP error!") else ret tt) ;;;
  data <- lift (body response) ;;
  models <- lift (tagNames data) ;;
  ret (Some models).

(** The [catch] block of [listModels]: the OpenAI-compatible endpoint. *)
Definition fallbackList (config : ProviderConfig) : M world (option (list jsval)) :=
  TRY
    (openai <- lift (getClient config) ;;
     list <- modelsList openai ;;
     ret (Some (sortedIds list)))
  CATCH (fun _ => ret None).

Definition listModels (config : ProviderConfig) : M world (option (list jsval)) :=
  if negb (truthy (Wire.baseUrl config)) then ret None
  else
    TRY nativeList config
    CATCH (fun _ => fallbackList config).

Definition getChatCompletion := chatCompletionVia getClient.

Definition testConnection (config : ProviderConfig) : M world bool :=
  if negb (truthy (Wire.baseUrl config)) then ret false
  else
    TRY
      (response <- doFetch (tagsUrl (toStr (Wire.baseUrl config))) ;;
       ret (ok response))
    CATCH (fun _ => ret false).

Definition ollamaProvider : LlmProvider :=
  mkProvider listModels getChatCompletion (Some testConnection).

End WithNetwork.
End Ollama.

(** *** lmstudioProvider.ts *)
Module LMStudio.
Import Js Async Async.Notations Wire World Providers.

Section WithNetwork.
Context {network : Network}.

Definition getClient (config : ProviderConfig) : outcome Client :=
  if negb (truthy (Wire.baseUrl config))
  then Throw (Error "LMStudio Base URL missing.")
  else Ret (mkClient (lit "lmstudio") (Wire.baseUrl config)).

Definition listModels (config : ProviderConfig) : M world (option (list jsval)) :=
  TRY
    (openai <- lift (getClient config) ;;
     list <- modelsList openai ;;
     ret (Some (sortedIds list)))
  CATCH (fun _ => ret None).

Definition getChatCompletion := chatCompletionVia getClient.

Definition testConnection (config : ProviderConfig) : M world bool :=
  TRY
    (models <- listModels config ;;
     ret (match models with
          | Some _ => true
          | None => false
          end))
  CATCH (fun _ => ret false).

Definition lmstudioProvider : LlmProvider :=
  mkProvider listModels getChatCompletion (Some testConnection).

End WithNetwork.
End LMStudio.

(* ------------------------------------------------------------------ *)
(** ** src/services/llmService.ts: the dispatcher and the workflows *)

Module LlmService.
Import Js Async Async.Notations Wire World Providers.

(** The provider modules the dispatcher imports. *)
Class Registry := {
  openaiProvider : LlmProvider;
  ollamaProvider : LlmProvider;
  lmstudioProvider : LlmProvider
}.

(** The modules under src/providers. *)
Definition sourceRegistry {network : Network} : Registry :=
  Build_Registry OpenAI.openaiProvider Ollama.ollamaProvider
                 LMStudio.lmstudioProvider.

Definition loadLlmSettings : M world LlmSettings :=
  fun w => (Ret (settings w), w).

(** JavaScript truthiness of a decoded value. *)
Definition jsTruthy (v : jsval) : bool :=
  match v with
  | None | Some JNull => false
  | Some (JBool b) => b
  | Some (JNumber t) => negb (Js.eqb t (lit "0"))
  | Some (JString s) => truthy (Some s)
  | Some (JArray _) | Some (JObject _) => true
  end.

(** [parameters.key] on the value [JSON.parse] gave. *)
Definition propOf (key : jstring) (v : json) : outcome jsval :=
  match v with
  | JNull => Throw (Error "TypeError")
  | _ => Ret (getProp key v)
  end.

(** [allChapters.findIndex(c => c.id === startChapterId)] *)
Fixpoint findIndex (id : Z) (l : list Chapter.t) : option nat :=
  match l with
  | [] => None
  | c :: l' =>
      if Z.eqb (Chapter.id c) id then Some 0%nat
      else match findIndex id l' with
           | Some i => Some (S i)
           | None => None
           end
  end.

(** [allChapters[i].content = v] *)
Fixpoint setContent (i : nat) (v : jstring) (l : list Chapter.t) : list Chapter.t :=
  match l, i with
  | [], _ => []
  | c :: l', O => Db.applyChapterAssign c (Db.SetContent (Some v)) :: l'
  | c :: l', S i' => c :: setContent i' v l'
  end.

Section WithEnvironment.
Context {engine : Db.Engine} {runtime : Runtime} {registry : Registry}.

Definition getActiveProvider (settings : LlmSettings) : option LlmProvider :=
  if Js.eqb (provider settings) (lit "openai") then Some openaiProvider
  else if Js.eqb (provider settings) (lit "ollama") then Some ollamaProvider
  else if Js.eqb (provider settings) (lit "lmstudio") then Some lmstudioProvider
  else None.

Definition createProviderConfig (settings : LlmSettings) : ProviderConfig :=
  let model :=
    if negb (truthy (Some (World.model settings))) then
      if Js.eqb (provider settings) (lit "ollama") then lit "llama3"
      else if Js.eqb (provider settings) (lit "lmstudio") then lit "loaded-model-id"
      else lit "gpt-3.5-turbo"
    else World.model settings in
  mkConfig (Some (World.apiKey settings)) (Some (World.baseUrl settings)) model.

Definition processLLMPrompt (prompt : jstring) : M world (option jstring) :=
  settings <- loadLlmSettings ;;
  match getActiveProvider settings with
  | None => ret None
  | Some provider =>
      let config := createProviderConfig settings in
      let messages := [mkMessage (lit "user") prompt] in
      TRY getChatCompletion provider messages config
      CATCH (fun _ => ret None)
  end.

Definition listModels : M world (option (list jsval)) :=
  settings <- loadLlmSettings ;;
  match getActiveProvider settings with
  | None => ret None
  | Some provider =>
      let config := createProviderConfig settings in
      TRY Providers.listModels provider config
      CATCH (fun _ => ret None)
  end.

(** [provider?.testConnection] *)
Definition testConnectionOf (p : option LlmProvider)
  : option (ProviderConfig -> M world bool) :=
  match p with
  | Some provider => Providers.testConnection provider
  | None => None
  end.

Definition testConnection : M world bool :=
  settings <- loadLlmSettings ;;
  let provider := getActiveProvider settings in
  match testConnectionOf provider with
  | None =>
      TRY
        (models <- listModels ;;
         ret (match models with
              | Some _ => true
              | None => false
              end))
      CATCH (fun _ => ret false)
  | Some test =>
      let config := createProviderConfig settings in
      TRY test config
      CATCH (fun _ => ret false)
  end.

Definition handleChapterContentResponse (response : jstring) (chapterId : Z)
  : M world bool :=
  TRY
    (ChapterService.updateChapter chapterId
       (ChapterService.mkUpdates None None (Some (Some response)) None) ;;;
     ret true)
  CATCH (fun _ => ret false).

(** The [for] loop of [generateChapterSequenceContent]: [n] iterations are
    left, [i] is the loop index, [allChapters] the array whose elements the
    loop mutates. *)
Fixpoint sequenceLoop (project : Project.t) (parameters : json)
    (n i : nat) (allChapters : list Chapter.t) (success : bool) : M world bool :=
  match n with
  | O => ret success
  | S n' =>
      match nth_error allChapters i with
      | None => ret success
      | Some currentChapter =>
          continueNarrative <- lift (propOf (lit "continueNarrative") parameters) ;;
          let contextContent :=
            if jsTruthy continueNarrative && (0 <? i)%nat then
              match nth_error allChapters (i - 1) with
              | Some prevChapter =>
                  if truthy (Chapter.content prevChapter)
                  then Chapter.content prevChapter else None
              | None => None
              end
            else None in
          contentPrompt <-
            lift (generateChapterContentPrompt project currentChapter contextContent) ;;
          contentResponse <- processLLMPrompt contentPrompt ;;
          if truthy contentResponse then
            saveSuccess <-
              handleChapterContentResponse (toStr contentResponse)
                                           (Chapter.id currentChapter) ;;
            sequenceLoop project parameters n' (S i)
              (setContent i (toStr contentResponse) allChapters)
              (if negb saveSuccess then false else success)
          else
            sequenceLoop project parameters n' (S i) allChapters false
      end
  end.

Definition generateChapterSequenceContent (projectId startChapterId : Z)
  : M world bool :=
  TRY
    (project <- ProjectService.getProjectById projectId ;;
     match project with
     | None => ret false
     | Some project =>
         parameters <-
           lift (if truthy (Project.parameters project)
                 then JSON_parse (toStr (Project.parameters project))
                 else Ret (JObject [])) ;;
         allChapters <- ChapterService.getChaptersByProjectId projectId ;;
         match findIndex startChapterId allChapters with
         | None => ret false
         | Some startChapterIndex =>
             sequenceLoop project parameters
               (List.length allChapters - startChapterIndex) startChapterIndex
               allChapters true
         end
     end)
  CATCH (fun _ => ret false).

End WithEnvironment.
End LlmService.

(* ------------------------------------------------------------------ *)
(** ** Inputs and notions used to state the properties *)

Module Examples.
Import Js Parser.

(** The plan text of the specification's parser example. *)
Definition planExample : jstring :=
  joinLines ["Chapter 1: Intro"; "Description: Sets the stage."; "";
             "Chapter 2: Middle"; "Description: Builds tension."]%string.

(** A plan whose first chapter has an empty description. *)
Definition emptyDescriptionPlan : jstring :=
  joinLines ["Chapter 1: A"; "Description:"; "Chapter 2: B"; "Description: x"]%string.

End Examples.

Module ParserSpec.
Import Js Parser.

Definition untitled : jstring := lit "Untitled Chapter".

Definition notLineTerminator (c : char) : bool := negb (isLineTerminator c).

Definition hasColon (s : jstring) : bool := existsb (N.eqb colon) s.

(** The text following the first colon of [s]. *)
Fixpoint afterFirstColon (s : jstring) : jstring :=
  match s with
  | [] => []
  | c :: s' => if N.eqb c colon then s' else afterFirstColon s'
  end.

(** [t] reads: Chapter, white space [ws], digits [ds], a colon, [rest]. *)
Definition numberedHeader (t ws ds rest : jstring) : Prop :=
  t = lit "Chapter" ++ ws ++ ds ++ colon :: rest
  /\ ws <> [] /\ forallb isWhiteSpace ws = true
  /\ ds <> [] /\ forallb isDigit ds = true.

(** Claim C8 as worded, at one line: a header line with a colon gets the
    trimmed text after its first colon as title. *)
Definition titleIsTextAfterFirstColon (line : jstring) : Prop :=
  startsWith (lit "Chapter") (trim line) = true ->
  hasColon (trim line) = true ->
  forall st,
    title (currentChapter (step st line))
    = Some (trim (afterFirstColon (trim line))).

(** [subseq l1 l2]: [l1] is [l2] with some elements left out. *)
Inductive subseq {A : Type} : list A -> list A -> Prop :=
| subseq_nil : subseq [] []
| subseq_skip x l1 l2 : subseq l1 l2 -> subseq l1 (x :: l2)
| subseq_take x l1 l2 : subseq l1 l2 -> subseq (x :: l1) (x :: l2).

Definition isHeader (line : jstring) : bool :=
  startsWith (lit "Chapter") (trim line).

(** The title the parser gives the draft opened by a header line. *)
Definition headerTitleOf (line : jstring) : option jstring :=
  Some (match matchTitle (trim line) with
        | Some m => trim m
        | None => untitled
        end).

(** The titles of the header lines of the input, in input order. *)
Definition headerTitles (response : jstring) : list (option jstring) :=
  List.map headerTitleOf (filter isHeader (split_lines response)).

Definition ordersAreIndices (l : list PartialChapter) : Prop :=
  forall i c, nth_error l i = Some c -> order c = Some (Z.of_nat i).

Definition ordersIncrease (l : list PartialChapter) : Prop :=
  forall i j ci cj,
    (i < j)%nat -> nth_error l i = Some ci -> nth_error l j = Some cj ->
    exists oi oj, order ci = Some oi /\ order cj = Some oj /\ (oi < oj)%Z.

Definition seenTitles (lines : list jstring) : list (option jstring) :=
  List.map headerTitleOf (filter isHeader lines).

(** After the lines [lines]: the pushed drafts carry their indices, the open
    draft carries the next index, and the pushed titles followed by the open
    draft's title are among the header titles seen, in order. *)
Definition inv (lines : list jstring) (st : pstate) : Prop :=
  ordersAreIndices (chapters st)
  /\ ((currentChapter st = emptyChapter /\ chapters st = [])
      \/ (order (currentChapter st) = Some (Z.of_nat (List.length (chapters st)))
          /\ exists seen,
               seenTitles lines = seen ++ [title (currentChapter st)]
               /\ subseq (List.map title (chapters st)) seen)).

(** Claim C2 as worded, at one input: the order of each returned draft is
    its index in the returned list. *)
Definition ordersAreReturnedIndices (response : jstring) : Prop :=
  forall l, parseEbookPlanResponse response = Some l -> ordersAreIndices l.

End ParserSpec.

Module StoreSpec.
Import Js Async Db World ChapterService.

Section WithEngine.
Context {engine : Engine}.

(** The statement [updateChapterOrder] sends for one pair. *)
Definition orderStatement (u : OrderUpdate) : statement :=
  UpdateChapter [SetOrder (newOrder u)] (id u).

(** The database once the pairs [us] have been applied, in list order. *)
Definition applied (us : list OrderUpdate) (d : database) : database :=
  fold_left (fun d u => exec (orderStatement u) d) us d.

(** Every pair of [us] is accepted by the engine when its turn comes. *)
Fixpoint accepted (us : list OrderUpdate) (d : database) : bool :=
  match us with
  | [] => true
  | u :: rest =>
      negb (run_fails (orderStatement u) d)
      && accepted rest (exec (orderStatement u) d)
  end.

End WithEngine.

Definition chapterOf (id : Z) (d : database) : option Chapter.t :=
  find (fun c => Z.eqb (Chapter.id c) id) (chapters d).

Definition projectOf (id : Z) (d : database) : option Project.t :=
  find (fun p => Z.eqb (Project.id p) id) (projects d).

(** The stored order of chapter [id]. *)
Definition orderOf (id : Z) (d : database) : option Z :=
  option_map Chapter.order (chapterOf id d).

(** The chapters of project [projectId]. *)
Definition siblings (projectId : Z) (d : database) : list Chapter.t :=
  filter (fun c => Z.eqb (Chapter.projectId c) projectId) (chapters d).

(** The order [createChapter] computes from the answer to its first query. *)
Definition nextOrderOf (projectId : Z) (d : database) : Z :=
  Js.plus (match maxOrderOf (siblings projectId d) with
           | Some m => m
           | None => (-1)%Z
           end) 1%Z.

(** The orders of the project's chapters are safe integers. *)
Definition safeOrders (projectId : Z) (d : database) : Prop :=
  Forall (fun s => Js.isSafeInteger (Chapter.order s) = true)
         (siblings projectId d).

(** Claim C5 as worded, at one store and project: a chapter created there
    gets the greatest order among the project's chapters plus 1. *)
Definition orderIsMaxPlusOne {engine : Engine} (w : world) (projectId : Z)
  : Prop :=
  forall title description content c m,
    fst (createChapter projectId title description content w) = Ret (Some c) ->
    maxOrderOf (siblings projectId (db w)) = Some m ->
    Chapter.order c = (m + 1)%Z.

End StoreSpec.

Module Fixtures.
Import Js Async Db World.

Definition tick (n : nat) : jstring := lit "T+" ++ repeat 0x49%N n.

(** An engine that accepts every statement. *)
Definition reliable : Engine :=
  {| run_fails := fun _ _ => false;
     get_fails := fun _ _ _ => false;
     CURRENT_TIMESTAMP := tick |}.

(** An engine that raises on every UPDATE of chapter [bad]. *)
Definition rejectsChapter (bad : Z) : Engine :=
  {| run_fails := fun s _ =>
       match s with
       | UpdateChapter _ id => Z.eqb id bad
       | _ => false
       end;
     get_fails := fun _ _ _ => false;
     CURRENT_TIMESTAMP := tick |}.

(** An engine that raises on every UPDATE of [chapters]. *)
Definition rejectsChapterUpdates : Engine :=
  {| run_fails := fun s _ =>
       match s with
       | UpdateChapter _ _ => true
       | _ => false
       end;
     get_fails := fun _ _ _ => false;
     CURRENT_TIMESTAMP := tick |}.

Definition book : Project.t :=
  Project.mk 1 (lit "Book") None None (lit "T0") (lit "T0").

Definition chapterRow (id order : Z) (title : string) : Chapter.t :=
  Chapter.mk id 1 (lit title) (lit "about") None order (lit "T0") (lit "T0").

(** One project with three chapters, ordered 0, 1, 2. *)
Definition threeChapters : database :=
  mkDb [book]
       [chapterRow 1 0 "One"; chapterRow 2 1 "Two"; chapterRow 3 2 "Three"]
       3 3 0.

(** One project with a single chapter. *)
Definition oneChapter : database :=
  mkDb [book] [chapterRow 1 0 "One"] 1 1 0.

(** One project with a single chapter, whose order is 2^53. *)
Definition largeOrder : database :=
  mkDb [book] [chapterRow 1 (2 ^ 53) "One"] 1 1 0.

(** A runtime whose prompt for a chapter is the chapter's title. *)
Definition plainRuntime : Runtime :=
  {| JSON_parse := fun _ => Ret (Wire.JObject []);
     JSON_stringify := fun _ => lit "{}";
     generateChapterContentPrompt := fun _ c _ => Ret (Chapter.title c) |}.

Definition ollamaSettings : LlmSettings :=
  mkSettings (lit "ollama") (lit "") (lit "http://localhost:11434") (lit "llama3").

Definition worldOf (d : database) : world := mkWorld d [] ollamaSettings.

End Fixtures.

Module ProviderFixtures.
Import Js Async Wire World Providers.

Definition completionOf (text : option jstring) : ChatCompletion :=
  mkCompletion (Some [Some (mkChoice (Some (mkChoiceMessage text)))]).

Definition promptOf (messages : list Message) : jstring :=
  match messages with
  | m :: _ => msg_content m
  | [] => []
  end.

(** A backend that completes every prompt with the same text and serves
    no model list. *)
Definition storyteller : Network :=
  {| fetch := fun _ _ => Throw (Error "offline");
     models_list := fun _ _ => Throw (Error "offline");
     chat_completions_create := fun _ _ _ _ =>
       Ret (completionOf (Some (lit "Once upon a time"))) |}.

(** The same backend, except that the prompt [bad] makes it fail. *)
Definition failsOn (bad : jstring) : Network :=
  {| fetch := fun _ _ => Throw (Error "offline");
     models_list := fun _ _ => Throw (Error "offline");
     chat_completions_create := fun _ _ messages _ =>
       if Js.eqb (promptOf messages) bad then Throw (Error "overloaded")
       else Ret (completionOf (Some (lit "Once upon a time"))) |}.

(** A backend whose completions carry the empty string. *)
Definition emptyCompletions : Network :=
  {| fetch := fun _ _ => Throw (Error "offline");
     models_list := fun _ _ => Throw (Error "offline");
     chat_completions_create := fun _ _ _ _ => Ret (completionOf (Some [])) |}.

(** A backend whose native listing is down and whose generic listing
    serves one model. *)
Definition nativeDown : Network :=
  {| fetch := fun _ _ => Ret (mkResponse false 503 (Throw (Error "no body")));
     models_list := fun _ _ => Ret [mkModel (lit "llama3")];
     chat_completions_create := fun _ _ _ _ => Ret (completionOf None) |}.

(** A provider module without [testConnection] that lists no model. *)
Definition bareProvider : LlmProvider :=
  mkProvider (fun _ => Async.ret (Some []))
             (fun _ _ => Async.ret None)
             None.

Definition bareRegistry : LlmService.Registry :=
  LlmService.Build_Registry bareProvider bareProvider bareProvider.

End ProviderFixtures.

Module ProviderSpec.
Import Js Async Wire World Providers.

Section WithNetwork.
Context {network : Network}.

(** The ways the native listing attempt fails, given the requests [log]
    sent before it: the request itself fails, the status is not a success,
    the body does not decode, or the decoded [models] cannot be mapped. *)
Inductive nativeFailure (url : jstring) (log : list request) : Prop :=
| NetworkError e :
    fetch log url = Throw e -> nativeFailure url log
| BadStatus response :
    fetch log url = Ret response -> ok response = false ->
    nativeFailure url log
| MalformedBody response e :
    fetch log url = Ret response -> ok response = true ->
    body response = Throw e -> nativeFailure url log
| UnreadableModels response data e :
    fetch log url = Ret response -> ok response = true ->
    body response = Ret data -> tagNames data = Throw e ->
    nativeFailure url log.

(** What the generic listing call yields for the caller. *)
Definition genericResult (log : list request) (c : Client) : option (list jsval) :=
  match models_list log c with
  | Ret data => Some (sortedIds data)
  | Throw _ => None
  end.

End WithNetwork.
End ProviderSpec.

(* ------------------------------------------------------------------ *)
(** ** Further service functions *)

From Stdlib Require Import Sorted Permutation.

(** chapterService.deleteChapter and the DELETE statement it sends. *)
Module Deletion.
Import Js Async Async.Notations Db World.

(** When the engine raises on [DELETE FROM chapters WHERE id = ?]. *)
Class DeleteEngine := {
  delete_fails : Z -> database -> bool
}.

(** Effect of an accepted DELETE: the rows with that id go, nothing else
    changes and no row is renumbered. *)
Definition execDelete (id : Z) (d : database) : database :=
  mkDb (projects d)
       (filter (fun c => negb (Z.eqb (Chapter.id c) id)) (chapters d))
       (sqlite_sequence_chapters d) (last_insert_rowid d) (S (statements d)).

Section WithEngine.
Context {deleteEngine : DeleteEngine}.

Definition runDelete (id : Z) : M world unit :=
  fun w =>
    if delete_fails id (db w) then (Throw (Error "run"), w)
    else (Ret tt, withDatabase (execDelete id (db w)) w).

Definition deleteChapter (id : Z) : M world bool :=
  TRY (runDelete id ;;; ret true)
  CATCH (fun _ => ret false).

End WithEngine.
End Deletion.

(** llmService.handleEbookPlanResponse *)
Module PlanHandling.
Import Js Async Async.Notations Db World Parser.

Section WithEngine.
Context {engine : Engine}.

(** [for (let i = 0; i < chapters.length; i++) await createChapter(...)].
    A draft the parser returns has a title and a description; binding a
    missing one would raise inside [createChapter], which returns null. *)
Fixpoint createAll (projectId : Z) (chapters : list PartialChapter)
  : M world unit :=
  match chapters with
  | [] => ret tt
  | c :: rest =>
      match title c, description c with
      | Some t, Some d =>
          ChapterService.createChapter projectId t d (content c) ;;;
          createAll projectId rest
      | _, _ => createAll projectId rest
      end
  end.

Definition handleEbookPlanResponse (response : jstring) (projectId : Z)
  : M world bool :=
  TRY
    (match parseEbookPlanResponse response with
     | None => ret false
     | Some chapters =>
         if (List.length chapters =? 0)%nat then ret false
         else createAll projectId chapters ;;; ret true
     end)
  CATCH (fun _ => ret false).

End WithEngine.
End PlanHandling.

(** projectService.exportProjectToJson and its helper parseParameters. *)
Module ProjectExport.
Import Js Async Async.Notations Db World.

Record ExportedChapter := mkExportedChapter {
  title : jstring;
  description : jstring;
  content : option jstring;
  order : Z
}.

Record EbookProjectExport := mkExport {
  name : jstring;
  export_description : option jstring;
  parameters : Wire.jsval;
  chapters : list ExportedChapter
}.

Section WithEnvironment.
Context {engine : Engine} {runtime : Runtime}.

Definition parseParameters (paramsString : option jstring) : Wire.jsval :=
  if negb (truthy paramsString) then None
  else match JSON_parse (toStr paramsString) with
       | Ret v => Some v
       | Throw _ => None
       end.

Definition exportChapter (chapter : Chapter.t) : ExportedChapter :=
  mkExportedChapter (Chapter.title chapter) (Chapter.description chapter)
                    (Chapter.content chapter) (Chapter.order chapter).

Definition exportProjectToJson (projectId : Z)
  : M world (option EbookProjectExport) :=
  TRY
    (project <- ProjectService.getProjectById projectId ;;
     match project with
     | None => ret None
     | Some project =>
         chapters <- ChapterService.getChaptersByProjectId projectId ;;
         let exportedChapters := List.map exportChapter chapters in
         let parameters := parseParameters (Project.parameters project) in
         ret (Some (mkExport (Project.name project) (Project.description project)
                             parameters exportedChapters))
     end)
  CATCH (fun _ => ret None).

End WithEnvironment.
End ProjectExport.

(** The chapter list component (src/components/ChapterManager.tsx): what
    its delete and drop handlers do to the store and what they hand to
    [onChaptersUpdated] and [setChapterError]. *)
Module ChapterManager.
Import Js Async Async.Notations Db World ChapterService.

(** The lists passed to [onChaptersUpdated], in call order, and the last
    value given to [setChapterError]. *)
Record ui := mkUi {
  shown : list (list Chapter.t);
  chapterError : option string
}.

(** [l.map((chapter, index) => ({ id: chapter.id, order: index }))] *)
Fixpoint indexUpdates (index : nat) (l : list Chapter.t) : list OrderUpdate :=
  match l with
  | [] => []
  | chapter :: rest =>
      mkOrderUpdate (Chapter.id chapter) (Z.of_nat index)
        :: indexUpdates (S index) rest
  end.

(** [l.map((chapter, index) => ({ ...chapter, order: index }))] *)
Fixpoint withIndexOrder (index : nat) (l : list Chapter.t) : list Chapter.t :=
  match l with
  | [] => []
  | chapter :: rest =>
      applyChapterAssign chapter (SetOrder (Z.of_nat index))
        :: withIndexOrder (S index) rest
  end.

(** [const [x] = a.splice(i, 1)]: the element removed, if any, and what is
    left of the array. *)
Fixpoint spliceOut {A : Type} (i : nat) (a : list A) : option A * list A :=
  match a, i with
  | [], _ => (None, [])
  | x :: rest, O => (Some x, rest)
  | x :: rest, S i' => let (r, rest') := spliceOut i' rest in (r, x :: rest')
  end.

(** [a.splice(j, 0, x)]: a start past the end inserts at the end. *)
Fixpoint spliceIn {A : Type} (j : nat) (x : A) (a : list A) : list A :=
  match a, j with
  | [], _ => [x]
  | _, O => x :: a
  | y :: rest, S j' => y :: spliceIn j' x rest
  end.

(** The array [reorderedChapters] of [handleDrop]; [None] when nothing was
    removed, in which case the array holds [undefined] and mapping over it
    throws. *)
Definition moveItem {A : Type} (i j : nat) (a : list A) : option (list A) :=
  match spliceOut i a with
  | (Some x, rest) => Some (spliceIn j x rest)
  | (None, _) => None
  end.

Section WithEngine.
Context {engine : Engine} {deleteEngine : Deletion.DeleteEngine}.

(** [handleDeleteChapter] once the user has confirmed. *)
Definition handleDeleteChapter (projectId chapterId : Z) : M world ui :=
  TRY
    (success <- Deletion.deleteChapter chapterId ;;
     if success then
       remainingChapters <- getChaptersByProjectId projectId ;;
       let updates := indexUpdates 0 remainingChapters in
       updateChapterOrder updates ;;;
       finalChapters <- getChaptersByProjectId projectId ;;
       ret (mkUi [finalChapters] None)
     else ret (mkUi [] (Some "Failed to delete chapter."%string)))
  CATCH (fun _ => ret (mkUi [] (Some "Failed to delete chapter."%string))).

(** [handleDrop] for the list [chapters] the component was given and the
    two indices kept by the drag handlers. *)
Definition handleDrop (chapters : list Chapter.t)
    (dragItemIndex dragOverItemIndex : option nat) : M world ui :=
  match dragItemIndex, dragOverItemIndex with
  | Some i, Some j =>
      if (i =? j)%nat then ret (mkUi [] None)
      else
        match moveItem i j chapters with
        | None => throw (Error "TypeError")
        | Some reorderedChapters =>
            let updates := indexUpdates 0 reorderedChapters in
            let optimistic := withIndexOrder 0 reorderedChapters in
            TRY
              (success <- updateChapterOrder updates ;;
               if negb success then
                 ret (mkUi [optimistic; chapters]
                           (Some "Failed to save the new chapter order."%string))
               else ret (mkUi [optimistic] None))
            CATCH (fun _ =>
              ret (mkUi [optimistic; chapters]
                        (Some "An error occurred while saving the chapter order."%string)))
        end
  | _, _ => ret (mkUi [] None)
  end.

End WithEngine.
End ChapterManager.

(** llmService.getChatResponse *)
Module ChatResponse.
Import Js Async Async.Notations Wire World Providers LlmService.

(** A row of [messages], as the chat component passes it. *)
Record ChatMessage := mkChatMessage {
  id : Z;
  projectId : Z;
  chapterId : option Z;
  role : jstring;
  content : jstring;
  createdAt : jstring
}.

Definition quote : char := 0x22%N.

(** The system message: a template literal over the project and its
    parameters. *)
Definition systemMessageContent {runtime : Runtime} (project : Project.t)
    (parameters : json) (narrativeHooks : jsval) : jstring :=
  lit "You are a helpful assistant working on an ebook project called "
  ++ [quote] ++ Project.name project ++ [quote] ++ lit "." ++ [newline]
  ++ lit "Project Description: "
  ++ (if truthy (Project.description project)
      then toStr (Project.description project) else lit "N/A")
  ++ [newline]
  ++ lit "Ebook Parameters: " ++ JSON_stringify parameters ++ [newline]
  ++ (if jsTruthy narrativeHooks
      then lit "Key Narrative Hooks/Themes: "
           ++ match narrativeHooks with
              | Some v => toString v
              | None => lit "undefined"
              end
      else [])
  ++ [newline]
  ++ lit "Current Task: Respond helpfully to the user's message in the context of this ebook project.".

(** [messages.map(msg => ({ role: msg.role, content: msg.content }))] *)
Definition toParam (msg : ChatMessage) : Message :=
  mkMessage (role msg) (content msg).

Section WithEnvironment.
Context {engine : Db.Engine} {runtime : Runtime} {registry : Registry}.

Definition getChatResponse (projectId : Z) (messages : list ChatMessage)
  : M world (option jstring) :=
  settings <- loadLlmSettings ;;
  match getActiveProvider settings with
  | None => ret None
  | Some provider =>
      let config := createProviderConfig settings in
      project <- ProjectService.getProjectById projectId ;;
      match project with
      | None => ret None
      | Some project =>
          parameters <-
            lift (if truthy (Project.parameters project)
                  then JSON_parse (toStr (Project.parameters project))
                  else Ret (JObject [])) ;;
          narrativeHooks <- lift (propOf (lit "narrativeHooks") parameters) ;;
          let formattedMessages :=
            mkMessage (lit "system")
                      (systemMessageContent project parameters narrativeHooks)
            :: List.map toParam messages in
          TRY getChatCompletion provider formattedMessages config
          CATCH (fun _ => ret None)
      end
  end.

End WithEnvironment.
End ChatResponse.

(** src/lib/settingsService.ts: what saveLlmSettings writes. *)
Module SettingsService.
Import Js World.

Definition defaultSettings : LlmSettings :=
  mkSettings (lit "openai") (lit "") (lit "http://localhost:11434")
             (lit "gpt-3.5-turbo").

(** [a || b] on strings *)
Definition orElse (a b : jstring) : jstring :=
  match a with
  | [] => b
  | _ => a
  end.

(** The object [settingsToSave] that saveLlmSettings serialises. *)
Definition settingsToSave (settings : LlmSettings) : LlmSettings :=
  let provider' := orElse (trim (provider settings)) (provider defaultSettings) in
  let apiKey' := orElse (trim (apiKey settings)) [] in
  let baseUrl' := orElse (trim (baseUrl settings)) (baseUrl defaultSettings) in
  let model' := orElse (trim (model settings)) [] in
  let model'' :=
    if negb (truthy (Some model')) then
      if Js.eqb provider' (lit "ollama") then lit "llama3"
      else model defaultSettings
    else model' in
  mkSettings provider' apiKey' baseUrl' model''.

End SettingsService.


(** ChapterManager.handleGeneratePlan *)
Module GeneratePlan.
Import Js Async Async.Notations Db World ChapterService ChapterManager.

(** llmService.generateEbookPlanPrompt: a template filled from the
    project, whose text no property here depends on; it throws when the
    stored parameters do not parse. *)
Class PlanPrompt := {
  generateEbookPlanPrompt : Project.t -> outcome jstring
}.

Section WithEnvironment.
Context {engine : Engine} {deleteEngine : Deletion.DeleteEngine}
        {registry : LlmService.Registry} {planPrompt : PlanPrompt}.

(** [for (const chapter of chapters) await chapterService.deleteChapter(chapter.id)]:
    the result of each deletion is dropped. *)
Fixpoint deleteAll (chapters : list Chapter.t) : M world unit :=
  match chapters with
  | [] => ret tt
  | chapter :: rest =>
      Deletion.deleteChapter (Chapter.id chapter) ;;; deleteAll rest
  end.

(** The [if (proceed)] block; [cleared] holds the lists already passed to
    [onChaptersUpdated]. *)
Definition storePlan (project : Project.t) (planResponse : jstring)
    (cleared : list (list Chapter.t)) : M world ui :=
  success <- PlanHandling.handleEbookPlanResponse planResponse (Project.id project) ;;
  if success then
    updatedChapters <- getChaptersByProjectId (Project.id project) ;;
    ret (mkUi (cleared ++ [updatedChapters]) None)
  else
    ret (mkUi cleared
           (Some "Failed to process LLM response or create chapters."%string)).

(** [handleGeneratePlan] for the list [chapters] the component was given;
    [confirmed] is the answer to [window.confirm], which is asked only when
    that list is not empty. *)
Definition handleGeneratePlan (project : Project.t) (chapters : list Chapter.t)
    (confirmed : bool) : M world ui :=
  TRY
    (planPrompt <- lift (generateEbookPlanPrompt project) ;;
     planResponse <- LlmService.processLLMPrompt planPrompt ;;
     match planResponse with
     | Some ((_ :: _) as response) =>
         if (0 <? List.length chapters)%nat then
           if confirmed then
             deleteAll chapters ;;;
             storePlan project response [[]]
           else ret (mkUi [] None)
         else storePlan project response []
     | _ => ret (mkUi [] (Some "LLM failed to generate a plan."%string))
     end)
  CATCH (fun _ =>
    ret (mkUi [] (Some "An error occurred while generating the ebook plan."%string))).

End WithEnvironment.
End GeneratePlan.

Module PlanFixtures.
Import Js Async Wire World Providers GeneratePlan.

(** A prompt template that is the project's name. *)
Definition namePrompt : PlanPrompt :=
  {| generateEbookPlanPrompt := fun project => Ret (Project.name project) |}.

(** A backend that answers every prompt with the two-chapter plan. *)
Definition planner : Network :=
  {| fetch := fun _ _ => Throw (Error "offline");
     models_list := fun _ _ => Throw (Error "offline");
     chat_completions_create := fun _ _ _ _ =>
       Ret (ProviderFixtures.completionOf (Some Examples.planExample)) |}.

(** An engine that deletes whatever it is asked to. *)
Definition deletes : Deletion.DeleteEngine :=
  {| Deletion.delete_fails := fun _ _ => false |}.

End PlanFixtures.

(** Notions used to state the further properties. *)
Module ExtraSpec.
Import Js Async Db World.

(** [a] does not come after [b] in ascending order. *)
Definition byOrder (a b : Chapter.t) : Prop :=
  (Chapter.order a <= Chapter.order b)%Z.

(** The engine raises on no statement. *)
Definition accepting {engine : Engine} : Prop :=
  (forall T (q : query T) d, get_fails q d = false)
  /\ (forall s d, run_fails s d = false).

(** [n] consecutive orders starting at [z]. *)
Definition consecutiveFrom (z : Z) (n : nat) : list Z :=
  List.map (fun k => (z + Z.of_nat k)%Z) (seq 0 n).

(** [new] is [old] but for its order and its updatedAt. *)
Definition renumbered (old new : Chapter.t) : Prop :=
  Chapter.id new = Chapter.id old
  /\ Chapter.projectId new = Chapter.projectId old
  /\ Chapter.title new = Chapter.title old
  /\ Chapter.description new = Chapter.description old
  /\ Chapter.content new = Chapter.content old
  /\ Chapter.createdAt new = Chapter.createdAt old.

(** The chapters of [l] other than chapter [id]. *)
Definition others (id : Z) (l : list Chapter.t) : list Chapter.t :=
  filter (fun c => negb (Z.eqb (Chapter.id c) id)) l.

(** The row a chapter has become once the pairs [us] have been applied,
    the first of them as write statement number [n]. *)
Fixpoint rowAfter {engine : Engine} (us : list ChapterService.OrderUpdate)
    (n : nat) (c : Chapter.t) : Chapter.t :=
  match us with
  | [] => c
  | u :: rest =>
      rowAfter rest (S n)
        (updateChapterRow (CURRENT_TIMESTAMP n)
           [SetOrder (ChapterService.newOrder u)] (ChapterService.id u) c)
  end.

(** The client the source's provider for [settings] builds, if it
    builds one. *)
Definition clientFor (settings : LlmSettings) : option Wire.Client :=
  let config := LlmService.createProviderConfig settings in
  let ofOutcome (o : outcome Wire.Client) :=
    match o with Ret c => Some c | Throw _ => None end in
  if Js.eqb (provider settings) (lit "openai")
  then ofOutcome (OpenAI.getClient config)
  else if Js.eqb (provider settings) (lit "ollama")
  then ofOutcome (Ollama.getClient config)
  else if Js.eqb (provider settings) (lit "lmstudio")
  then ofOutcome (LMStudio.getClient config)
  else None.

(** [new] is [old] but for its content and its updatedAt. *)
Definition contentOnly (old new : Chapter.t) : Prop :=
  Chapter.id new = Chapter.id old
  /\ Chapter.projectId new = Chapter.projectId old
  /\ Chapter.title new = Chapter.title old
  /\ Chapter.description new = Chapter.description old
  /\ Chapter.order new = Chapter.order old
  /\ Chapter.createdAt new = Chapter.createdAt old.

(** The message list processLLMPrompt builds for a prompt. *)
Definition userMessage (prompt : jstring) : list Wire.Message :=
  [Wire.mkMessage (lit "user") prompt].

(** The world [w'] differs from [w] at most by the content and updatedAt
    of chapters and by further requests in the log. *)
Definition onlyContentWritten (w w' : world) : Prop :=
  Forall2 contentOnly (chapters (db w)) (chapters (db w'))
  /\ projects (db w') = projects (db w)
  /\ settings w' = settings w
  /\ exists sentNow, requests w' = requests w ++ sentNow.

(** A draft as the parser returns it: a non-empty title and description,
    the empty string as content, a non-negative order. *)
Definition wellFormedDraft (c : Parser.PartialChapter) : Prop :=
  (exists t, Parser.title c = Some t /\ t <> [])
  /\ (exists d, Parser.description c = Some d /\ d <> [])
  /\ Parser.content c = Some []
  /\ exists k, Parser.order c = Some (Z.of_nat k).

(** Every draft the loop holds has the empty string as content. *)
Definition emptyContents (st : Parser.pstate) : Prop :=
  Forall (fun c => Parser.content c = Some []) (Parser.chapters st)
  /\ (Parser.currentChapter st = Parser.emptyChapter
      \/ Parser.content (Parser.currentChapter st) = Some []).


(** The primary key of [chapters]: rowids are distinct and none exceeds
    the AUTOINCREMENT sequence. *)
Definition keyed (d : database) : Prop :=
  NoDup (List.map Chapter.id (chapters d))
  /\ Forall (fun c => (Chapter.id c <= sqlite_sequence_chapters d)%Z)
            (chapters d).

(** [d'] honours the rowids handed out up to [d]: the key still holds,
    the sequence has not gone back, and a rowid the sequence has passed
    that names no row of [d] names none of [d']. *)
Definition honours (d d' : database) : Prop :=
  (keyed d -> keyed d')
  /\ (sqlite_sequence_chapters d <= sqlite_sequence_chapters d')%Z
  /\ (forall id, (id <= sqlite_sequence_chapters d)%Z ->
                 StoreSpec.chapterOf id d = None ->
                 StoreSpec.chapterOf id d' = None).

(** A call that honours the rowids from whatever world it starts in. *)
Definition keepsKeys {A} (m : M world A) : Prop :=
  forall w, honours (db w) (db (snd (m w))).


(** The rows of [l] whose id is not among [ids]. *)
Definition withoutIds (ids : list Z) (l : list Chapter.t) : list Chapter.t :=
  filter (fun c => negb (existsb (Z.eqb (Chapter.id c)) ids)) l.


(** [request] is the completion request for the prompt the template gives
    for [chapter]; without narrative continuation the prompt carries no
    context. *)
Definition requestFor {runtime : Runtime} (project : Project.t)
    (parameters : Wire.json) (c : Wire.Client) (model : jstring)
    (chapter : Chapter.t) (request : Wire.request) : Prop :=
  exists contextContent prompt,
    generateChapterContentPrompt project chapter contextContent = Ret prompt
    /\ request = Wire.ChatCreate c (userMessage prompt) model
    /\ (LlmService.jsTruthy (Wire.getProp (lit "continueNarrative") parameters)
        = false -> contextContent = None).

(* more notions *)
End ExtraSpec.

(* ================================================================== *)
(** * Properties *)

Module ParserFacts.
Import Js Parser Examples.

(** C1. On the specification's example text the parser returns two drafts
    titled Intro and Middle with orders 0 and 1, but the blank line after
    the first description is space-joined onto it: the first description
    is "Sets the stage. " with a trailing space, not "Sets the stage.". *)
Theorem C1_plan_example_trailing_space :
  parseEbookPlanResponse planExample
  = Some [ mkPartial (Some (lit "Intro")) (Some (lit "Sets the stage. "))
                     (Some []) (Some 0%Z);
           mkPartial (Some (lit "Middle")) (Some (lit "Builds tension."))
                     (Some []) (Some 1%Z) ]
  /\ option_map (List.map description) (parseEbookPlanResponse planExample)
     <> Some [Some (lit "Sets the stage."); Some (lit "Builds tension.")].
Proof.
  split.
  - vm_compute. reflexivity.
  - vm_compute. discriminate.
Qed.

(** *** Facts about the string primitives *)

Lemma startsWith_app (p s : jstring) : startsWith p (p ++ s) = true.
Proof.
  induction p as [|a p IH]; simpl; [reflexivity|].
  now rewrite N.eqb_refl, IH.
Qed.

Lemma startsWith_split (p s : jstring) :
  startsWith p s = true -> s = p ++ skipn (List.length p) s.
Proof.
  revert s; induction p as [|a p IH]; intros s H; simpl in *; [reflexivity|].
  destruct s as [|b s]; [discriminate|].
  apply andb_true_iff in H as [Hab Hps].
  apply N.eqb_eq in Hab; subst b.
  simpl. f_equal. now apply IH.
Qed.

Lemma takeWhile_dropWhile (p : char -> bool) (s : jstring) :
  takeWhile p s ++ dropWhile p s = s.
Proof.
  induction s as [|c s IH]; simpl; [reflexivity|].
  destruct (p c); simpl; [now rewrite IH | reflexivity].
Qed.

Lemma takeWhile_all (p : char -> bool) (s : jstring) :
  forallb p (takeWhile p s) = true.
Proof.
  induction s as [|c s IH]; simpl; [reflexivity|].
  destruct (p c) eqn:E; simpl; [now rewrite E, IH | reflexivity].
Qed.

Lemma takeWhile_id (p : char -> bool) (s : jstring) :
  forallb p s = true -> takeWhile p s = s.
Proof.
  induction s as [|c s IH]; simpl; [reflexivity|].
  intros H. apply andb_true_iff in H as [-> H]. now rewrite IH.
Qed.

Lemma dropWhile_app (p : char -> bool) (a b : jstring) :
  forallb p a = true -> dropWhile p (a ++ b) = dropWhile p b.
Proof.
  induction a as [|c a IH]; simpl; [reflexivity|].
  intros H. apply andb_true_iff in H as [-> H]. now apply IH.
Qed.

Lemma dropWhile_idem (p : char -> bool) (s : jstring) :
  dropWhile p (dropWhile p s) = dropWhile p s.
Proof.
  induction s as [|c s IH]; simpl; [reflexivity|].
  destruct (p c) eqn:E; [exact IH | simpl; now rewrite E].
Qed.

Lemma dropWhile_all (p q : char -> bool) (s : jstring) :
  forallb q s = true -> forallb q (dropWhile p s) = true.
Proof.
  induction s as [|c s IH]; simpl; [reflexivity|].
  intros H. apply andb_true_iff in H as [Hc H].
  destruct (p c); [now apply IH | simpl; now rewrite Hc, H].
Qed.

Ltac char_class :=
  unfold isDigit, isWhiteSpace, isLineTerminator, colon in *;
  repeat match goal with
         | H : _ = true |- _ =>
             first [ apply andb_true_iff in H as [? ?]
                   | apply N.leb_le in H
                   | apply N.eqb_eq in H ]
         end;
  repeat match goal with
         | |- _ = false =>
             first [ apply orb_false_iff; split
                   | apply andb_false_iff; (left + right); apply N.leb_gt; lia
                   | apply N.eqb_neq; lia ]
         end.

Lemma digit_not_space (c : char) : isDigit c = true -> isWhiteSpace c = false.
Proof. intros H. char_class. Qed.

Lemma digit_not_colon (c : char) : isDigit c = true -> N.eqb c colon = false.
Proof. intros H. char_class. Qed.

Lemma space_not_colon (c : char) : isWhiteSpace c = true -> N.eqb c colon = false.
Proof.
  intros H. destruct (N.eqb c colon) eqn:E; [|reflexivity].
  apply N.eqb_eq in E; subst c. vm_compute in H. discriminate.
Qed.

(** *** The header pattern *)

Lemma matchTitle_numbered (t ws ds rest : jstring) :
  ParserSpec.numberedHeader t ws ds rest ->
  matchTitle t = Some (takeWhile ParserSpec.notLineTerminator (trimStart rest)).
Proof.
  intros (-> & Hws & Hws' & Hds & Hds').
  unfold matchTitle. rewrite startsWith_app.
  change (skipn 7 (lit "Chapter" ++ ws ++ ds ++ colon :: rest))
    with (ws ++ ds ++ colon :: rest).
  destruct ws as [|c ws]; [congruence|].
  destruct ds as [|d ds]; [congruence|].
  pose proof Hws' as Hc. simpl in Hc. apply andb_true_iff in Hc as [Hc _].
  pose proof Hds' as Hd. simpl in Hd. apply andb_true_iff in Hd as [Hd _].
  cbn [app]. rewrite Hc.
  change (c :: ws ++ d :: ds ++ colon :: rest)
    with ((c :: ws) ++ (d :: ds) ++ colon :: rest).
  rewrite (dropWhile_app _ _ _ Hws').
  cbn [app dropWhile]. rewrite (digit_not_space _ Hd), Hd.
  change (d :: ds ++ colon :: rest) with ((d :: ds) ++ colon :: rest).
  rewrite (dropWhile_app _ _ _ Hds').
  reflexivity.
Qed.

Lemma matchTitle_inv (t m : jstring) :
  matchTitle t = Some m ->
  exists ws ds rest, ParserSpec.numberedHeader t ws ds rest.
Proof.
  unfold matchTitle. intros H.
  destruct (startsWith (lit "Chapter") t) eqn:Hp; [|discriminate].
  apply startsWith_split in Hp.
  change (List.length (lit "Chapter")) with 7%nat in Hp.
  remember (skipn 7 t) as r1 eqn:Er1.
  destruct r1 as [|c r1']; [discriminate|].
  destruct (isWhiteSpace c) eqn:Hc; [|discriminate].
  remember (dropWhile isWhiteSpace (c :: r1')) as r2 eqn:Er2.
  destruct r2 as [|d r2']; [discriminate|].
  destruct (isDigit d) eqn:Hd; [|discriminate].
  remember (dropWhile isDigit (d :: r2')) as r3 eqn:Er3.
  destruct r3 as [|k r3']; [discriminate|].
  destruct (N.eqb k colon) eqn:Hk; [|discriminate].
  apply N.eqb_eq in Hk; subst k.
  exists (takeWhile isWhiteSpace (c :: r1')),
         (takeWhile isDigit (d :: r2')), r3'.
  repeat split.
  - rewrite Er3.
    rewrite (takeWhile_dropWhile isDigit (d :: r2')), Er2.
    rewrite (takeWhile_dropWhile isWhiteSpace (c :: r1')). exact Hp.
  - simpl. rewrite Hc. discriminate.
  - apply takeWhile_all.
  - simpl. rewrite Hd. discriminate.
  - apply takeWhile_all.
Qed.

Lemma afterFirstColon_app (a b : jstring) :
  ParserSpec.hasColon a = false ->
  ParserSpec.afterFirstColon (a ++ colon :: b) = b.
Proof.
  unfold ParserSpec.hasColon.
  induction a as [|c a IH]; cbn [existsb app ParserSpec.afterFirstColon]; intros H.
  - now rewrite N.eqb_refl.
  - apply orb_false_iff in H as [Hc Ha].
    rewrite N.eqb_sym, Hc. now apply IH.
Qed.

Lemma hasColon_app (a b : jstring) :
  ParserSpec.hasColon (a ++ b) = ParserSpec.hasColon a || ParserSpec.hasColon b.
Proof. apply existsb_app. Qed.

Lemma no_colon_in (p : char -> bool) (s : jstring) :
  (forall c, p c = true -> N.eqb c colon = false) ->
  forallb p s = true -> ParserSpec.hasColon s = false.
Proof.
  intros Hp. unfold ParserSpec.hasColon.
  induction s as [|c s IH]; cbn [existsb forallb]; [reflexivity|].
  intros H. apply andb_true_iff in H as [Hc Hs].
  rewrite N.eqb_sym, (Hp _ Hc). now apply IH.
Qed.

Lemma numberedHeader_after_colon (t ws ds rest : jstring) :
  ParserSpec.numberedHeader t ws ds rest ->
  ParserSpec.afterFirstColon t = rest /\ ParserSpec.hasColon t = true.
Proof.
  intros (-> & _ & Hws & _ & Hds).
  split.
  - rewrite 2 app_assoc. apply afterFirstColon_app.
    rewrite 2 hasColon_app.
    rewrite (no_colon_in _ _ space_not_colon Hws).
    rewrite (no_colon_in _ _ digit_not_colon Hds).
    reflexivity.
  - rewrite 3 hasColon_app. unfold ParserSpec.hasColon at 4.
    cbn [existsb]. rewrite N.eqb_refl. now rewrite !orb_true_r.
Qed.

Lemma step_header_title (st : pstate) (line : jstring) :
  startsWith (lit "Chapter") (trim line) = true ->
  title (currentChapter (step st line))
  = Some (match matchTitle (trim line) with
          | Some m => trim m
          | None => ParserSpec.untitled
          end).
Proof. intros H. unfold step. now rewrite H. Qed.

(** C8 (as worded, refuted). The line "Chapter One: Intro" begins with
    the marker and contains a colon, yet its draft is titled
    "Untitled Chapter", not "Intro": the header pattern wants digits
    between the marker and the colon. *)
Lemma C8_counterexample_chapter_one :
  ~ ParserSpec.titleIsTextAfterFirstColon (lit "Chapter One: Intro").
Proof.
  intros H.
  assert (E1 : startsWith (lit "Chapter") (trim (lit "Chapter One: Intro")) = true)
    by (vm_compute; reflexivity).
  assert (E2 : ParserSpec.hasColon (trim (lit "Chapter One: Intro")) = true)
    by (vm_compute; reflexivity).
  specialize (H E1 E2 initial). vm_compute in H. discriminate H.
Qed.

(** C8 (amended). For a line that, trimmed, begins with the marker
    "Chapter": if it reads Chapter, white space, digits, colon, rest, the
    new draft's title is taken from the rest in three steps: the white space
    the rest begins with is skipped (a carriage return or another line
    terminator there is white space too), what remains is cut at its first
    line terminator, and the result is trimmed.  That is the trimmed text
    after the first colon whenever the rest has no line terminator.  If the
    line is not of that shape, and in particular if it has no colon, the
    title is "Untitled Chapter". *)
Theorem C8_header_title (st : pstate) (line : jstring) :
  startsWith (lit "Chapter") (trim line) = true ->
  let t := title (currentChapter (step st line)) in
  (forall ws ds rest,
      ParserSpec.numberedHeader (trim line) ws ds rest ->
      t = Some (trim (takeWhile ParserSpec.notLineTerminator (trimStart rest)))
      /\ (forallb ParserSpec.notLineTerminator rest = true ->
          t = Some (trim (ParserSpec.afterFirstColon (trim line)))))
  /\ ((forall ws ds rest, ~ ParserSpec.numberedHeader (trim line) ws ds rest) ->
      t = Some ParserSpec.untitled)
  /\ (ParserSpec.hasColon (trim line) = false -> t = Some ParserSpec.untitled).
Proof.
  intros Hh t. subst t. rewrite (step_header_title st line Hh).
  assert (Hnone :
    (forall ws ds rest, ~ ParserSpec.numberedHeader (trim line) ws ds rest) ->
    matchTitle (trim line) = None).
  { intros Hno. destruct (matchTitle (trim line)) as [m|] eqn:E; [|reflexivity].
    destruct (matchTitle_inv _ E) as (ws & ds & rest & Hn).
    now destruct (Hno ws ds rest). }
  split; [|split].
  - intros ws ds rest Hn.
    rewrite (matchTitle_numbered Hn). split; [reflexivity|].
    intros Hlt.
    destruct (numberedHeader_after_colon Hn) as [-> _].
    rewrite takeWhile_id by (apply dropWhile_all; exact Hlt).
    unfold trim, trimStart. now rewrite dropWhile_idem.
  - intros Hno. now rewrite (Hnone Hno).
  - intros Hc. rewrite Hnone; [reflexivity|].
    intros ws ds rest Hn.
    destruct (numberedHeader_after_colon Hn) as [_ Hc'].
    congruence.
Qed.

(** Why the amended C8 cuts at a line terminator: a carriage return
    after the title's first character ends the captured title. *)
Example header_title_stops_at_carriage_return :
  title (currentChapter (step initial (lit "Chapter 1: a" ++ [0x0D%N] ++ lit "b")))
  = Some (lit "a").
Proof. vm_compute. reflexivity. Qed.

(** Why it skips white space first: a carriage return right after the
    colon is skipped with the other white space, so the title is what
    follows it, not the empty string. *)
Example header_title_skips_leading_carriage_return :
  title (currentChapter (step initial (lit "Chapter 1:" ++ [0x0D%N] ++ lit "foo")))
  = Some (lit "foo").
Proof. vm_compute. reflexivity. Qed.

(** The amended C8 at the line "  Chapter 12:  The End ". *)
Lemma C8_header_title_witness :
  title (currentChapter (step initial (lit "  Chapter 12:  The End ")))
  = Some (lit "The End").
Proof.
  destruct (C8_header_title initial (lit "  Chapter 12:  The End ") eq_refl)
    as [H _].
  destruct (H (lit " ") (lit "12") (lit "  The End")) as [_ H2].
  - repeat split; try discriminate; vm_compute; reflexivity.
  - exact (H2 eq_refl).
Defined.

(** *** Subsequences *)

Section Subseq.
Context {A : Type}.
Import ParserSpec.

Lemma subseq_nil_l (l : list A) : subseq [] l.
Proof. induction l; constructor; assumption. Qed.

Lemma subseq_refl (l : list A) : subseq l l.
Proof. induction l; [constructor | now apply subseq_take]. Qed.

Lemma subseq_app (a b c d : list A) :
  subseq a b -> subseq c d -> subseq (a ++ c) (b ++ d).
Proof.
  intros H1 H2. induction H1; simpl.
  - exact H2.
  - now apply subseq_skip.
  - now apply subseq_take.
Qed.

Lemma subseq_app_r (a b c : list A) : subseq a b -> subseq a (b ++ c).
Proof.
  intros H. rewrite <- (app_nil_r a). apply subseq_app; [exact H|].
  apply subseq_nil_l.
Qed.

Lemma subseq_trans (a b c : list A) : subseq a b -> subseq b c -> subseq a c.
Proof.
  intros Hab Hbc. revert a Hab.
  induction Hbc as [|x b c Hbc IH|x b c Hbc IH]; intros a Hab.
  - exact Hab.
  - constructor. now apply IH.
  - inversion Hab; subst.
    + apply subseq_skip. now apply IH.
    + apply subseq_take. now apply IH.
Qed.

Lemma subseq_filter (f : A -> bool) (l : list A) : subseq (filter f l) l.
Proof.
  induction l as [|x l IH]; simpl; [constructor|].
  destruct (f x); [now apply subseq_take | now apply subseq_skip].
Qed.

Lemma subseq_map {B : Type} (g : A -> B) (a b : list A) :
  subseq a b -> subseq (List.map g a) (List.map g b).
Proof.
  induction 1; simpl;
    [constructor | now apply subseq_skip | now apply subseq_take].
Qed.

End Subseq.

(** *** The loop invariant of the parser *)

Section LoopInvariant.
Import ParserSpec.

Lemma ordersAreIndices_snoc (l : list PartialChapter) (c : PartialChapter) :
  ordersAreIndices l ->
  order c = Some (Z.of_nat (List.length l)) ->
  ordersAreIndices (l ++ [c]).
Proof.
  intros Hl Hc i x Hx.
  destruct (Nat.lt_ge_cases i (List.length l)) as [Hi|Hi].
  - rewrite nth_error_app1 in Hx by exact Hi. now apply Hl.
  - rewrite nth_error_app2 in Hx by exact Hi.
    destruct (i - List.length l)%nat as [|k] eqn:E; simpl in Hx.
    + injection Hx as <-. replace i with (List.length l) by lia. exact Hc.
    + destruct k; discriminate.
Qed.

Lemma seenTitles_snoc (lines : list jstring) (line : jstring) :
  seenTitles (lines ++ [line])
  = seenTitles lines ++ (if isHeader line then [headerTitleOf line] else []).
Proof.
  unfold seenTitles. rewrite filter_app, map_app. simpl.
  now destruct (isHeader line).
Qed.

Lemma truthy_title_not_empty (c : PartialChapter) :
  truthy (title c) = true -> c <> emptyChapter.
Proof. intros H ->. discriminate H. Qed.

Lemma step_inv (lines : list jstring) (line : jstring) (st : pstate) :
  inv lines st -> inv (lines ++ [line]) (step st line).
Proof.
  intros (HA & HB). unfold inv. rewrite seenTitles_snoc.
  unfold step, isHeader.
  destruct (startsWith (lit "Chapter") (trim line)) eqn:Hh.
  - (* header line *)
    cbn [chapters currentChapter order title].
    destruct (isDescription st && truthy (title (currentChapter st))) eqn:Hpush.
    + apply andb_true_iff in Hpush as [_ Ht].
      destruct HB as [[He _]|(Ho & seen & Hs & Hsub)];
        [destruct (truthy_title_not_empty Ht He)|].
      split; [now apply ordersAreIndices_snoc|].
      right. split; [reflexivity|].
      exists (seen ++ [title (currentChapter st)]). split.
      * now rewrite Hs.
      * rewrite map_app. apply subseq_app; [exact Hsub | apply subseq_refl].
    + split; [exact HA|].
      right. split; [reflexivity|].
      exists (seenTitles lines). split; [reflexivity|].
      destruct HB as [[_ ->]|(_ & seen & -> & Hsub)].
      * apply subseq_nil_l.
      * now apply subseq_app_r.
  - rewrite app_nil_r.
    destruct (startsWith (lit "Description:") (trim line)).
    + destruct (truthy (title (currentChapter st))) eqn:Ht; [|now split].
      cbn [chapters currentChapter order title].
      split; [exact HA|].
      destruct HB as [[He _]|HB];
        [destruct (truthy_title_not_empty Ht He) | now right].
    + destruct (isDescription st && truthy (title (currentChapter st))) eqn:Hd;
        [|now split].
      apply andb_true_iff in Hd as [_ Ht].
      cbn [chapters currentChapter order title].
      split; [exact HA|].
      destruct HB as [[He _]|HB];
        [destruct (truthy_title_not_empty Ht He) | now right].
Qed.

Lemma fold_inv (lines : list jstring) :
  inv lines (fold_left step lines initial).
Proof.
  induction lines as [|line lines IH] using rev_ind.
  - split; [intros [|i] c H; discriminate H | now left].
  - rewrite fold_left_app. apply step_inv, IH.
Qed.

Lemma parsedChapters_inv (response : jstring) :
  ordersAreIndices (parsedChapters response)
  /\ subseq (List.map title (parsedChapters response)) (headerTitles response).
Proof.
  unfold parsedChapters, headerTitles.
  destruct (fold_inv (split_lines response)) as (HA & HB).
  fold (seenTitles (split_lines response)).
  set (st := fold_left step (split_lines response) initial) in *.
  destruct (truthy (title (currentChapter st))) eqn:Ht.
  - destruct HB as [[He _]|(Ho & seen & -> & Hsub)];
      [destruct (truthy_title_not_empty Ht He)|].
    split; [now apply ordersAreIndices_snoc|].
    rewrite map_app. apply subseq_app; [exact Hsub | apply subseq_refl].
  - split; [exact HA|].
    destruct HB as [[_ ->]|(_ & seen & -> & Hsub)].
    + apply subseq_nil_l.
    + now apply subseq_app_r.
Qed.

Lemma filter_orders_increase (f : PartialChapter -> bool)
    (l : list PartialChapter) (k : Z) :
  (forall i c, nth_error l i = Some c -> order c = Some (k + Z.of_nat i)%Z) ->
  forall i j ci cj,
    (i < j)%nat ->
    nth_error (filter f l) i = Some ci ->
    nth_error (filter f l) j = Some cj ->
    exists oi oj,
      order ci = Some oi /\ order cj = Some oj /\ (oi < oj)%Z /\ (k <= oi)%Z.
Proof.
  revert k. induction l as [|a l IH]; intros k Hl i j ci cj Hij Hi Hj.
  - destruct i; discriminate Hi.
  - assert (Hl' : forall i c, nth_error l i = Some c ->
                              order c = Some ((k + 1) + Z.of_nat i)%Z).
    { intros n c Hn. rewrite (Hl (S n) c Hn). f_equal. lia. }
    assert (Hin : forall n c, nth_error (filter f l) n = Some c ->
                              exists o, order c = Some o /\ (k < o)%Z).
    { intros n c Hn. apply nth_error_In, filter_In in Hn as [Hn _].
      apply In_nth_error in Hn as [m Hm].
      exists ((k + 1) + Z.of_nat m)%Z. split; [now apply Hl' | lia]. }
    simpl in Hi, Hj. destruct (f a).
    + destruct j as [|j]; [lia|]. simpl in Hj.
      destruct i as [|i]; simpl in Hi.
      * injection Hi as <-.
        destruct (Hin _ _ Hj) as (oj & Hoj & Hlt).
        exists k, oj. repeat split; try assumption; try lia.
        rewrite (Hl 0%nat a eq_refl). f_equal. lia.
      * destruct (@IH (k + 1)%Z Hl' i j ci cj) as (oi & oj & ? & ? & ? & ?);
          try assumption; try lia.
        exists oi, oj. repeat split; try assumption; lia.
    + destruct (@IH (k + 1)%Z Hl' i j ci cj) as (oi & oj & ? & ? & ? & ?);
        try assumption.
      exists oi, oj. repeat split; try assumption; lia.
Qed.

Lemma filter_length_eq {A : Type} (f : A -> bool) (l : list A) :
  List.length (filter f l) = List.length l -> filter f l = l.
Proof.
  induction l as [|a l IH]; simpl; [reflexivity|].
  destruct (f a); simpl; intros H.
  - f_equal. apply IH. lia.
  - pose proof (filter_length_le f l). lia.
Qed.

Lemma parse_some (response : jstring) (l : list PartialChapter) :
  parseEbookPlanResponse response = Some l ->
  l = filter isValid (parsedChapters response).
Proof.
  unfold parseEbookPlanResponse.
  destruct (_ && _); [discriminate|].
  destruct (0 <? _)%nat; [|discriminate].
  now intros [= <-].
Qed.

End LoopInvariant.

(** C2 (as worded, refuted). In the plan whose first chapter has an empty
    description the only returned draft, B, has order 1 but index 0. *)
Lemma C2_counterexample_filtered_order :
  ~ ParserSpec.ordersAreReturnedIndices emptyDescriptionPlan.
Proof.
  intros H.
  assert (E : parseEbookPlanResponse emptyDescriptionPlan
              = Some [mkPartial (Some (lit "B")) (Some (lit "x")) (Some [])
                                (Some 1%Z)])
    by (vm_compute; reflexivity).
  specialize (H _ E 0%nat _ eq_refl). discriminate H.
Qed.

(** C2 (amended). When the parser returns a list, it is the finalised
    drafts with the invalid ones filtered out; the order of each finalised
    draft is its index among the finalised drafts, before filtering; so the
    orders of the returned drafts increase strictly, the returned titles
    follow the order of the header lines of the input, and the orders are
    the indices 0..k-1 of the returned list when no finalised draft was
    filtered out. *)
Theorem C2_order_is_unfiltered_index (response : jstring)
    (l : list PartialChapter) :
  parseEbookPlanResponse response = Some l ->
  l = filter isValid (parsedChapters response)
  /\ ParserSpec.ordersAreIndices (parsedChapters response)
  /\ ParserSpec.ordersIncrease l
  /\ ParserSpec.subseq (List.map title l) (ParserSpec.headerTitles response)
  /\ (List.length l = List.length (parsedChapters response) ->
      ParserSpec.ordersAreIndices l).
Proof.
  intros H. apply parse_some in H. subst l.
  destruct (parsedChapters_inv response) as [Hidx Hsub].
  repeat split.
  - exact Hidx.
  - intros i j ci cj Hij Hi Hj.
    destruct (@filter_orders_increase isValid (parsedChapters response) 0%Z
                Hidx i j ci cj Hij Hi Hj) as (oi & oj & ? & ? & ? & _).
    now exists oi, oj.
  - eapply subseq_trans; [|exact Hsub].
    apply subseq_map, subseq_filter.
  - intros Hlen. apply filter_length_eq in Hlen. now rewrite Hlen.
Qed.

(** The amended C2 at the plan whose first chapter has an empty
    description. *)
Lemma C2_order_is_unfiltered_index_witness :
  ParserSpec.ordersIncrease
    [mkPartial (Some (lit "B")) (Some (lit "x")) (Some []) (Some 1%Z)]
  /\ ParserSpec.ordersAreIndices (parsedChapters emptyDescriptionPlan).
Proof.
  destruct (C2_order_is_unfiltered_index emptyDescriptionPlan
              (l := [mkPartial (Some (lit "B")) (Some (lit "x")) (Some [])
                               (Some 1%Z)]))
    as (_ & Hidx & Hinc & _).
  - vm_compute. reflexivity.
  - split; assumption.
Defined.

End ParserFacts.

Module NumberFacts.
Import Js.

Local Open Scope Z_scope.

(** Every integer up to 2^53 in magnitude is a double. *)
Lemma toNumber_exact (z : Z) :
  - 2 ^ 53 <= z <= 2 ^ 53 -> toNumber z = z.
Proof.
  intros H. unfold toNumber. cbv zeta.
  destruct (Z.abs z <? 2 ^ 53) eqn:E; [reflexivity|].
  apply Z.ltb_ge in E.
  assert (Hz : z = 2 ^ 53 \/ z = - 2 ^ 53) by lia.
  destruct Hz as [-> | ->]; reflexivity.
Qed.

(** A sum is exact when the operands and the sum are within 2^53. *)
Lemma plus_exact (a b : Z) :
  - 2 ^ 53 <= a <= 2 ^ 53 ->
  - 2 ^ 53 <= b <= 2 ^ 53 ->
  - 2 ^ 53 <= a + b <= 2 ^ 53 ->
  plus a b = a + b.
Proof.
  intros Ha Hb Hab. unfold plus.
  now rewrite (toNumber_exact Ha), (toNumber_exact Hb), (toNumber_exact Hab).
Qed.

Lemma isSafeInteger_bounds (z : Z) :
  isSafeInteger z = true <-> - 2 ^ 53 < z < 2 ^ 53.
Proof.
  unfold isSafeInteger. rewrite andb_true_iff, !Z.ltb_lt. tauto.
Qed.

Lemma plus_one_safe (m : Z) : isSafeInteger m = true -> plus m 1 = m + 1.
Proof.
  intros H. apply isSafeInteger_bounds in H. apply plus_exact; lia.
Qed.

(** Past the safe integers adding 1 may change nothing. *)
Example plus_one_at_two_to_53 : plus (2 ^ 53) 1 = 2 ^ 53.
Proof. reflexivity. Qed.

End NumberFacts.

Module StoreFacts.
Import Js Async Async.Notations Db World DbService ChapterService StoreSpec.

Section WithEngine.
Context {engine : Engine}.

Lemma withDatabase_same (w : world) : withDatabase (db w) w = w.
Proof. now destruct w. Qed.

Lemma run_accepted (s : statement) (w : world) :
  run_fails s (db w) = false ->
  run s w = (Ret tt, withDatabase (exec s (db w)) w).
Proof. intros H. unfold run. now rewrite H. Qed.

Lemma run_rejected (s : statement) (w : world) :
  run_fails s (db w) = true ->
  run s w = (Throw (Error "run"), w).
Proof. intros H. unfold run. now rewrite H. Qed.

(** *** Batch order update *)

Lemma runOrderUpdates_accepted (us : list OrderUpdate) (w : world) :
  accepted us (db w) = true ->
  runOrderUpdates us w = (Ret tt, withDatabase (applied us (db w)) w).
Proof.
  revert w. induction us as [|u us IH]; intros w H.
  - simpl. unfold ret. now rewrite withDatabase_same.
  - simpl in H. apply andb_true_iff in H as [Hu Hus].
    apply negb_true_iff in Hu.
    cbn [runOrderUpdates]. unfold bind.
    fold (orderStatement u). rewrite (run_accepted _ _ Hu).
    rewrite IH by exact Hus. reflexivity.
Qed.

Lemma runOrderUpdates_rejected (pre post : list OrderUpdate) (u : OrderUpdate)
    (w : world) :
  accepted pre (db w) = true ->
  run_fails (orderStatement u) (applied pre (db w)) = true ->
  runOrderUpdates (pre ++ u :: post) w
  = (Throw (Error "run"), withDatabase (applied pre (db w)) w).
Proof.
  revert w. induction pre as [|p pre IH]; intros w H Hu.
  - cbn [app runOrderUpdates]. unfold bind.
    fold (orderStatement u). simpl in Hu. rewrite (run_rejected _ _ Hu).
    unfold applied. cbn [fold_left]. now rewrite withDatabase_same.
  - simpl in H. apply andb_true_iff in H as [Hp Hpre].
    apply negb_true_iff in Hp.
    cbn [app runOrderUpdates]. unfold bind.
    fold (orderStatement p). rewrite (run_accepted _ _ Hp).
    rewrite IH; [reflexivity | exact Hpre | exact Hu].
Qed.

Lemma find_map_id (g : Chapter.t -> Chapter.t) (i : Z) (l : list Chapter.t) :
  (forall c, Chapter.id (g c) = Chapter.id c) ->
  find (fun c => Z.eqb (Chapter.id c) i) (List.map g l)
  = option_map g (find (fun c => Z.eqb (Chapter.id c) i) l).
Proof.
  intros Hg. induction l as [|c l IH]; simpl; [reflexivity|].
  rewrite Hg. destruct (Z.eqb (Chapter.id c) i); [reflexivity | exact IH].
Qed.

Lemma updateChapterRow_id (now : jstring) (sets : list chapterAssign) (i : Z)
    (c : Chapter.t) :
  Chapter.id (updateChapterRow now sets i c) = Chapter.id c.
Proof.
  unfold updateChapterRow. destruct (Z.eqb (Chapter.id c) i); [|reflexivity].
  simpl. revert c. induction sets as [|a sets IH]; intros c; [reflexivity|].
  simpl. rewrite IH. now destruct a.
Qed.

(** One pair leaves the order of every other chapter alone and sets the
    order of its own chapter. *)
Lemma orderOf_exec (u : OrderUpdate) (i : Z) (d : database) :
  orderOf i (exec (orderStatement u) d)
  = if Z.eqb i (id u)
    then option_map (fun _ => newOrder u) (chapterOf i d)
    else orderOf i d.
Proof.
  unfold orderOf, chapterOf, orderStatement. cbn [exec chapters].
  rewrite find_map_id by (intros; apply updateChapterRow_id).
  destruct (find _ (chapters d)) as [c|] eqn:Hf; simpl.
  - apply find_some in Hf as [_ Hc]. apply Z.eqb_eq in Hc.
    unfold updateChapterRow. rewrite Hc.
    destruct (Z.eqb i (id u)); reflexivity.
  - now destruct (Z.eqb i (id u)).
Qed.

Lemma orderOf_applied (us : list OrderUpdate) (i : Z) (d : database) :
  ~ In i (List.map id us) ->
  orderOf i (applied us d) = orderOf i d.
Proof.
  revert d. induction us as [|u us IH]; intros d Hn; [reflexivity|].
  simpl in Hn. unfold applied. cbn [fold_left]. fold (applied us (exec (orderStatement u) d)).
  rewrite IH by tauto. rewrite orderOf_exec.
  destruct (Z.eqb i (id u)) eqn:E; [|reflexivity].
  apply Z.eqb_eq in E. subst i. tauto.
Qed.

Lemma chapterOf_exec_order (u : OrderUpdate) (i : Z) (d : database) :
  chapterOf i d <> None -> chapterOf i (exec (orderStatement u) d) <> None.
Proof.
  unfold chapterOf, orderStatement. cbn [exec chapters].
  rewrite find_map_id by (intros; apply updateChapterRow_id).
  now destruct (find _ (chapters d)).
Qed.

(** With one pair per chapter, each applied pair has set its order. *)
Lemma orderOf_applied_in (us : list OrderUpdate) (p : OrderUpdate) (d : database) :
  NoDup (List.map id us) -> In p us -> chapterOf (id p) d <> None ->
  orderOf (id p) (applied us d) = Some (newOrder p).
Proof.
  revert d. induction us as [|u us IH]; intros d Hnd Hin Hex; [destruct Hin|].
  simpl in Hnd. apply NoDup_cons_iff in Hnd as [Hu Hnd].
  unfold applied. cbn [fold_left]. fold (applied us (exec (orderStatement u) d)).
  destruct Hin as [->|Hin].
  - rewrite orderOf_applied by exact Hu.
    rewrite orderOf_exec, Z.eqb_refl.
    now destruct (chapterOf (id p) d).
  - apply IH; [exact Hnd | exact Hin | now apply chapterOf_exec_order].
Qed.

(** C3. The batch order update applies its pairs one at a time, in list
    order.  If the engine raises on pair k after accepting the pairs before
    it, the result is false and the store is the one left by pairs 1..k-1:
    with one pair per chapter each of those chapters has its new order, and
    every chapter not named by them, those of pairs k+1..n included, keeps
    its order.  If every pair is accepted the result is true and all pairs
    are applied. *)
Theorem C3_batch_order_update_not_atomic (w : world) :
  (forall pre u post,
      accepted pre (db w) = true ->
      run_fails (orderStatement u) (applied pre (db w)) = true ->
      updateChapterOrder (pre ++ u :: post) w
      = (Ret false, withDatabase (applied pre (db w)) w)
      /\ (forall p, NoDup (List.map id pre) -> In p pre ->
                    chapterOf (id p) (db w) <> None ->
                    orderOf (id p) (applied pre (db w)) = Some (newOrder p))
      /\ (forall i, ~ In i (List.map id pre) ->
                    orderOf i (applied pre (db w)) = orderOf i (db w)))
  /\ (forall us,
        accepted us (db w) = true ->
        updateChapterOrder us w
        = (Ret true, withDatabase (applied us (db w)) w)).
Proof.
  split.
  - intros pre u post Hpre Hu. repeat split.
    + unfold updateChapterOrder.
      destruct (List.length (pre ++ u :: post) =? 0)%nat eqn:E.
      * apply Nat.eqb_eq in E. rewrite length_app in E. simpl in E. lia.
      * unfold try_catch, bind.
        now rewrite (runOrderUpdates_rejected pre post u w Hpre Hu).
    + intros p Hnd Hin Hex. now apply orderOf_applied_in.
    + intros i Hi. now apply orderOf_applied.
  - intros us Hus. unfold updateChapterOrder.
    destruct us as [|u us].
    + simpl. unfold ret. now rewrite withDatabase_same.
    + cbn [List.length Nat.eqb]. unfold try_catch, bind.
      now rewrite (runOrderUpdates_accepted (u :: us) w Hus).
Qed.

End WithEngine.

(** C3 on three chapters ordered 0, 1, 2: reversing them with an engine that
    raises on chapter 2 returns false, leaves chapter 1 at its new order 2
    and chapter 3 at its old order 2. *)
Lemma C3_batch_order_update_witness :
  let w := Fixtures.worldOf Fixtures.threeChapters in
  let r := updateChapterOrder (engine := Fixtures.rejectsChapter 2)
             [mkOrderUpdate 1 2; mkOrderUpdate 2 1; mkOrderUpdate 3 0] w in
  fst r = Ret false
  /\ orderOf 1 (db (snd r)) = Some 2%Z
  /\ orderOf 2 (db (snd r)) = Some 1%Z
  /\ orderOf 3 (db (snd r)) = Some 2%Z.
Proof.
  intros w r.
  destruct (C3_batch_order_update_not_atomic (engine := Fixtures.rejectsChapter 2) w)
    as [H _].
  destruct (H [mkOrderUpdate 1 2] (mkOrderUpdate 2 1) [mkOrderUpdate 3 0]
              eq_refl eq_refl) as (E & _ & _).
  subst r. cbn [app] in E. rewrite E.
  repeat split.
Defined.

(** *** Chapter creation *)

Section Create.
Context {engine : Engine}.

Lemma fold_max_ge {A : Type} (g : A -> Z) (l : list A) (m : Z) :
  (m <= fold_left (fun m x => Z.max m (g x)) l m)%Z
  /\ (forall x, In x l -> (g x <= fold_left (fun m x => Z.max m (g x)) l m)%Z).
Proof.
  revert m. induction l as [|a l IH]; intros m; simpl.
  - split; [lia | tauto].
  - destruct (IH (Z.max m (g a))) as [H1 H2]. split; [lia|].
    intros x [->|Hx]; [lia | now apply H2].
Qed.

Lemma fold_max_attained {A : Type} (g : A -> Z) (l : list A) (m : Z) :
  fold_left (fun m x => Z.max m (g x)) l m = m
  \/ exists x, In x l /\ fold_left (fun m x => Z.max m (g x)) l m = g x.
Proof.
  revert m. induction l as [|a l IH]; intros m; simpl; [now left|].
  destruct (IH (Z.max m (g a))) as [H|(x & Hx & H)].
  - rewrite H. destruct (Z.max_spec m (g a)) as [[_ ->]|[_ ->]].
    + right. exists a. split; [now left | reflexivity].
    + now left.
  - right. exists x. split; [now right | exact H].
Qed.

Lemma maxOrderOf_spec (l : list Chapter.t) (m : Z) :
  maxOrderOf l = Some m ->
  (exists s, In s l /\ Chapter.order s = m)
  /\ (forall s, In s l -> (Chapter.order s <= m)%Z).
Proof.
  destruct l as [|c l]; [discriminate|].
  simpl. intros [= <-].
  destruct (fold_max_ge Chapter.order l (Chapter.order c)) as [H1 H2].
  split.
  - destruct (fold_max_attained Chapter.order l (Chapter.order c))
      as [->|(x & Hx & ->)].
    + exists c. split; [now left | reflexivity].
    + exists x. split; [now right | reflexivity].
  - intros s [<-|Hs]; [exact H1 | now apply H2].
Qed.

Lemma maxOrderOf_none (l : list Chapter.t) : maxOrderOf l = None -> l = [].
Proof. now destruct l. Qed.

(** A fresh rowid names no stored chapter. *)
Lemma fresh_id_unused (d : database) :
  chapterOf (Z.max (sqlite_sequence_chapters d) (maxChapterId (chapters d)) + 1) d
  = None.
Proof.
  unfold chapterOf.
  destruct (find _ (chapters d)) as [c|] eqn:Hf; [|reflexivity].
  apply find_some in Hf as [Hin Hid]. apply Z.eqb_eq in Hid.
  destruct (fold_max_ge Chapter.id (chapters d) 0) as [_ H].
  specialize (H c Hin). unfold maxChapterId in Hid. lia.
Qed.

Lemma filter_none_of_find_none (i : Z) (l : list Chapter.t) :
  find (fun c => Z.eqb (Chapter.id c) i) l = None ->
  filter (fun c => Z.eqb (Chapter.id c) i) l = [].
Proof.
  induction l as [|c l IH]; simpl; [reflexivity|].
  destruct (Z.eqb (Chapter.id c) i); [discriminate | exact IH].
Qed.

(** The three ways [createChapter] can go. *)
Lemma createChapter_cases (w : world) (projectId : Z) (title description : jstring)
    (content : option jstring) :
  let s := InsertChapter projectId title description content
             (nextOrderOf projectId (db w)) in
  let id := (Z.max (sqlite_sequence_chapters (db w))
                   (maxChapterId (chapters (db w))) + 1)%Z in
  let now := CURRENT_TIMESTAMP (statements (db w)) in
  let row := Chapter.mk id projectId title description content
               (nextOrderOf projectId (db w)) now now in
  createChapter projectId title description content w
  = if get_fails (SelectMaxOrder projectId) (db w) then (Ret None, w)
    else if run_fails s (db w) then (Ret None, w)
    else if get_fails SelectLastInsertedChapter (exec s (db w))
         then (Ret None, withDatabase (exec s (db w)) w)
         else (Ret (Some row), withDatabase (exec s (db w)) w).
Proof.
  intros s id now row.
  unfold createChapter, try_catch, bind, getOne, bind, get, ret.
  destruct (get_fails (SelectMaxOrder projectId) (db w)); [reflexivity|].
  cbn [answer maxOrder].
  change (Js.plus (match maxOrderOf _ with Some m => m | None => (-1)%Z end) 1)
    with (nextOrderOf projectId (db w)).
  fold s. unfold run.
  destruct (run_fails s (db w)); [reflexivity|].
  cbn [db withDatabase].
  destruct (get_fails SelectLastInsertedChapter (exec s (db w))); [reflexivity|].
  subst s. cbn [answer exec chapters last_insert_rowid].
  rewrite filter_app.
  rewrite (filter_none_of_find_none _ _ (fresh_id_unused (db w))).
  cbn [filter app Chapter.id]. rewrite Z.eqb_refl. reflexivity.
Qed.

(** C5 (as worded, refuted). In a project whose only chapter has order
    2^53, the chapter created next gets order 2^53 again, not 2^53 + 1:
    the sum is computed on doubles, and 2^53 + 1 is not one. *)
Lemma C5_counterexample_order_past_safe_integers :
  ~ orderIsMaxPlusOne (engine := Fixtures.reliable)
      (Fixtures.worldOf Fixtures.largeOrder) 1.
Proof.
  intros H.
  specialize (H (lit "Two") (lit "more") None
                (Chapter.mk 2 1 (lit "Two") (lit "more") None (2 ^ 53)
                   (Fixtures.tick 0) (Fixtures.tick 0))
                (2 ^ 53)%Z eq_refl eq_refl).
  discriminate H.
Qed.

(** C5 (amended). Creating a chapter never throws and leaves every stored
    chapter as it was.  When it returns a chapter, that chapter is the one
    row added, it belongs to the project, and its order is 0 if the project
    had no chapter and otherwise the sum, as JavaScript computes it, of the
    greatest order in the project and 1.  When the orders of the project's
    chapters are safe integers that sum is exact: the new order is one more
    than the order of some chapter of the project and greater than the order
    of each of them, that is, their maximum plus 1.  An engine that raises
    on nothing makes it return a chapter. *)
Theorem C5_create_assigns_next_order (w : world) (projectId : Z)
    (title description : jstring) (content : option jstring) :
  let r := createChapter projectId title description content w in
  (exists v, fst r = Ret v)
  /\ (exists added, chapters (db (snd r)) = chapters (db w) ++ added)
  /\ (forall c,
        fst r = Ret (Some c) ->
        chapters (db (snd r)) = chapters (db w) ++ [c]
        /\ chapterOf (Chapter.id c) (db w) = None
        /\ Chapter.projectId c = projectId
        /\ (siblings projectId (db w) = [] -> Chapter.order c = 0%Z)
        /\ (forall m,
              maxOrderOf (siblings projectId (db w)) = Some m ->
              Chapter.order c = Js.plus m 1)
        /\ (siblings projectId (db w) <> [] ->
            safeOrders projectId (db w) ->
            (exists s, In s (siblings projectId (db w))
                       /\ Chapter.order c = (Chapter.order s + 1)%Z)
            /\ (forall s, In s (siblings projectId (db w)) ->
                          (Chapter.order s < Chapter.order c)%Z)))
  /\ ((forall T (q : query T) d, get_fails q d = false) ->
      (forall s d, run_fails s d = false) ->
      exists c, fst r = Ret (Some c)).
Proof.
  intros r. subst r. rewrite createChapter_cases.
  set (s := InsertChapter _ _ _ _ _).
  destruct (get_fails (SelectMaxOrder projectId) (db w)) eqn:G1;
    [|destruct (run_fails s (db w)) eqn:R;
      [|destruct (get_fails SelectLastInsertedChapter (exec s (db w))) eqn:G2]];
    cbn [fst snd db withDatabase].
  1,2: split; [eexists; reflexivity|];
       split; [exists []; now rewrite app_nil_r|];
       split; [discriminate|];
       intros Hg Hr; rewrite ?Hg, ?Hr in *; discriminate.
  - split; [eexists; reflexivity|].
    split; [eexists; subst s; cbn [exec chapters]; reflexivity|].
    split; [discriminate|].
    intros Hg Hr; rewrite Hg in G2; discriminate.
  - split; [eexists; reflexivity|].
    split; [eexists; subst s; cbn [exec chapters]; reflexivity|].
    split; [|intros _ _; eexists; reflexivity].
    intros c [= <-]. cbn [Chapter.id Chapter.projectId Chapter.order].
    split; [reflexivity|].
    split; [apply fresh_id_unused|].
    split; [reflexivity|].
    unfold nextOrderOf.
    destruct (maxOrderOf (siblings projectId (db w))) as [m|] eqn:Hm.
    + destruct (maxOrderOf_spec _ Hm) as [(x & Hx & Hxm) Hle].
      split; [intros He; rewrite He in Hx; destruct Hx|].
      split; [now intros ? [= <-]|].
      intros _ Hsafe.
      assert (Hm1 : Js.plus m 1 = (m + 1)%Z).
      { apply NumberFacts.plus_one_safe. rewrite <- Hxm.
        exact (proj1 (Forall_forall _ _) Hsafe x Hx). }
      rewrite Hm1. split.
      * exists x. split; [exact Hx | now rewrite Hxm].
      * intros y Hy. specialize (Hle y Hy). lia.
    + apply maxOrderOf_none in Hm. split; [reflexivity|].
      split; [discriminate|].
      intros Hne. now destruct Hne.
Qed.

End Create.

(** The amended C5 on the store with chapters ordered 0, 1, 2: the new
    chapter of project 1 gets order 3 and the three stored chapters are
    untouched. *)
Lemma C5_create_assigns_next_order_witness :
  let w := Fixtures.worldOf Fixtures.threeChapters in
  let r := createChapter (engine := Fixtures.reliable) 1 (lit "Four")
             (lit "more") None w in
  exists c,
    fst r = Ret (Some c)
    /\ chapters (db (snd r)) = chapters Fixtures.threeChapters ++ [c]
    /\ (forall s, In s (siblings 1 Fixtures.threeChapters) ->
                  (Chapter.order s < Chapter.order c)%Z).
Proof.
  intros w r.
  destruct (C5_create_assigns_next_order (engine := Fixtures.reliable) w 1
              (lit "Four") (lit "more") None) as (_ & _ & Hc & Hex).
  destruct Hex as [c Hr]; [reflexivity | reflexivity |].
  exists c. split; [exact Hr|].
  destruct (Hc c Hr) as (Hadd & _ & _ & _ & _ & Hne).
  split; [exact Hadd|].
  apply Hne; [vm_compute; discriminate|].
  repeat constructor.
Defined.

(** *** Updates without fields *)

Section EmptyUpdate.
Context {engine : Engine} {runtime : Runtime}.

Lemma head_filter_chapter (i : Z) (l : list Chapter.t) :
  match filter (fun c => Z.eqb (Chapter.id c) i) l with
  | r :: _ => Some r
  | [] => None
  end = find (fun c => Z.eqb (Chapter.id c) i) l.
Proof.
  induction l as [|c l IH]; simpl; [reflexivity|].
  destruct (Z.eqb (Chapter.id c) i); [reflexivity | exact IH].
Qed.

Lemma head_filter_project (i : Z) (l : list Project.t) :
  match filter (fun p => Z.eqb (Project.id p) i) l with
  | r :: _ => Some r
  | [] => None
  end = find (fun p => Z.eqb (Project.id p) i) l.
Proof.
  induction l as [|c l IH]; simpl; [reflexivity|].
  destruct (Z.eqb (Project.id c) i); [reflexivity | exact IH].
Qed.

Lemma getChapterById_spec (i : Z) (w : world) :
  getChapterById i w
  = (Ret (if get_fails (SelectChapterById i) (db w) then None
          else chapterOf i (db w)), w).
Proof.
  unfold getChapterById, try_catch, bind, getOne, bind, get, ret.
  destruct (get_fails (SelectChapterById i) (db w)); [reflexivity|].
  cbn [answer]. now rewrite head_filter_chapter.
Qed.

Lemma getProjectById_spec (i : Z) (w : world) :
  ProjectService.getProjectById i w
  = (Ret (if get_fails (SelectProjectById i) (db w) then None
          else projectOf i (db w)), w).
Proof.
  unfold ProjectService.getProjectById, try_catch, bind, getOne, bind, get, ret.
  destruct (get_fails (SelectProjectById i) (db w)); [reflexivity|].
  cbn [answer]. now rewrite head_filter_project.
Qed.

(** C6. An update with no field, of a chapter or of a project, sends no
    write statement: the world after the call is the world before it, so the
    stored entity and its updatedAt are untouched.  For an id that has a
    stored entity the call returns that entity, when the engine answers the
    lookup. *)
Theorem C6_update_without_fields (w : world) (i : Z) :
  snd (updateChapter i ChapterService.noUpdates w) = w
  /\ (forall c,
        chapterOf i (db w) = Some c ->
        get_fails (SelectChapterById i) (db w) = false ->
        updateChapter i ChapterService.noUpdates w = (Ret (Some c), w))
  /\ snd (ProjectService.updateProject i ProjectService.noUpdates w) = w
  /\ (forall p,
        projectOf i (db w) = Some p ->
        get_fails (SelectProjectById i) (db w) = false ->
        ProjectService.updateProject i ProjectService.noUpdates w
        = (Ret (Some p), w)).
Proof.
  unfold updateChapter, ProjectService.updateProject.
  cbn [fieldsToUpdate ProjectService.fieldsToUpdate ChapterService.noUpdates
       ProjectService.noUpdates ChapterService.title ChapterService.description
       ChapterService.content ChapterService.order ProjectService.name
       ProjectService.description ProjectService.parameters app List.length
       Nat.eqb].
  rewrite getChapterById_spec, getProjectById_spec.
  repeat split.
  - intros c Hc Hg. now rewrite Hg, Hc.
  - intros p Hp Hg. now rewrite Hg, Hp.
Qed.

(** An update that names a field does write: the trigger stamps updatedAt. *)
Lemma update_with_field_touches (w : world) (i : Z) (v : jstring) (c : Chapter.t) :
  chapterOf i (db w) = Some c ->
  run_fails (UpdateChapter [SetTitle v] i) (db w) = false ->
  option_map Chapter.updatedAt
    (chapterOf i (db (snd (updateChapter i
       (ChapterService.mkUpdates (Some v) None None None) w))))
  = Some (CURRENT_TIMESTAMP (statements (db w))).
Proof.
  intros Hc Hr. unfold updateChapter.
  cbn [fieldsToUpdate ChapterService.title ChapterService.description
       ChapterService.content ChapterService.order app List.length Nat.eqb].
  unfold try_catch, bind. rewrite (run_accepted _ _ Hr).
  rewrite getChapterById_spec. cbn [snd db withDatabase].
  unfold chapterOf in *. cbn [exec chapters].
  rewrite find_map_id by (intros; apply updateChapterRow_id).
  rewrite Hc. cbn [option_map]. apply find_some in Hc as [_ Hi].
  unfold updateChapterRow. rewrite Hi. reflexivity.
Qed.

End EmptyUpdate.

(** C6 on chapter 2 and project 1 of the three-chapter store. *)
Lemma C6_update_without_fields_witness :
  let w := Fixtures.worldOf Fixtures.threeChapters in
  updateChapter (engine := Fixtures.reliable) 2 ChapterService.noUpdates w
  = (Ret (Some (Fixtures.chapterRow 2 1 "Two")), w).
Proof.
  intros w.
  destruct (C6_update_without_fields (engine := Fixtures.reliable)
              (runtime := Fixtures.plainRuntime) w 2) as (_ & H & _).
  apply H; reflexivity.
Defined.

End StoreFacts.

Module ProviderFacts.
Import Js Async Async.Notations Wire World Providers.

Section WithNetwork.
Context {network : Network}.

(** *** Chat completion *)

Lemma chatCompletionVia_cases (getClient : ProviderConfig -> outcome Client)
    (messages : list Message) (config : ProviderConfig) (w : world) :
  chatCompletionVia getClient messages config w
  = match getClient config with
    | Throw _ => (Ret None, w)
    | Ret c =>
        let w' := sent (ChatCreate c messages (Wire.model config)) w in
        match chat_completions_create (requests w) c messages (Wire.model config) with
        | Throw _ => (Ret None, w')
        | Ret completion =>
            match firstContent completion with
            | Throw _ => (Ret None, w')
            | Ret r => (Ret (if truthy r then r else None), w')
            end
        end
    end.
Proof.
  unfold chatCompletionVia, try_catch, bind, lift, chatCreate, ret.
  destruct (getClient config) as [c|e]; [|reflexivity].
  destruct (chat_completions_create _ _ _ _) as [completion|e]; [|reflexivity].
  destruct (firstContent completion) as [r|e]; [|reflexivity].
  now destruct (truthy r).
Qed.

Lemma chatCompletionVia_nonempty (getClient : ProviderConfig -> outcome Client)
    (messages : list Message) (config : ProviderConfig) (w : world) :
  exists r,
    fst (chatCompletionVia getClient messages config w) = Ret r
    /\ r <> Some [].
Proof.
  rewrite chatCompletionVia_cases.
  destruct (getClient config) as [c|e]; [|now exists None].
  cbv zeta.
  destruct (chat_completions_create _ _ _ _) as [completion|e]; [|now exists None].
  destruct (firstContent completion) as [r|e]; [|now exists None].
  destruct r as [[|x s]|]; simpl.
  - now exists None.
  - now exists (Some (x :: s)).
  - now exists None.
Qed.

Lemma chatCompletionVia_no_content (getClient : ProviderConfig -> outcome Client)
    (messages : list Message) (config : ProviderConfig) (w : world) :
  (forall c, exists completion,
      chat_completions_create (requests w) c messages (Wire.model config)
      = Ret completion
      /\ (firstContent completion = Ret None
          \/ firstContent completion = Ret (Some []))) ->
  fst (chatCompletionVia getClient messages config w) = Ret None.
Proof.
  intros H. rewrite chatCompletionVia_cases.
  destruct (getClient config) as [c|e]; [|reflexivity].
  destruct (H c) as (completion & -> & [-> | ->]); reflexivity.
Qed.

(** C10. For each of the three providers, every message list, config and
    world: getChatCompletion returns (it does not throw) and what it returns
    is never the empty string; when the first completion the backend gives
    has its text missing or empty, it returns null. *)
Theorem C10_completion_never_empty (provider : LlmProvider)
    (messages : list Message) (config : ProviderConfig) (w : world) :
  In provider [OpenAI.openaiProvider; Ollama.ollamaProvider;
               LMStudio.lmstudioProvider] ->
  (exists r,
      fst (getChatCompletion provider messages config w) = Ret r
      /\ r <> Some [])
  /\ ((forall c, exists completion,
         chat_completions_create (requests w) c messages (Wire.model config)
         = Ret completion
         /\ (firstContent completion = Ret None
             \/ firstContent completion = Ret (Some []))) ->
      fst (getChatCompletion provider messages config w) = Ret None).
Proof.
  intros [<-|[<-|[<-|[]]]]; split;
    first [ apply chatCompletionVia_nonempty
          | apply chatCompletionVia_no_content ].
Qed.

(** *** Model listing of the native-discovery provider *)

Lemma nativeList_cases (config : ProviderConfig) (w : world) :
  let url := Ollama.tagsUrl (toStr (Wire.baseUrl config)) in
  let w1 := sent (Fetch url) w in
  Ollama.nativeList config w
  = match fetch (requests w) url with
    | Throw e => (Throw e, w1)
    | Ret response =>
        if negb (ok response) then (Throw (Error "HTTP error!"), w1)
        else match body response with
             | Throw e => (Throw e, w1)
             | Ret data =>
                 match tagNames data with
                 | Throw e => (Throw e, w1)
                 | Ret names => (Ret (Some names), w1)
                 end
             end
    end.
Proof.
  unfold Ollama.nativeList, bind, doFetch, lift, throw, ret.
  destruct (fetch _ _) as [response|e]; [|reflexivity].
  destruct (ok response); cbn [negb]; [|reflexivity].
  destruct (body response) as [data|e]; [|reflexivity].
  now destruct (tagNames data).
Qed.

Lemma fallbackList_cases (config : ProviderConfig) (w : world) :
  Ollama.fallbackList config w
  = match Ollama.getClient config with
    | Throw _ => (Ret None, w)
    | Ret c =>
        (Ret (ProviderSpec.genericResult (requests w) c), sent (ModelsList c) w)
    end.
Proof.
  unfold Ollama.fallbackList, try_catch, bind, lift, modelsList, ret,
    ProviderSpec.genericResult.
  destruct (Ollama.getClient config) as [c|e]; [|reflexivity].
  now destruct (models_list _ _).
Qed.

Lemma nativeList_failure (config : ProviderConfig) (w : world) :
  let url := Ollama.tagsUrl (toStr (Wire.baseUrl config)) in
  ProviderSpec.nativeFailure url (requests w) ->
  exists e, Ollama.nativeList config w = (Throw e, sent (Fetch url) w).
Proof.
  intros url H. rewrite nativeList_cases. fold url.
  destruct H as [e H|r H Hok|r e H Hok Hb|r data e H Hok Hb Ht]; rewrite H.
  - now exists e.
  - rewrite Hok. now eexists.
  - rewrite Hok, Hb. now exists e.
  - rewrite Hok, Hb, Ht. now exists e.
Qed.

(** C9. The native-discovery provider's listModels never throws.  Given a
    base URL it first requests the native listing endpoint.  If that
    attempt fails (the request fails, the status is not a success, the
    body does not decode, or its models cannot be read) it then makes the
    generic listing call and returns that call's sorted ids, or null when
    the generic call fails too.  If the native attempt succeeds it returns
    the native names and makes no generic call.  Without a base URL it
    returns null and sends nothing. *)
Theorem C9_native_first_then_generic (config : ProviderConfig) (w : world) :
  let url := Ollama.tagsUrl (toStr (Wire.baseUrl config)) in
  let w1 := sent (Fetch url) w in
  (exists r, fst (Ollama.listModels config w) = Ret r)
  /\ (truthy (Wire.baseUrl config) = false ->
      Ollama.listModels config w = (Ret None, w))
  /\ (truthy (Wire.baseUrl config) = true ->
      exists client,
        Ollama.getClient config = Ret client
        /\ (ProviderSpec.nativeFailure url (requests w) ->
            Ollama.listModels config w
            = (Ret (ProviderSpec.genericResult (requests w1) client),
               sent (ModelsList client) w1))
        /\ (ProviderSpec.nativeFailure url (requests w) ->
            (exists e, models_list (requests w1) client = Throw e) ->
            fst (Ollama.listModels config w) = Ret None)
        /\ (forall response data names,
              fetch (requests w) url = Ret response ->
              ok response = true ->
              body response = Ret data ->
              tagNames data = Ret names ->
              Ollama.listModels config w = (Ret (Some names), w1))).
Proof.
  intros url w1.
  assert (Hfail : truthy (Wire.baseUrl config) = true ->
                  forall client, Ollama.getClient config = Ret client ->
                  ProviderSpec.nativeFailure url (requests w) ->
                  Ollama.listModels config w
                  = (Ret (ProviderSpec.genericResult (requests w1) client),
                     sent (ModelsList client) w1)).
  { intros Hb client Hc Hn. unfold Ollama.listModels. rewrite Hb. cbn [negb].
    unfold try_catch.
    destruct (nativeList_failure config w Hn) as [e ->].
    rewrite fallbackList_cases, Hc. reflexivity. }
  split; [|split].
  - unfold Ollama.listModels.
    destruct (truthy (Wire.baseUrl config)) eqn:Hb; cbn [negb];
      [|now exists None].
    unfold try_catch. rewrite nativeList_cases. fold url. fold w1.
    assert (Hfb : exists r, fst (Ollama.fallbackList config w1) = Ret r).
    { rewrite fallbackList_cases.
      destruct (Ollama.getClient config); now eexists. }
    destruct (fetch _ _) as [response|e]; [|exact Hfb].
    destruct (negb (ok response)); [exact Hfb|].
    destruct (body response) as [data|e]; [|exact Hfb].
    destruct (tagNames data) as [names|e]; [now eexists | exact Hfb].
  - intros Hb. unfold Ollama.listModels. now rewrite Hb.
  - intros Hb.
    assert (Hc : exists client, Ollama.getClient config = Ret client).
    { unfold Ollama.getClient. rewrite Hb. now eexists. }
    destruct Hc as [client Hc]. exists client.
    split; [exact Hc|]. split; [now apply Hfail|]. split.
    + intros Hn [e He]. rewrite (Hfail Hb client Hc Hn).
      unfold ProviderSpec.genericResult. now rewrite He.
    + intros response data names Hf Hok Hbody Ht.
      unfold Ollama.listModels. rewrite Hb. cbn [negb].
      unfold try_catch. rewrite nativeList_cases. fold url. fold w1.
      now rewrite Hf, Hok, Hbody, Ht.
Qed.

(** A body that decodes but has no [models] is not a failure: the native
    attempt answers with the empty list. *)
Lemma tagNames_without_models : tagNames (JObject []) = Ret [].
Proof. reflexivity. Qed.

End WithNetwork.

(** C9 against a backend whose native endpoint answers 503 and whose
    generic listing serves one model. *)
Lemma C9_native_first_then_generic_witness :
  let config := mkConfig None (Some (lit "http://localhost:11434")) (lit "llama3") in
  let w := Fixtures.worldOf Fixtures.oneChapter in
  let r := Ollama.listModels (network := ProviderFixtures.nativeDown) config w in
  fst r = Ret (Some [Some (JString (lit "llama3"))])
  /\ requests (snd r)
     = [Fetch (lit "http://localhost:11434/api/tags");
        ModelsList (mkClient (lit "ollama") (Some (lit "http://localhost:11434/v1")))].
Proof.
  intros config w r.
  destruct (C9_native_first_then_generic
              (network := ProviderFixtures.nativeDown) config w)
    as (_ & _ & H).
  destruct (H eq_refl) as (client & Hc & Hfail & _).
  injection Hc as <-.
  subst r. rewrite Hfail.
  - split; reflexivity.
  - eapply ProviderSpec.BadStatus; reflexivity.
Defined.

(** C10 at the Ollama provider, against a backend whose completion carries
    the empty string. *)
Lemma C10_completion_never_empty_witness :
  fst (getChatCompletion
         (Ollama.ollamaProvider (network := ProviderFixtures.emptyCompletions))
         [mkMessage (lit "user") (lit "Hello")]
         (mkConfig None (Some (lit "http://localhost:11434")) (lit "llama3"))
         (Fixtures.worldOf Fixtures.oneChapter))
  = Ret None.
Proof.
  apply (C10_completion_never_empty (network := ProviderFixtures.emptyCompletions)).
  - right; left; reflexivity.
  - intros c. eexists. split; [reflexivity | right; reflexivity].
Defined.

End ProviderFacts.

Module LlmFacts.
Import Js Async Async.Notations Wire World Providers LlmService.

(** *** Connection test *)

Section Dispatcher.
Context {registry : Registry}.

(** C7. When the resolved provider has no testConnection (or there is no
    provider), the dispatcher's testConnection returns true exactly when its
    listModels returns a list, the empty list included, and false when
    listModels returns null; it does nothing beyond that listModels call. *)
Theorem C7_test_connection_fallback (w : world) :
  testConnectionOf (getActiveProvider (settings w)) = None ->
  (exists b,
      fst (testConnection w) = Ret b
      /\ (b = true <-> exists models, fst (listModels w) = Ret (Some models)))
  /\ (fst (listModels w) = Ret (Some []) -> fst (testConnection w) = Ret true)
  /\ (fst (listModels w) = Ret None -> fst (testConnection w) = Ret false)
  /\ snd (testConnection w) = snd (listModels w).
Proof.
  intros Hnone.
  assert (E : testConnection w
              = (Ret (match fst (listModels w) with
                      | Ret (Some _) => true
                      | _ => false
                      end), snd (listModels w))).
  { unfold testConnection, bind at 1, loadLlmSettings at 1.
    rewrite Hnone. unfold try_catch, bind, ret.
    now destruct (listModels w) as [[[l|]|e] w']. }
  rewrite E. cbn [fst snd].
  split; [|split; [|split]].
  - eexists. split; [reflexivity|].
    destruct (fst (listModels w)) as [[l|]|e]; split; intros H;
      try discriminate; try (destruct H; discriminate).
    + now exists l.
    + reflexivity.
  - now intros ->.
  - now intros ->.
  - reflexivity.
Qed.

End Dispatcher.

(** C7 with a provider module that has no testConnection and lists no
    model: the connection test succeeds. *)
Lemma C7_test_connection_fallback_witness :
  fst (testConnection (registry := ProviderFixtures.bareRegistry)
         (Fixtures.worldOf Fixtures.oneChapter))
  = Ret true.
Proof.
  destruct (C7_test_connection_fallback
              (registry := ProviderFixtures.bareRegistry)
              (Fixtures.worldOf Fixtures.oneChapter) eq_refl)
    as (_ & H & _).
  apply H. reflexivity.
Defined.

(** *** Sequence generation *)

Section Workflow.
Context {engine : Db.Engine}.

(** Saving a response reports success whatever the store did: a rejected
    UPDATE is caught inside [updateChapter], which then returns null
    without throwing. *)
Lemma handleChapterContentResponse_true (response : jstring) (chapterId : Z)
    (w : world) :
  fst (handleChapterContentResponse response chapterId w) = Ret true.
Proof.
  unfold handleChapterContentResponse, try_catch, bind at 1.
  unfold ChapterService.updateChapter.
  cbn [ChapterService.fieldsToUpdate ChapterService.title
       ChapterService.description ChapterService.content ChapterService.order
       app List.length Nat.eqb].
  unfold try_catch, bind, DbService.run.
  destruct (Db.run_fails _ _); [reflexivity|].
  rewrite StoreFacts.getChapterById_spec. reflexivity.
Qed.

(** Whatever the engine rejects, a run whose every generation succeeds
    returns true: the result does not depend on the saves. *)
Lemma sequenceLoop_ignores_failed_saves {runtime : Runtime} {registry : Registry}
    (project : Project.t) (parameters : json) :
  parameters <> JNull ->
  (forall c ctx, exists prompt,
      generateChapterContentPrompt project c ctx = Ret prompt) ->
  (forall prompt w, exists text,
      fst (processLLMPrompt prompt w) = Ret (Some text) /\ text <> []) ->
  forall n i allChapters w,
    fst (sequenceLoop project parameters n i allChapters true w) = Ret true.
Proof.
  intros Hp Hprompt Hgen.
  induction n as [|n IH]; intros i allChapters w; [reflexivity|].
  cbn [sequenceLoop].
  destruct (nth_error allChapters i) as [currentChapter|]; [|reflexivity].
  unfold bind at 1, lift at 1.
  assert (Hprop : propOf (lit "continueNarrative") parameters
                  = Ret (getProp (lit "continueNarrative") parameters))
    by (destruct parameters; try reflexivity; now destruct Hp).
  rewrite Hprop.
  match goal with
  | |- context [generateChapterContentPrompt project currentChapter ?ctx] =>
      destruct (Hprompt currentChapter ctx) as [prompt ->]
  end.
  unfold bind at 1, lift at 1. unfold bind at 1.
  destruct (Hgen prompt w) as (text & Hr & Hne).
  destruct (processLLMPrompt prompt w) as [r w'] eqn:E.
  cbn [fst] in Hr. subst r.
  destruct text as [|x text]; [now destruct Hne|].
  cbn [truthy toStr]. unfold bind at 1.
  pose proof (handleChapterContentResponse_true (x :: text)
                (Chapter.id currentChapter) w') as Hs.
  destruct (handleChapterContentResponse _ _ w') as [b w''].
  cbn [fst] in Hs. subst b. cbn [negb]. apply IH.
Qed.

End Workflow.

(** C4 (the code at the failing input). One chapter, a backend that
    completes the prompt, an engine that raises on the UPDATE that would
    save the content: the workflow returns true although the chapter's
    content is still absent from the store. *)
Theorem C4_unsaved_step_reported_as_success :
  let w := Fixtures.worldOf Fixtures.oneChapter in
  let r := generateChapterSequenceContent
             (engine := Fixtures.rejectsChapterUpdates)
             (runtime := Fixtures.plainRuntime)
             (registry := sourceRegistry (network := ProviderFixtures.storyteller))
             1 1 w in
  fst r = Ret true
  /\ option_map Chapter.content (StoreSpec.chapterOf 1 (db (snd r))) = Some None.
Proof. vm_compute. split; reflexivity. Qed.

(** The specification's scenario: three chapters, start at chapter 2, the
    backend fails for chapter 2 and succeeds for chapter 3.  Chapter 3's
    content is stored, chapter 2's is not, the result is false. *)
Example sequence_continues_after_failed_generation :
  let w := Fixtures.worldOf Fixtures.threeChapters in
  let r := generateChapterSequenceContent
             (engine := Fixtures.reliable)
             (runtime := Fixtures.plainRuntime)
             (registry := sourceRegistry
                            (network := ProviderFixtures.failsOn (lit "Two")))
             1 2 w in
  fst r = Ret false
  /\ option_map Chapter.content (StoreSpec.chapterOf 2 (db (snd r))) = Some None
  /\ option_map Chapter.content (StoreSpec.chapterOf 3 (db (snd r)))
     = Some (Some (lit "Once upon a time")).
Proof. vm_compute. repeat split; reflexivity. Qed.

End LlmFacts.

(* ================================================================== *)
(** * Further properties of the services *)

Module ListingFacts.
Import Js Async Async.Notations Db World DbService ChapterService StoreSpec
       ExtraSpec.

Lemma insertByOrder_perm (c : Chapter.t) (l : list Chapter.t) :
  Permutation (insertByOrder c l) (c :: l).
Proof.
  induction l as [|x l IH]; simpl; [apply Permutation_refl|].
  destruct (Chapter.order c <=? Chapter.order x)%Z; [apply Permutation_refl|].
  eapply perm_trans; [apply perm_skip, IH | apply perm_swap].
Qed.

Lemma orderByOrder_perm (l : list Chapter.t) : Permutation (orderByOrder l) l.
Proof.
  unfold orderByOrder.
  induction l as [|x l IH]; simpl; [apply perm_nil|].
  eapply perm_trans; [apply insertByOrder_perm | now apply perm_skip].
Qed.

Lemma insertByOrder_sorted (c : Chapter.t) (l : list Chapter.t) :
  StronglySorted byOrder l -> StronglySorted byOrder (insertByOrder c l).
Proof.
  induction 1 as [|x l Hl IH Hx]; simpl.
  - constructor; [constructor | constructor].
  - destruct (Chapter.order c <=? Chapter.order x)%Z eqn:E.
    + apply Z.leb_le in E. constructor.
      * now constructor.
      * constructor; [exact E|].
        eapply Forall_impl; [|exact Hx]. unfold byOrder. intros; lia.
    + apply Z.leb_gt in E. constructor; [exact IH|].
      eapply Permutation_Forall;
        [apply Permutation_sym, insertByOrder_perm|].
      constructor; [unfold byOrder; lia | exact Hx].
Qed.

Lemma orderByOrder_sorted (l : list Chapter.t) :
  StronglySorted byOrder (orderByOrder l).
Proof.
  unfold orderByOrder.
  induction l as [|x l IH]; simpl; [constructor|].
  now apply insertByOrder_sorted.
Qed.

Section WithEngine.
Context {engine : Engine}.

Lemma getChaptersByProjectId_spec (projectId : Z) (w : world) :
  getChaptersByProjectId projectId w
  = (Ret (if get_fails (SelectChaptersByProject projectId) (db w) then []
          else orderByOrder (siblings projectId (db w))), w).
Proof.
  unfold getChaptersByProjectId, try_catch, bind, get, ret.
  now destruct (get_fails _ _).
Qed.

(** X1. Listing a project's chapters changes nothing and never throws.
    When the engine answers, the list holds exactly the stored chapters of
    that project, each once, in ascending order; when it raises, the list
    is empty. *)
Theorem X1_chapter_listing_sorted (projectId : Z) (w : world) :
  exists l,
    getChaptersByProjectId projectId w = (Ret l, w)
    /\ (get_fails (SelectChaptersByProject projectId) (db w) = false ->
        Permutation l (siblings projectId (db w))
        /\ StronglySorted byOrder l)
    /\ (get_fails (SelectChaptersByProject projectId) (db w) = true -> l = []).
Proof.
  rewrite getChaptersByProjectId_spec. eexists. split; [reflexivity|].
  split; intros ->.
  - split; [apply orderByOrder_perm | apply orderByOrder_sorted].
  - reflexivity.
Qed.

End WithEngine.

(** X1 on a store whose chapters are kept out of order. *)
Lemma X1_chapter_listing_sorted_witness :
  let d := mkDb [Fixtures.book]
             [Fixtures.chapterRow 1 2 "C"; Fixtures.chapterRow 2 0 "A";
              Fixtures.chapterRow 3 1 "B"] 3 3 0 in
  exists l,
    getChaptersByProjectId (engine := Fixtures.reliable) 1 (Fixtures.worldOf d)
    = (Ret l, Fixtures.worldOf d)
    /\ StronglySorted byOrder l.
Proof.
  intros d.
  destruct (X1_chapter_listing_sorted (engine := Fixtures.reliable) 1
              (Fixtures.worldOf d)) as (l & E & H & _).
  exists l. split; [exact E|]. now apply H.
Defined.

End ListingFacts.

Module DeletionFacts.
Import Js Async Async.Notations Db World DbService ChapterService StoreSpec
       Deletion ExtraSpec.

Lemma find_filter_other (i id : Z) (l : list Chapter.t) :
  i <> id ->
  find (fun c => Z.eqb (Chapter.id c) i)
       (filter (fun c => negb (Z.eqb (Chapter.id c) id)) l)
  = find (fun c => Z.eqb (Chapter.id c) i) l.
Proof.
  intros Hne. induction l as [|c l IH]; simpl; [reflexivity|].
  destruct (Z.eqb (Chapter.id c) id) eqn:E; simpl.
  - apply Z.eqb_eq in E.
    destruct (Z.eqb (Chapter.id c) i) eqn:E'; [|exact IH].
    apply Z.eqb_eq in E'. congruence.
  - destruct (Z.eqb (Chapter.id c) i); [reflexivity | exact IH].
Qed.

Lemma find_filter_same (id : Z) (l : list Chapter.t) :
  find (fun c => Z.eqb (Chapter.id c) id)
       (filter (fun c => negb (Z.eqb (Chapter.id c) id)) l) = None.
Proof.
  induction l as [|c l IH]; simpl; [reflexivity|].
  destruct (Z.eqb (Chapter.id c) id) eqn:E; simpl; [exact IH|].
  now rewrite E.
Qed.

Lemma filter_absent (id : Z) (l : list Chapter.t) :
  find (fun c => Z.eqb (Chapter.id c) id) l = None ->
  filter (fun c => negb (Z.eqb (Chapter.id c) id)) l = l.
Proof.
  induction l as [|c l IH]; simpl; [reflexivity|].
  destruct (Z.eqb (Chapter.id c) id); [discriminate|].
  intros H. simpl. now rewrite IH.
Qed.

Section WithEngine.
Context {deleteEngine : DeleteEngine}.

Lemma deleteChapter_spec (id : Z) (w : world) :
  deleteChapter id w
  = if delete_fails id (db w) then (Ret false, w)
    else (Ret true, withDatabase (execDelete id (db w)) w).
Proof.
  unfold deleteChapter, try_catch, bind, runDelete, ret.
  now destruct (delete_fails id (db w)).
Qed.

(** X2. Deleting a chapter never throws.  If the engine raises, the result
    is false and nothing changed.  Otherwise the result is true, no chapter
    has that id any more, every other chapter is stored exactly as before
    (no order is renumbered), the projects are untouched, and deleting an
    id that names no chapter leaves the table as it was. *)
Theorem X2_delete_chapter (id : Z) (w : world) :
  (delete_fails id (db w) = true -> deleteChapter id w = (Ret false, w))
  /\ (delete_fails id (db w) = false ->
      exists w',
        deleteChapter id w = (Ret true, w')
        /\ chapterOf id (db w') = None
        /\ (forall i, i <> id -> chapterOf i (db w') = chapterOf i (db w))
        /\ (chapterOf id (db w) = None -> chapters (db w') = chapters (db w))
        /\ projects (db w') = projects (db w)).
Proof.
  rewrite deleteChapter_spec. split; intros ->; [reflexivity|].
  eexists. split; [reflexivity|].
  unfold chapterOf. cbn [db withDatabase execDelete chapters projects].
  repeat split.
  - apply find_filter_same.
  - intros i Hi. now apply find_filter_other.
  - apply filter_absent.
Qed.

End WithEngine.

(** X2 on the three-chapter store: after chapter 2 is deleted, chapters 1
    and 3 keep their orders 0 and 2. *)
Lemma X2_delete_chapter_witness :
  let engine := {| delete_fails := fun _ _ => false |} in
  let r := deleteChapter (deleteEngine := engine) 2
             (Fixtures.worldOf Fixtures.threeChapters) in
  fst r = Ret true
  /\ orderOf 1 (db (snd r)) = Some 0%Z
  /\ orderOf 2 (db (snd r)) = None
  /\ orderOf 3 (db (snd r)) = Some 2%Z.
Proof.
  intros engine r.
  destruct (X2_delete_chapter (deleteEngine := engine) 2
              (Fixtures.worldOf Fixtures.threeChapters)) as [_ H].
  destruct (H eq_refl) as (w' & E & Hgone & Hother & _).
  subst r. rewrite E. cbn [fst snd]. unfold orderOf.
  rewrite Hgone, (Hother 1%Z), (Hother 3%Z) by discriminate.
  repeat split.
Defined.

End DeletionFacts.

Module UpdateFacts.
Import Js Async Async.Notations Db World DbService ChapterService StoreSpec
       ExtraSpec.

Lemma find_map_other (g : Chapter.t -> Chapter.t) (j : Z) (l : list Chapter.t) :
  (forall c, Chapter.id (g c) = Chapter.id c) ->
  (forall c, Chapter.id c = j -> g c = c) ->
  find (fun c => Z.eqb (Chapter.id c) j) (List.map g l)
  = find (fun c => Z.eqb (Chapter.id c) j) l.
Proof.
  intros Hid Hg. rewrite StoreFacts.find_map_id by exact Hid.
  destruct (find _ l) as [c|] eqn:Hf; [|reflexivity].
  apply find_some in Hf as [_ Hc]. apply Z.eqb_eq in Hc.
  simpl. now rewrite Hg.
Qed.

Section WithEngine.
Context {engine : Engine}.

(** An UPDATE of chapter [i] leaves the chapters with another id alone. *)
Lemma chapterOf_update_other (sets : list chapterAssign) (i j : Z) (d : database) :
  j <> i ->
  chapterOf j (exec (UpdateChapter sets i) d) = chapterOf j d.
Proof.
  intros Hne. unfold chapterOf. cbn [exec chapters].
  apply find_map_other.
  - intros c. apply StoreFacts.updateChapterRow_id.
  - intros c Hc. unfold updateChapterRow.
    destruct (Z.eqb (Chapter.id c) i) eqn:E; [|reflexivity].
    apply Z.eqb_eq in E. congruence.
Qed.

(** X3. A chapter update that names at least one field, on a stored
    chapter: if the engine raises on the UPDATE the result is null and
    nothing changed; otherwise the stored chapter takes exactly the named
    fields, keeps every other field, has its updatedAt stamped, is what the
    call returns when the read-back is answered, and the chapters with
    another id are untouched. *)
Theorem X3_update_is_sparse (i : Z) (updates : ChapterUpdates) (c : Chapter.t)
    (w : world) :
  fieldsToUpdate updates <> [] ->
  chapterOf i (db w) = Some c ->
  let s := UpdateChapter (fieldsToUpdate updates) i in
  (run_fails s (db w) = true -> updateChapter i updates w = (Ret None, w))
  /\ (run_fails s (db w) = false ->
      exists c',
        chapterOf i (db (snd (updateChapter i updates w))) = Some c'
        /\ (get_fails (SelectChapterById i) (exec s (db w)) = false ->
            fst (updateChapter i updates w) = Ret (Some c'))
        /\ Chapter.title c'
           = match title updates with Some v => v | None => Chapter.title c end
        /\ Chapter.description c'
           = match description updates with
             | Some v => v | None => Chapter.description c end
        /\ Chapter.content c'
           = match content updates with
             | Some v => v | None => Chapter.content c end
        /\ Chapter.order c'
           = match order updates with Some v => v | None => Chapter.order c end
        /\ Chapter.id c' = Chapter.id c
        /\ Chapter.projectId c' = Chapter.projectId c
        /\ Chapter.createdAt c' = Chapter.createdAt c
        /\ Chapter.updatedAt c' = CURRENT_TIMESTAMP (statements (db w))
        /\ (forall j, j <> i ->
              chapterOf j (db (snd (updateChapter i updates w)))
              = chapterOf j (db w))).
Proof.
  intros Hne Hc s.
  assert (E : updateChapter i updates w
              = if run_fails s (db w) then (Ret None, w)
                else (Ret (if get_fails (SelectChapterById i) (exec s (db w))
                           then None else chapterOf i (exec s (db w))),
                      withDatabase (exec s (db w)) w)).
  { unfold updateChapter.
    destruct (fieldsToUpdate updates) as [|a sets] eqn:Ef; [now destruct Hne|].
    cbn [List.length Nat.eqb]. unfold try_catch, bind, run. fold s.
    destruct (run_fails s (db w)); [reflexivity|].
    now rewrite StoreFacts.getChapterById_spec. }
  rewrite E. split; intros ->; [reflexivity|].
  cbn [fst snd db withDatabase].
  pose proof Hc as Hc'. unfold chapterOf in Hc'.
  apply find_some in Hc' as [_ Hid]. 
  assert (Hrow : chapterOf i (exec s (db w))
                 = Some (touchChapter (CURRENT_TIMESTAMP (statements (db w)))
                           (fold_left applyChapterAssign (fieldsToUpdate updates) c))).
  { unfold chapterOf in *. subst s. cbn [exec chapters].
    rewrite StoreFacts.find_map_id by (intros; apply StoreFacts.updateChapterRow_id).
    rewrite Hc. cbn [option_map]. unfold updateChapterRow. now rewrite Hid. }
  eexists. split; [exact Hrow|].
  split; [intros ->; now rewrite Hrow|].
  split; [|split; [|split; [|split; [|split; [|split; [|split; [|split]]]]]]];
    try (destruct updates as [[t|] [ds|] [ct|] [o|]]; reflexivity).
  intros j Hj. subst s. now apply chapterOf_update_other.
Qed.

End WithEngine.

(** X3 on chapter 2 of the three-chapter store, given a new content only. *)
Lemma X3_update_is_sparse_witness :
  let w := Fixtures.worldOf Fixtures.threeChapters in
  let r := updateChapter (engine := Fixtures.reliable) 2
             (mkUpdates None None (Some (Some (lit "text"))) None) w in
  exists c',
    fst r = Ret (Some c')
    /\ Chapter.title c' = lit "Two"
    /\ Chapter.content c' = Some (lit "text")
    /\ Chapter.order c' = 1%Z.
Proof.
  intros w r.
  destruct (X3_update_is_sparse (engine := Fixtures.reliable) 2
              (mkUpdates None None (Some (Some (lit "text"))) None)
              (c := Fixtures.chapterRow 2 1 "Two") w) as [_ H].
  - discriminate.
  - reflexivity.
  - destruct (H eq_refl) as (c' & _ & Hr & Ht & _ & Hc & Ho & _).
    exists c'. repeat split; [now apply Hr | exact Ht | exact Hc | exact Ho].
Defined.

End UpdateFacts.

Module PlanFacts.
Import Js Async Async.Notations Parser Db World DbService StoreSpec
       PlanHandling ExtraSpec.

Lemma parse_nonempty_valid (response : jstring) (l : list PartialChapter) :
  parseEbookPlanResponse response = Some l ->
  l <> [] /\ Forall (fun c => isValid c = true) l.
Proof.
  unfold parseEbookPlanResponse.
  destruct (_ && _); [discriminate|].
  destruct (0 <? _)%nat eqn:E; [|discriminate].
  intros [= <-]. split.
  - intros H. rewrite H in E. discriminate E.
  - apply Forall_forall. intros c Hc. now apply filter_In in Hc.
Qed.

Lemma isValid_fields (c : PartialChapter) :
  isValid c = true ->
  exists t d, Parser.title c = Some t /\ Parser.description c = Some d /\ t <> [] /\ d <> [].
Proof.
  unfold isValid. intros H. apply andb_true_iff in H as [Ht Hd].
  destruct (Parser.title c) as [[|x t]|]; try discriminate.
  destruct (Parser.description c) as [[|y d]|]; try discriminate.
  exists (x :: t), (y :: d). repeat split; discriminate.
Qed.

Section WithEngine.
Context {engine : Engine}.

Lemma maxOrderOf_snoc (l : list Chapter.t) (r : Chapter.t) :
  maxOrderOf (l ++ [r])
  = Some (match maxOrderOf l with
          | Some m => Z.max m (Chapter.order r)
          | None => Chapter.order r
          end).
Proof.
  destruct l as [|c l]; simpl; [reflexivity|].
  now rewrite fold_left_app.
Qed.

Lemma siblings_insert (pid : Z) (t ds : jstring) (ct : option jstring) (o : Z)
    (d : database) :
  exists row,
    chapters (exec (InsertChapter pid t ds ct o) d) = chapters d ++ [row]
    /\ siblings pid (exec (InsertChapter pid t ds ct o) d)
       = siblings pid d ++ [row]
    /\ projects (exec (InsertChapter pid t ds ct o) d) = projects d
    /\ Chapter.projectId row = pid /\ Chapter.title row = t
    /\ Chapter.description row = ds /\ Chapter.content row = ct
    /\ Chapter.order row = o.
Proof.
  eexists. split; [reflexivity|].
  split; [|repeat split].
  unfold siblings. cbn [exec chapters]. rewrite filter_app.
  cbn [filter Chapter.projectId]. now rewrite Z.eqb_refl.
Qed.

(** With safe orders the next order is the exact maximum plus 1. *)
Lemma nextOrderOf_safe (pid : Z) (d : database) :
  safeOrders pid d ->
  nextOrderOf pid d
  = match maxOrderOf (siblings pid d) with
    | Some m => (m + 1)%Z
    | None => 0%Z
    end
  /\ (- 2 ^ 53 < nextOrderOf pid d)%Z.
Proof.
  intros Hsafe. unfold nextOrderOf.
  destruct (maxOrderOf (siblings pid d)) as [m|] eqn:Hm.
  - destruct (StoreFacts.maxOrderOf_spec _ Hm) as [(x & Hx & <-) _].
    pose proof (proj1 (Forall_forall _ _) Hsafe x Hx) as Hs. cbv beta in Hs.
    rewrite (NumberFacts.plus_one_safe _ Hs).
    apply NumberFacts.isSafeInteger_bounds in Hs. split; [reflexivity | lia].
  - split; reflexivity.
Qed.

(** After a chapter was created for a project whose orders, the new one
    included, are safe integers, the next order is one more. *)
Lemma nextOrderOf_insert (pid : Z) (t ds : jstring) (ct : option jstring)
    (d : database) :
  safeOrders pid d ->
  (nextOrderOf pid d < 2 ^ 53)%Z ->
  let d' := exec (InsertChapter pid t ds ct (nextOrderOf pid d)) d in
  nextOrderOf pid d' = (nextOrderOf pid d + 1)%Z /\ safeOrders pid d'.
Proof.
  intros Hsafe Hlt d'.
  destruct (nextOrderOf_safe Hsafe) as [Hz Hlow].
  destruct (siblings_insert pid t ds ct (nextOrderOf pid d) d)
    as (row & _ & Hs & _ & _ & _ & _ & _ & Ho).
  fold d' in Hs.
  assert (Hrow : Js.isSafeInteger (Chapter.order row) = true)
    by (rewrite Ho; apply NumberFacts.isSafeInteger_bounds; lia).
  assert (Hsafe' : safeOrders pid d').
  { unfold safeOrders. rewrite Hs. apply Forall_app. split; [exact Hsafe|].
    now constructor. }
  split; [|exact Hsafe'].
  destruct (nextOrderOf_safe Hsafe') as [-> _].
  rewrite Hs, maxOrderOf_snoc, Ho, Hz.
  destruct (maxOrderOf (siblings pid d)); lia.
Qed.

(** Creating the drafts never throws and only appends chapters. *)
Lemma createAll_appends (pid : Z) (l : list PartialChapter) (w : world) :
  exists d' added,
    createAll pid l w = (Ret tt, withDatabase d' w)
    /\ chapters d' = chapters (db w) ++ added
    /\ projects d' = projects (db w)
    /\ Forall (fun r => Chapter.projectId r = pid) added
    /\ (List.length added <= List.length l)%nat
    /\ ((forall s d, run_fails s d = true) -> added = []).
Proof.
  revert w. induction l as [|c l IH]; intros w.
  - exists (db w), []. cbn [createAll]. unfold ret.
    rewrite StoreFacts.withDatabase_same, app_nil_r.
    repeat split; [constructor | constructor].
  - cbn [createAll].
    assert (Hskip : exists d' added,
               createAll pid l w = (Ret tt, withDatabase d' w)
               /\ chapters d' = chapters (db w) ++ added
               /\ projects d' = projects (db w)
               /\ Forall (fun r => Chapter.projectId r = pid) added
               /\ (List.length added <= List.length (c :: l))%nat
               /\ ((forall s d, run_fails s d = true) -> added = [])).
    { destruct (IH w) as (d' & added & E & Hc & Hp & Hf & Hl & Hr).
      exists d', added. repeat split; try assumption. simpl. lia. }
    destruct (Parser.title c) as [t|]; [|exact Hskip].
    destruct (Parser.description c) as [ds|]; [|exact Hskip].
    unfold bind. rewrite StoreFacts.createChapter_cases.
    set (s := InsertChapter _ _ _ _ _).
    destruct (get_fails (SelectMaxOrder pid) (db w)); [exact Hskip|].
    destruct (run_fails s (db w)) eqn:Hrun; [exact Hskip|].
    destruct (siblings_insert pid t ds (Parser.content c) (nextOrderOf pid (db w)) (db w))
      as (row & Hch & _ & Hpr & Hpid & _).
    fold s in Hch, Hpr.
    assert (Hgo : exists d' added,
               createAll pid l (withDatabase (exec s (db w)) w)
               = (Ret tt, withDatabase d' w)
               /\ chapters d' = chapters (db w) ++ added
               /\ projects d' = projects (db w)
               /\ Forall (fun r => Chapter.projectId r = pid) added
               /\ (List.length added <= List.length (c :: l))%nat
               /\ ((forall s d, run_fails s d = true) -> added = [])).
    { destruct (IH (withDatabase (exec s (db w)) w))
        as (d' & added & E & Hc & Hp & Hf & Hl & Hr).
      cbn [db withDatabase] in Hc, Hp.
      exists d', (row :: added). repeat split.
      - exact E.
      - rewrite Hc, Hch, <- app_assoc. reflexivity.
      - now rewrite Hp.
      - now constructor.
      - simpl. lia.
      - intros Hall. rewrite Hall in Hrun. discriminate. }
    destruct (get_fails SelectLastInsertedChapter (exec s (db w))); exact Hgo.
Qed.

(** X4. Handling a plan response never throws and returns true exactly
    when the parser returns drafts, whatever the store does with them: a
    response the parser rejects changes nothing; otherwise chapters are only
    appended, all to the given project and at most one per draft, and an
    engine that raises on every write leaves the table as it was while the
    result is still true. *)
Theorem X4_plan_handling_reports_parse (response : jstring) (projectId : Z)
    (w : world) :
  (parseEbookPlanResponse response = None ->
   handleEbookPlanResponse response projectId w = (Ret false, w))
  /\ (forall drafts,
        parseEbookPlanResponse response = Some drafts ->
        exists w' added,
          handleEbookPlanResponse response projectId w = (Ret true, w')
          /\ chapters (db w') = chapters (db w) ++ added
          /\ projects (db w') = projects (db w)
          /\ Forall (fun r => Chapter.projectId r = projectId) added
          /\ (List.length added <= List.length drafts)%nat
          /\ ((forall s d, run_fails s d = true) -> added = [])).
Proof.
  unfold handleEbookPlanResponse. split.
  - intros ->. reflexivity.
  - intros drafts Hp. rewrite Hp.
    destruct (parse_nonempty_valid _ Hp) as [Hne _].
    destruct drafts as [|c l]; [now destruct Hne|].
    cbn [List.length Nat.eqb]. unfold try_catch, bind.
    destruct (createAll_appends projectId (c :: l) w)
      as (d' & added & -> & Hc & Hpr & Hf & Hl & Hr).
    exists (withDatabase d' w), added. now repeat split.
Qed.

Lemma consecutiveFrom_S (z : Z) (n : nat) :
  consecutiveFrom z (S n) = z :: consecutiveFrom (z + 1) n.
Proof.
  unfold consecutiveFrom. cbn [seq List.map]. f_equal; [lia|].
  rewrite <- seq_shift, map_map. apply map_ext. intros k. lia.
Qed.

Lemma createAll_accepting (pid : Z) (l : list PartialChapter) (w : world) :
  accepting ->
  Forall (fun c => isValid c = true) l ->
  safeOrders pid (db w) ->
  (nextOrderOf pid (db w) + Z.of_nat (List.length l) <= 2 ^ 53)%Z ->
  exists d' added,
    createAll pid l w = (Ret tt, withDatabase d' w)
    /\ Db.chapters d' = Db.chapters (db w) ++ added
    /\ List.map Chapter.title added = List.map (fun c => toStr (Parser.title c)) l
    /\ List.map Chapter.description added
       = List.map (fun c => toStr (Parser.description c)) l
    /\ List.map Chapter.content added = List.map Parser.content l
    /\ List.map Chapter.order added
       = consecutiveFrom (nextOrderOf pid (db w)) (List.length l).
Proof.
  intros [Hget Hrun] Hv. revert w.
  induction Hv as [|c l Hc Hv IH]; intros w Hsafe Hbound.
  - exists (db w), []. cbn [createAll]. unfold ret.
    rewrite StoreFacts.withDatabase_same, app_nil_r. repeat split.
  - destruct (isValid_fields _ Hc) as (t & ds & Ht & Hd & _ & _).
    cbn [createAll]. rewrite Ht, Hd.
    unfold bind. rewrite StoreFacts.createChapter_cases.
    set (s := InsertChapter _ _ _ _ _).
    rewrite !Hget, Hrun.
    destruct (siblings_insert pid t ds (Parser.content c)
                (nextOrderOf pid (db w)) (db w))
      as (row & Hch & _ & _ & _ & Hrt & Hrd & Hrc & Hro).
    fold s in Hch.
    cbn [List.length] in Hbound.
    destruct (@nextOrderOf_insert pid t ds (Parser.content c) (db w) Hsafe)
      as [Hnext Hsafe']; [lia|].
    fold s in Hnext, Hsafe'.
    destruct (IH (withDatabase (exec s (db w)) w))
      as (d' & added & E & Hadd & Hts & Hds & Hcs & Hos).
    + exact Hsafe'.
    + cbn [db withDatabase]. rewrite Hnext. lia.
    + cbn [db withDatabase] in Hadd, Hos.
      exists d', (row :: added). repeat split.
      * exact E.
      * rewrite Hadd, Hch, <- app_assoc. reflexivity.
      * cbn [List.map]. now rewrite Hrt, Hts, Ht.
      * cbn [List.map]. now rewrite Hrd, Hds, Hd.
      * cbn [List.map]. now rewrite Hrc, Hcs.
      * cbn [List.map List.length]. rewrite consecutiveFrom_S, Hro, Hos.
        now rewrite Hnext.
Qed.

(** X5. With an engine that raises on nothing, handling a plan response
    the parser accepts appends one chapter per returned draft, in draft
    order, with the draft's title, description and content, and with
    consecutive orders starting at the project's next order, provided the
    orders of the project's chapters and the orders to assign are safe
    integers, so that every sum is exact; the drafts' own order fields are
    not used. *)
Theorem X5_plan_chapters_created (response : jstring) (projectId : Z)
    (drafts : list PartialChapter) (w : world) :
  accepting ->
  parseEbookPlanResponse response = Some drafts ->
  safeOrders projectId (db w) ->
  (nextOrderOf projectId (db w) + Z.of_nat (List.length drafts) <= 2 ^ 53)%Z ->
  exists w' added,
    handleEbookPlanResponse response projectId w = (Ret true, w')
    /\ Db.chapters (db w') = Db.chapters (db w) ++ added
    /\ List.map Chapter.title added
       = List.map (fun c => toStr (Parser.title c)) drafts
    /\ List.map Chapter.description added
       = List.map (fun c => toStr (Parser.description c)) drafts
    /\ List.map Chapter.content added = List.map Parser.content drafts
    /\ List.map Chapter.order added
       = consecutiveFrom (nextOrderOf projectId (db w)) (List.length drafts)
    /\ (siblings projectId (db w) <> [] ->
        forall m, maxOrderOf (siblings projectId (db w)) = Some m ->
                  nextOrderOf projectId (db w) = (m + 1)%Z)
    /\ (siblings projectId (db w) = [] -> nextOrderOf projectId (db w) = 0%Z).
Proof.
  intros Hacc Hp Hsafe Hbound. unfold handleEbookPlanResponse. rewrite Hp.
  destruct (parse_nonempty_valid _ Hp) as [Hne Hv].
  destruct (@createAll_accepting projectId drafts w Hacc Hv Hsafe Hbound)
    as (d' & added & E & Hadd & Hts & Hds & Hcs & Hos).
  destruct drafts as [|c l]; [now destruct Hne|].
  cbn [List.length Nat.eqb]. unfold try_catch, bind. rewrite E.
  exists (withDatabase d' w), added.
  destruct (nextOrderOf_safe Hsafe) as [Hz _].
  repeat split; try assumption.
  - intros _ m Hm. now rewrite Hz, Hm.
  - intros He. now rewrite Hz, He.
Qed.

End WithEngine.

(** X5 on the plan whose first chapter is filtered out, in a project with
    chapters ordered 0, 1, 2: the one draft returned carries order 1, yet
    the chapter stored for it gets order 3. *)
Lemma X5_plan_chapters_created_witness :
  let r := handleEbookPlanResponse (engine := Fixtures.reliable)
             Examples.emptyDescriptionPlan 1
             (Fixtures.worldOf Fixtures.threeChapters) in
  fst r = Ret true
  /\ List.map Chapter.title (Db.chapters (db (snd r)))
     = [lit "One"; lit "Two"; lit "Three"; lit "B"]
  /\ List.map Chapter.order (Db.chapters (db (snd r))) = [0%Z; 1%Z; 2%Z; 3%Z].
Proof.
  intros r.
  destruct (@X5_plan_chapters_created Fixtures.reliable
              Examples.emptyDescriptionPlan 1%Z
              [mkPartial (Some (lit "B")) (Some (lit "x")) (Some []) (Some 1%Z)]
              (Fixtures.worldOf Fixtures.threeChapters))
    as (w' & added & E & Hadd & Hts & _ & _ & Hos & _ & _).
  - split; reflexivity.
  - vm_compute. reflexivity.
  - repeat constructor.
  - vm_compute. discriminate.
  - subst r. rewrite E. cbn [fst snd]. rewrite Hadd, !map_app, Hts, Hos.
    split; [reflexivity|]. split; reflexivity.
Defined.

(** X4 with an engine that raises on every write: the example plan is
    reported as handled although no chapter was stored. *)
Lemma X4_plan_handling_reports_parse_witness :
  let engine :=
    {| run_fails := fun _ _ => true;
       get_fails := fun _ _ _ => false;
       CURRENT_TIMESTAMP := Fixtures.tick |} in
  let w := Fixtures.worldOf Fixtures.oneChapter in
  let r := handleEbookPlanResponse (engine := engine) Examples.planExample 1 w in
  fst r = Ret true /\ chapters (db (snd r)) = chapters Fixtures.oneChapter.
Proof.
  intros engine w r.
  destruct (X4_plan_handling_reports_parse (engine := engine)
              Examples.planExample 1 w) as [_ H].
  assert (Hp : exists drafts,
             parseEbookPlanResponse Examples.planExample = Some drafts)
    by (vm_compute; eexists; reflexivity).
  destruct Hp as [drafts Hp].
  destruct (H _ Hp) as (w' & added & E & Hc & _ & _ & _ & Hnone).
  subst r. rewrite E. cbn [fst snd]. split; [reflexivity|].
  rewrite Hc, Hnone by reflexivity. apply app_nil_r.
Defined.

End PlanFacts.

Module RenumberFacts.
Import Js Async Async.Notations Db World DbService ChapterService StoreSpec
       Deletion ChapterManager ExtraSpec.

(** Two lists sorted on distinct keys that hold the same elements are the
    same list. *)
Lemma sorted_perm_unique {A : Type} (key : A -> Z) (l1 l2 : list A) :
  StronglySorted (fun a b => (key a <= key b)%Z) l1 ->
  StronglySorted (fun a b => (key a <= key b)%Z) l2 ->
  Permutation l1 l2 ->
  NoDup (List.map key l1) ->
  l1 = l2.
Proof.
  revert l2. induction l1 as [|a l1 IH]; intros l2 H1 H2 Hp Hnd.
  - apply Permutation_nil in Hp. now subst.
  - destruct l2 as [|b l2];
      [apply Permutation_sym, Permutation_nil in Hp; discriminate|].
    apply StronglySorted_inv in H1 as [H1 Ha].
    apply StronglySorted_inv in H2 as [H2 Hb].
    simpl in Hnd. apply NoDup_cons_iff in Hnd as [Hna Hnd].
    rewrite Forall_forall in Ha, Hb.
    assert (Hab : a = b).
    { assert (Hin_a : In a (b :: l2))
        by (eapply Permutation_in; [exact Hp | now left]).
      assert (Hin_b : In b (a :: l1))
        by (eapply Permutation_in; [apply Permutation_sym, Hp | now left]).
      destruct Hin_b as [Hb'|Hb']; [now symmetry|].
      destruct Hin_a as [Ha'|Ha']; [exact (eq_sym Ha')|].
      pose proof (Ha _ Hb'). pose proof (Hb _ Ha').
      destruct Hna. replace (key a) with (key b) by lia.
      now apply in_map. }
    subst b. f_equal. apply IH; try assumption.
    now apply Permutation_cons_inv in Hp.
Qed.

Lemma NoDup_map_filter {A B : Type} (f : A -> B) (p : A -> bool) (l : list A) :
  NoDup (List.map f l) -> NoDup (List.map f (filter p l)).
Proof.
  induction l as [|a l IH]; simpl; intros H; [constructor|].
  apply NoDup_cons_iff in H as [Ha H].
  destruct (p a); simpl; [|now apply IH].
  constructor; [|now apply IH].
  intros Hin. apply Ha. apply in_map_iff in Hin as (x & Hx & Hin).
  apply filter_In in Hin as [Hin _]. rewrite <- Hx. now apply in_map.
Qed.

Section WithEngine.
Context {engine : Engine}.

Lemma updateChapterRow_renumbered (now : jstring) (o i : Z) (c : Chapter.t) :
  renumbered c (updateChapterRow now [SetOrder o] i c).
Proof.
  unfold updateChapterRow, renumbered.
  destruct (Z.eqb (Chapter.id c) i); repeat split.
Qed.

Lemma rowAfter_renumbered (us : list OrderUpdate) (n : nat) (c : Chapter.t) :
  renumbered c (rowAfter us n c).
Proof.
  revert n c. induction us as [|u us IH]; intros n c; [repeat split|].
  cbn [rowAfter].
  destruct (IH (S n) (updateChapterRow (CURRENT_TIMESTAMP n)
                        [SetOrder (newOrder u)] (id u) c))
    as (H1 & H2 & H3 & H4 & H5 & H6).
  destruct (updateChapterRow_renumbered (CURRENT_TIMESTAMP n) (newOrder u) (id u) c)
    as (G1 & G2 & G3 & G4 & G5 & G6).
  repeat split; congruence.
Qed.

Lemma rowAfter_untouched (us : list OrderUpdate) (n : nat) (c : Chapter.t) :
  ~ In (Chapter.id c) (List.map id us) -> rowAfter us n c = c.
Proof.
  revert n. induction us as [|u us IH]; intros n Hn; [reflexivity|].
  cbn [rowAfter]. simpl in Hn.
  unfold updateChapterRow.
  destruct (Z.eqb (Chapter.id c) (id u)) eqn:E.
  - apply Z.eqb_eq in E. destruct Hn. now left.
  - apply IH. tauto.
Qed.

Lemma applied_rows (us : list OrderUpdate) (d : database) :
  chapters (applied us d) = List.map (rowAfter us (statements d)) (chapters d)
  /\ projects (applied us d) = projects d.
Proof.
  revert d. induction us as [|u us IH]; intros d.
  - cbn. split; [now rewrite map_id | reflexivity].
  - unfold applied. cbn [fold_left].
    fold (applied us (exec (orderStatement u) d)).
    destruct (IH (exec (orderStatement u) d)) as [-> ->].
    unfold orderStatement. cbn [exec chapters projects statements rowAfter].
    split; [|reflexivity]. now rewrite map_map.
Qed.

Lemma indexUpdates_ids (k : nat) (l : list Chapter.t) :
  List.map id (indexUpdates k l) = List.map Chapter.id l.
Proof.
  revert k. induction l as [|c l IH]; intros k; simpl; [reflexivity|].
  now rewrite IH.
Qed.

(** With one pair per chapter, the pair built for position [k + j] gives
    the chapter at position [j] the order [k + j]. *)
Lemma rowAfter_index_orders (l : list Chapter.t) (k n : nat) :
  NoDup (List.map Chapter.id l) ->
  List.map (fun c => Chapter.order (rowAfter (indexUpdates k l) n c)) l
  = consecutiveFrom (Z.of_nat k) (List.length l).
Proof.
  revert k n. induction l as [|c l IH]; intros k n Hnd; [reflexivity|].
  simpl in Hnd. apply NoDup_cons_iff in Hnd as [Hc Hnd].
  cbn [List.map List.length indexUpdates].
  rewrite PlanFacts.consecutiveFrom_S. f_equal.
  - cbn [rowAfter id newOrder]. rewrite rowAfter_untouched.
    + unfold updateChapterRow. now rewrite Z.eqb_refl.
    + rewrite StoreFacts.updateChapterRow_id, indexUpdates_ids. exact Hc.
  - replace (Z.of_nat k + 1)%Z with (Z.of_nat (S k)) by lia.
    rewrite <- (IH (S k) (S n) Hnd).
    apply map_ext_in. intros x Hx. cbn [rowAfter id newOrder].
    unfold updateChapterRow.
    destruct (Z.eqb (Chapter.id x) (Chapter.id c)) eqn:E; [|reflexivity].
    apply Z.eqb_eq in E. destruct Hc. rewrite <- E. now apply in_map.
Qed.

Lemma consecutiveFrom_sorted (z : Z) (n : nat) :
  StronglySorted Z.le (consecutiveFrom z n) /\ NoDup (consecutiveFrom z n)
  /\ Forall (fun x => (z <= x)%Z) (consecutiveFrom z n).
Proof.
  revert z. induction n as [|n IH]; intros z.
  - repeat split; constructor.
  - rewrite PlanFacts.consecutiveFrom_S.
    destruct (IH (z + 1)%Z) as (Hs & Hn & Hf).
    repeat split.
    + constructor; [exact Hs|].
      eapply Forall_impl; [|exact Hf]. intros a Ha; cbv beta in Ha; lia.
    + constructor; [|exact Hn].
      intros Hin. rewrite Forall_forall in Hf. specialize (Hf _ Hin).
      cbv beta in Hf. lia.
    + constructor; [lia|]. eapply Forall_impl; [|exact Hf].
      intros a Ha; cbv beta in Ha; lia.
Qed.

Lemma sorted_of_map_order (l : list Chapter.t) :
  StronglySorted Z.le (List.map Chapter.order l) -> StronglySorted byOrder l.
Proof.
  induction l as [|c l IH]; simpl; intros H; [constructor|].
  apply StronglySorted_inv in H as [H Hc].
  constructor; [now apply IH|].
  rewrite Forall_forall in *. intros x Hx. apply Hc. now apply in_map.
Qed.

Lemma accepted_accepting (us : list OrderUpdate) (d : database) :
  accepting -> accepted us d = true.
Proof.
  intros [_ Hrun]. revert d.
  induction us as [|u us IH]; intros d; [reflexivity|].
  simpl. now rewrite Hrun, IH.
Qed.

Lemma updateChapterOrder_accepting (us : list OrderUpdate) (w : world) :
  accepting ->
  updateChapterOrder us w = (Ret true, withDatabase (applied us (db w)) w).
Proof.
  intros Hacc. unfold updateChapterOrder.
  destruct us as [|u us].
  - simpl. unfold ret. now rewrite StoreFacts.withDatabase_same.
  - cbn [List.length Nat.eqb]. unfold try_catch, bind.
    now rewrite (StoreFacts.runOrderUpdates_accepted (u :: us) w
                   (accepted_accepting (u :: us) (db w) Hacc)).
Qed.

Lemma siblings_map (F : Chapter.t -> Chapter.t) (pid : Z) (l : list Chapter.t) :
  (forall c, Chapter.projectId (F c) = Chapter.projectId c) ->
  filter (fun c => Z.eqb (Chapter.projectId c) pid) (List.map F l)
  = List.map F (filter (fun c => Z.eqb (Chapter.projectId c) pid) l).
Proof.
  intros HF. induction l as [|c l IH]; simpl; [reflexivity|].
  rewrite HF. destruct (Z.eqb (Chapter.projectId c) pid); simpl; now rewrite IH.
Qed.

(** Renumbering the listed chapters of a project by position and listing
    them again gives the same chapters, in the same sequence, with the
    orders 0, 1, 2, ... *)
Lemma renumber_then_list (pid : Z) (d : database) :
  NoDup (List.map Chapter.id (chapters d)) ->
  let listed := orderByOrder (siblings pid d) in
  let final := orderByOrder (siblings pid (applied (indexUpdates 0 listed) d)) in
  Forall2 renumbered listed final
  /\ List.map Chapter.order final = consecutiveFrom 0 (List.length final).
Proof.
  intros Hnd listed final.
  set (F := rowAfter (indexUpdates 0 listed) (statements d)).
  assert (Hids : NoDup (List.map Chapter.id listed)).
  { eapply Permutation_NoDup;
      [apply Permutation_map, Permutation_sym, ListingFacts.orderByOrder_perm|].
    now apply NoDup_map_filter. }
  assert (Horders : List.map Chapter.order (List.map F listed)
                    = consecutiveFrom 0 (List.length listed)).
  { rewrite map_map.
    exact (@rowAfter_index_orders listed 0%nat (statements d) Hids). }
  assert (Hfinal : final = List.map F listed).
  { subst final. unfold siblings.
    destruct (applied_rows (indexUpdates 0 listed) d) as [-> _].
    rewrite siblings_map
      by (intros c; now destruct (rowAfter_renumbered (indexUpdates 0 listed)
                                    (statements d) c) as (_ & -> & _)).
    fold (siblings pid d). fold F.
    destruct (consecutiveFrom_sorted 0 (List.length listed)) as (Hs & Hn & _).
    apply (sorted_perm_unique Chapter.order).
    - apply ListingFacts.orderByOrder_sorted.
    - apply sorted_of_map_order. now rewrite Horders.
    - eapply perm_trans; [apply ListingFacts.orderByOrder_perm|].
      apply Permutation_map, Permutation_sym, ListingFacts.orderByOrder_perm.
    - eapply Permutation_NoDup;
        [apply Permutation_map, Permutation_sym, ListingFacts.orderByOrder_perm|].
      eapply Permutation_NoDup;
        [apply Permutation_map, Permutation_map,
           ListingFacts.orderByOrder_perm|].
      fold listed. now rewrite Horders. }
  rewrite Hfinal. split.
  - assert (H : forall l, Forall2 renumbered l (List.map F l)).
    { induction l as [|c l IH]; simpl; constructor;
        [apply rowAfter_renumbered | exact IH]. }
    apply H.
  - now rewrite Horders, length_map.
Qed.

Lemma filter_swap {A : Type} (f g : A -> bool) (l : list A) :
  filter f (filter g l) = filter g (filter f l).
Proof.
  induction l as [|a l IH]; simpl; [reflexivity|].
  destruct (f a) eqn:Ef, (g a) eqn:Eg; simpl; rewrite ?Ef, ?Eg, IH; reflexivity.
Qed.

Context {deleteEngine : DeleteEngine}.

(** X6. The delete handler of the chapter list, with an engine that
    raises on nothing and a store whose chapter ids are distinct: it hands
    the component one list, which is the project's other chapters in their
    previous sequence, each unchanged but for its order (and updatedAt),
    with the orders 0, 1, 2, ... and which is what the store now holds for
    the project.  If the DELETE raises, nothing changes and the handler
    reports the failure. *)
Theorem X6_delete_handler_renumbers (projectId chapterId : Z) (w : world) :
  (delete_fails chapterId (db w) = true ->
   handleDeleteChapter projectId chapterId w
   = (Ret (mkUi [] (Some "Failed to delete chapter."%string)), w))
  /\ (accepting ->
      delete_fails chapterId (db w) = false ->
      NoDup (List.map Chapter.id (chapters (db w))) ->
      exists final w',
        handleDeleteChapter projectId chapterId w = (Ret (mkUi [final] None), w')
        /\ Forall2 renumbered
             (orderByOrder (others chapterId (siblings projectId (db w)))) final
        /\ List.map Chapter.order final = consecutiveFrom 0 (List.length final)
        /\ Permutation final (siblings projectId (db w'))).
Proof.
  split.
  { intros H. unfold handleDeleteChapter, try_catch, bind at 1.
    now rewrite DeletionFacts.deleteChapter_spec, H. }
  intros [Hget Hrun] Hdel Hnd.
  unfold handleDeleteChapter, try_catch, bind at 1.
  rewrite DeletionFacts.deleteChapter_spec, Hdel.
  unfold bind. rewrite ListingFacts.getChaptersByProjectId_spec, Hget.
  rewrite updateChapterOrder_accepting by (split; assumption).
  rewrite ListingFacts.getChaptersByProjectId_spec, Hget.
  cbn [db withDatabase]. unfold ret.
  set (d1 := execDelete chapterId (db w)).
  assert (Hnd1 : NoDup (List.map Chapter.id (chapters d1)))
    by (subst d1; cbn [execDelete chapters]; now apply NoDup_map_filter).
  destruct (renumber_then_list projectId d1 Hnd1) as [H2 Ho].
  assert (Hs : siblings projectId d1
               = others chapterId (siblings projectId (db w)))
    by (subst d1; unfold siblings, others; cbn [execDelete chapters];
        apply filter_swap).
  rewrite Hs in H2 at 1.
  eexists. eexists. split; [reflexivity|].
  split; [exact H2|]. split; [exact Ho|].
  cbn [db withDatabase]. apply ListingFacts.orderByOrder_perm.
Qed.

End WithEngine.

(** X6 on the three-chapter store: after chapter 2 is deleted through the
    handler, chapters 1 and 3 are shown with orders 0 and 1. *)
Lemma X6_delete_handler_renumbers_witness :
  let engines := {| delete_fails := fun _ _ => false |} in
  let r := handleDeleteChapter (engine := Fixtures.reliable)
             (deleteEngine := engines) 1 2
             (Fixtures.worldOf Fixtures.threeChapters) in
  exists final,
    fst r = Ret (mkUi [final] None)
    /\ List.map Chapter.order final = consecutiveFrom 0 (List.length final).
Proof.
  intros engines r.
  destruct (X6_delete_handler_renumbers (engine := Fixtures.reliable)
              (deleteEngine := engines) 1 2
              (Fixtures.worldOf Fixtures.threeChapters)) as [_ H].
  destruct H as (final & w' & E & _ & Ho & _).
  - split; reflexivity.
  - reflexivity.
  - vm_compute. repeat constructor; simpl; intuition discriminate.
  - exists final. subst r. rewrite E. split; [reflexivity | exact Ho].
Defined.

End RenumberFacts.

Module ReorderFacts.
Import Js Async Async.Notations Db World DbService ChapterService StoreSpec
       ChapterManager ExtraSpec.

(** *** Moving an element *)

Lemma spliceOut_some {A : Type} (i : nat) (a : list A) :
  (i < List.length a)%nat ->
  exists x rest,
    spliceOut i a = (Some x, rest)
    /\ nth_error a i = Some x
    /\ Permutation a (x :: rest)
    /\ List.length rest = pred (List.length a).
Proof.
  revert i. induction a as [|y a IH]; intros i Hi; [simpl in Hi; lia|].
  destruct i as [|i]; simpl.
  - exists y, a. repeat split. apply Permutation_refl.
  - simpl in Hi. destruct (IH i) as (x & rest & E & Hn & Hp & Hl); [lia|].
    rewrite E. exists x, (y :: rest). repeat split.
    + exact Hn.
    + eapply perm_trans; [apply perm_skip, Hp | apply perm_swap].
    + simpl. rewrite Hl. destruct a; [simpl in Hi; lia | reflexivity].
Qed.

Lemma spliceOut_none {A : Type} (i : nat) (a : list A) :
  (List.length a <= i)%nat -> fst (spliceOut i a) = None.
Proof.
  revert i. induction a as [|y a IH]; intros i Hi; [now destruct i|].
  destruct i as [|i]; simpl in *; [lia|].
  specialize (IH i). destruct (spliceOut i a). simpl in *. apply IH. lia.
Qed.

Lemma spliceIn_perm {A : Type} (j : nat) (x : A) (a : list A) :
  Permutation (spliceIn j x a) (x :: a).
Proof.
  revert j. induction a as [|y a IH]; intros j; simpl.
  - destruct j; apply Permutation_refl.
  - destruct j as [|j]; [apply Permutation_refl|].
    eapply perm_trans; [apply perm_skip, IH | apply perm_swap].
Qed.

Lemma spliceIn_nth {A : Type} (j : nat) (x : A) (a : list A) :
  (j <= List.length a)%nat -> nth_error (spliceIn j x a) j = Some x.
Proof.
  revert j. induction a as [|y a IH]; intros j Hj; simpl in *.
  - now replace j with 0%nat by lia.
  - destruct j as [|j]; [reflexivity|]. simpl. apply IH. lia.
Qed.

Lemma moveItem_inside {A : Type} (i j : nat) (a : list A) :
  (i < List.length a)%nat ->
  exists a',
    moveItem i j a = Some a'
    /\ Permutation a a'
    /\ List.length a' = List.length a
    /\ ((j < List.length a)%nat -> nth_error a' j = nth_error a i).
Proof.
  unfold moveItem.
  intros Hi. destruct (spliceOut_some a Hi) as (x & rest & -> & Hn & Hp & Hl).
  eexists. split; [reflexivity|].
  assert (Hp' : Permutation a (spliceIn j x rest))
    by (eapply perm_trans; [exact Hp | apply Permutation_sym, spliceIn_perm]).
  split; [exact Hp'|].
  split; [symmetry; now apply Permutation_length|].
  intros Hj. rewrite Hn. apply spliceIn_nth. lia.
Qed.

Lemma moveItem_outside {A : Type} (i j : nat) (a : list A) :
  (List.length a <= i)%nat -> moveItem i j a = None.
Proof.
  unfold moveItem.
  intros Hi. pose proof (spliceOut_none a Hi) as H.
  destruct (spliceOut i a) as [r rest]. simpl in H. now subst r.
Qed.

(** X7. Moving the element at index i of a list to index j, as the drop
    handler does with two splices: for an index i inside the list the result
    holds the same elements, each as often as before, has the same length,
    and has the moved element at index j whenever j is inside the list; for
    an index i outside the list nothing is removed and there is no
    result. *)
Theorem X7_move_item_permutes {A : Type} (i j : nat) (a : list A) :
  ((i < List.length a)%nat ->
   exists a',
     moveItem i j a = Some a'
     /\ Permutation a a'
     /\ List.length a' = List.length a
     /\ ((j < List.length a)%nat -> nth_error a' j = nth_error a i))
  /\ ((List.length a <= i)%nat -> moveItem i j a = None).
Proof.
  split; [apply moveItem_inside | apply moveItem_outside].
Qed.

(** X7 on a four-element list: moving index 0 to index 2. *)
Lemma X7_move_item_permutes_witness :
  exists a',
    moveItem 0 2 [10; 20; 30; 40]%Z = Some a'
    /\ nth_error a' 2 = Some 10%Z
    /\ Permutation [10; 20; 30; 40]%Z a'.
Proof.
  destruct (X7_move_item_permutes 0 2 [10; 20; 30; 40]%Z) as [H _].
  destruct H as (a' & E & Hp & _ & Hn); [simpl; lia|].
  exists a'. split; [exact E|]. split; [|exact Hp].
  rewrite Hn by (simpl; lia). reflexivity.
Defined.

(** *** The drop handler *)

Lemma indexUpdates_match (k : nat) (l : list Chapter.t) :
  Forall2 (fun u c => id u = Chapter.id c /\ newOrder u = Chapter.order c)
          (indexUpdates k l) (withIndexOrder k l).
Proof.
  revert k. induction l as [|c l IH]; intros k; simpl; constructor.
  - split; reflexivity.
  - apply IH.
Qed.

Lemma withIndexOrder_orders (k : nat) (l : list Chapter.t) :
  List.map Chapter.order (withIndexOrder k l)
  = consecutiveFrom (Z.of_nat k) (List.length l)
  /\ Forall2 renumbered l (withIndexOrder k l).
Proof.
  revert k. induction l as [|c l IH]; intros k; [split; [reflexivity|constructor]|].
  cbn [withIndexOrder List.map List.length].
  destruct (IH (S k)) as [Ho Hr].
  rewrite PlanFacts.consecutiveFrom_S. split.
  - f_equal. rewrite Ho. f_equal. lia.
  - constructor; [repeat split | exact Hr].
Qed.

Section WithEngine.
Context {engine : Engine}.

Lemma updateChapterOrder_rejected (pre post : list OrderUpdate) (u : OrderUpdate)
    (w : world) :
  accepted pre (db w) = true ->
  run_fails (orderStatement u) (applied pre (db w)) = true ->
  updateChapterOrder (pre ++ u :: post) w
  = (Ret false, withDatabase (applied pre (db w)) w).
Proof.
  intros Hpre Hu. unfold updateChapterOrder.
  destruct (List.length (pre ++ u :: post) =? 0)%nat eqn:E.
  - apply Nat.eqb_eq in E. rewrite length_app in E. simpl in E. lia.
  - unfold try_catch, bind.
    now rewrite (StoreFacts.runOrderUpdates_rejected pre post u w Hpre Hu).
Qed.

Lemma updateChapterOrder_accepted (us : list OrderUpdate) (w : world) :
  accepted us (db w) = true ->
  updateChapterOrder us w = (Ret true, withDatabase (applied us (db w)) w).
Proof.
  intros Hus. unfold updateChapterOrder. destruct us as [|u us].
  - simpl. unfold ret. now rewrite StoreFacts.withDatabase_same.
  - cbn [List.length Nat.eqb]. unfold try_catch, bind.
    now rewrite (StoreFacts.runOrderUpdates_accepted (u :: us) w Hus).
Qed.

(** X8. The drop handler, for a drag from index i to another index j of
    the list it was given.  It first shows the moved list with the orders
    0, 1, 2, ... and sends one order pair per chapter.  If the engine raises
    on a pair after accepting those before it, the handler then shows the
    list it was given again and sets an error, while the store keeps the
    pairs applied so far.  If every pair is accepted, the moved list is the
    only one shown, no error is set, and with distinct chapter ids every
    shown chapter that is stored has its shown order in the store. *)
Theorem X8_drop_reverts_view_on_failure (chapters : list Chapter.t)
    (i j : nat) (reordered : list Chapter.t) (w : world) :
  i <> j ->
  moveItem i j chapters = Some reordered ->
  let optimistic := withIndexOrder 0 reordered in
  let updates := indexUpdates 0 reordered in
  List.map Chapter.order optimistic
  = consecutiveFrom 0 (List.length chapters)
  /\ (forall pre u post,
        updates = pre ++ u :: post ->
        accepted pre (db w) = true ->
        run_fails (orderStatement u) (applied pre (db w)) = true ->
        handleDrop chapters (Some i) (Some j) w
        = (Ret (mkUi [optimistic; chapters]
                     (Some "Failed to save the new chapter order."%string)),
           withDatabase (applied pre (db w)) w))
  /\ (accepted updates (db w) = true ->
      handleDrop chapters (Some i) (Some j) w
      = (Ret (mkUi [optimistic] None), withDatabase (applied updates (db w)) w)
      /\ (NoDup (List.map Chapter.id chapters) ->
          forall c, In c optimistic ->
                    chapterOf (Chapter.id c) (db w) <> None ->
                    orderOf (Chapter.id c) (applied updates (db w))
                    = Some (Chapter.order c))).
Proof.
  intros Hij Hm optimistic updates.
  assert (Hlen : List.length reordered = List.length chapters).
  { destruct (Nat.lt_ge_cases i (List.length chapters)) as [Hi|Hi].
    - destruct (moveItem_inside j chapters Hi) as (a' & E & _ & Hl & _).
      congruence.
    - rewrite (moveItem_outside j chapters Hi) in Hm. discriminate. }
  assert (Hperm : Permutation chapters reordered).
  { destruct (Nat.lt_ge_cases i (List.length chapters)) as [Hi|Hi].
    - destruct (moveItem_inside j chapters Hi) as (a' & E & Hp & _).
      congruence.
    - rewrite (moveItem_outside j chapters Hi) in Hm. discriminate. }
  assert (Hhead :
    handleDrop chapters (Some i) (Some j) w
    = (TRY (success <- updateChapterOrder updates ;;
            if negb success then
              ret (mkUi [optimistic; chapters]
                        (Some "Failed to save the new chapter order."%string))
            else ret (mkUi [optimistic] None))
       CATCH (fun _ =>
         ret (mkUi [optimistic; chapters]
                   (Some "An error occurred while saving the chapter order."%string))))
        w).
  { unfold handleDrop.
    destruct (i =? j)%nat eqn:E; [apply Nat.eqb_eq in E; contradiction|].
    now rewrite Hm. }
  split; [|split].
  - subst optimistic. destruct (withIndexOrder_orders 0 reordered) as [-> _].
    now rewrite Hlen.
  - intros pre u post Hsplit Hpre Hu. rewrite Hhead.
    unfold try_catch, bind. rewrite Hsplit.
    now rewrite (updateChapterOrder_rejected pre post u w Hpre Hu).
  - intros Hacc. split.
    + rewrite Hhead. unfold try_catch, bind.
      now rewrite (updateChapterOrder_accepted updates w Hacc).
    + intros Hnd c Hc Hex.
      assert (Hu : exists u, In u updates /\ id u = Chapter.id c
                             /\ newOrder u = Chapter.order c).
      { pose proof (indexUpdates_match 0 reordered) as HF.
        fold updates in HF. fold optimistic in HF.
        clear - HF Hc. induction HF as [|u x us xs Hux HF IH]; [destruct Hc|].
        destruct Hc as [->|Hc].
        - exists u. split; [now left | exact Hux].
        - destruct (IH Hc) as (u' & Hin & Hu'). exists u'.
          split; [now right | exact Hu']. }
      destruct Hu as (u & Hin & Hid & Ho).
      rewrite <- Hid, <- Ho. apply StoreFacts.orderOf_applied_in.
      * subst updates. rewrite RenumberFacts.indexUpdates_ids.
        eapply Permutation_NoDup; [apply Permutation_map, Hperm | exact Hnd].
      * exact Hin.
      * now rewrite Hid.
Qed.

End WithEngine.

(** X8 on the three chapters ordered 0, 1, 2: dragging the first to the
    end with an engine that raises on chapter 3 shows the given list again,
    although chapter 2 already has its new order 0 in the store. *)
Lemma X8_drop_reverts_view_on_failure_witness :
  let chapters := chapters Fixtures.threeChapters in
  let w := Fixtures.worldOf Fixtures.threeChapters in
  let r := handleDrop (engine := Fixtures.rejectsChapter 3) chapters
             (Some 0%nat) (Some 2%nat) w in
  (exists shownFirst error, fst r = Ret (mkUi [shownFirst; chapters] error))
  /\ orderOf 2 (db (snd r)) = Some 0%Z.
Proof.
  intros chapters w r.
  destruct (X8_drop_reverts_view_on_failure
              (engine := Fixtures.rejectsChapter 3) chapters (i := 0) (j := 2)
              (reordered := [Fixtures.chapterRow 2 1 "Two";
                             Fixtures.chapterRow 3 2 "Three";
                             Fixtures.chapterRow 1 0 "One"]) w)
    as (_ & H & _).
  - discriminate.
  - reflexivity.
  - specialize (H [mkOrderUpdate 2 0] (mkOrderUpdate 3 1) [mkOrderUpdate 1 2]
                  eq_refl eq_refl eq_refl).
    subst r. rewrite H. split; [now eexists; eexists | reflexivity].
Defined.

End ReorderFacts.

Module DispatchFacts.
Import Js Async Async.Notations Wire World Providers LlmService ExtraSpec.

Lemma eqb_false_of_neq (a b : jstring) : a <> b -> Js.eqb a b = false.
Proof. unfold Js.eqb. intros H. now destruct (list_eq_dec N.eq_dec a b). Qed.

Lemma eqb_true_eq (a b : jstring) : Js.eqb a b = true -> a = b.
Proof. unfold Js.eqb. now destruct (list_eq_dec N.eq_dec a b). Qed.

Section Dispatcher.
Context {registry : Registry}.

(** X9. With a provider name other than openai, ollama and lmstudio, the
    dispatcher resolves no provider, whatever modules are registered:
    processLLMPrompt and listModels return null, testConnection returns
    false, nothing is sent and nothing changes. *)
Theorem X9_unknown_provider_short_circuits (w : world) (prompt : jstring) :
  provider (settings w) <> lit "openai" ->
  provider (settings w) <> lit "ollama" ->
  provider (settings w) <> lit "lmstudio" ->
  processLLMPrompt prompt w = (Ret None, w)
  /\ listModels w = (Ret None, w)
  /\ testConnection w = (Ret false, w).
Proof.
  intros H1 H2 H3.
  assert (Hp : getActiveProvider (settings w) = None).
  { unfold getActiveProvider.
    now rewrite (eqb_false_of_neq H1), (eqb_false_of_neq H2),
      (eqb_false_of_neq H3). }
  assert (Hl : listModels w = (Ret None, w)).
  { unfold listModels, bind, loadLlmSettings. now rewrite Hp. }
  repeat split.
  - unfold processLLMPrompt, bind, loadLlmSettings. now rewrite Hp.
  - exact Hl.
  - unfold testConnection, bind at 1, loadLlmSettings at 1. rewrite Hp.
    cbn [testConnectionOf]. unfold try_catch, bind. now rewrite Hl.
Qed.

End Dispatcher.

(** X9 with the provider name "claude" and the source's provider modules. *)
Lemma X9_unknown_provider_short_circuits_witness :
  let w := mkWorld Fixtures.oneChapter []
             (mkSettings (lit "claude") (lit "k") (lit "http://h") (lit "m")) in
  testConnection
    (registry := sourceRegistry (network := ProviderFixtures.storyteller)) w
  = (Ret false, w).
Proof.
  intros w.
  destruct (X9_unknown_provider_short_circuits
              (registry := sourceRegistry (network := ProviderFixtures.storyteller))
              w (lit "p")) as (_ & _ & H); try discriminate.
  exact H.
Defined.

Section WithNetwork.
Context {network : Network}.

(** X10. Each provider checks the part of the config it needs before it
    sends anything: without an API key the OpenAI provider, and without a
    base URL the Ollama and LM Studio providers, return null from listModels
    and getChatCompletion and false from testConnection, and the world is
    left as it was. *)
Theorem X10_missing_config_fails_fast (config : ProviderConfig)
    (messages : list Message) (w : world) :
  (truthy (Wire.apiKey config) = false ->
   OpenAI.listModels config w = (Ret None, w)
   /\ OpenAI.getChatCompletion messages config w = (Ret None, w)
   /\ OpenAI.testConnection config w = (Ret false, w))
  /\ (truthy (Wire.baseUrl config) = false ->
      Ollama.listModels config w = (Ret None, w)
      /\ Ollama.getChatCompletion messages config w = (Ret None, w)
      /\ Ollama.testConnection config w = (Ret false, w)
      /\ LMStudio.listModels config w = (Ret None, w)
      /\ LMStudio.getChatCompletion messages config w = (Ret None, w)
      /\ LMStudio.testConnection config w = (Ret false, w)).
Proof.
  split; intros H.
  - assert (Hl : OpenAI.listModels config w = (Ret None, w)).
    { unfold OpenAI.listModels, try_catch, bind, lift, OpenAI.getClient.
      now rewrite H. }
    repeat split.
    + exact Hl.
    + unfold OpenAI.getChatCompletion.
      rewrite ProviderFacts.chatCompletionVia_cases.
      unfold OpenAI.getClient. now rewrite H.
    + unfold OpenAI.testConnection, try_catch, bind. now rewrite Hl.
  - assert (Hl : LMStudio.listModels config w = (Ret None, w)).
    { unfold LMStudio.listModels, try_catch, bind, lift, LMStudio.getClient.
      now rewrite H. }
    repeat split.
    + unfold Ollama.listModels. now rewrite H.
    + unfold Ollama.getChatCompletion.
      rewrite ProviderFacts.chatCompletionVia_cases.
      unfold Ollama.getClient. now rewrite H.
    + unfold Ollama.testConnection. now rewrite H.
    + exact Hl.
    + unfold LMStudio.getChatCompletion.
      rewrite ProviderFacts.chatCompletionVia_cases.
      unfold LMStudio.getClient. now rewrite H.
    + unfold LMStudio.testConnection, try_catch, bind. now rewrite Hl.
Qed.

Lemma listModels_generic_cases (getClient : ProviderConfig -> outcome Client)
    (config : ProviderConfig) (w : world) :
  (TRY (openai <- lift (getClient config) ;;
        list <- modelsList openai ;;
        ret (Some (sortedIds list)))
   CATCH (fun _ => ret None)) w
  = match getClient config with
    | Throw _ => (Ret None, w)
    | Ret c =>
        (Ret (ProviderSpec.genericResult (requests w) c), sent (ModelsList c) w)
    end.
Proof.
  unfold try_catch, bind, lift, modelsList, ret, ProviderSpec.genericResult.
  destruct (getClient config) as [c|e]; [|reflexivity].
  now destruct (models_list _ _).
Qed.

(** X11. The connection tests of the OpenAI and LM Studio providers both
    rest on their own listModels and send nothing else, but they disagree
    on an empty list: the OpenAI test is true exactly when listModels
    returns a non-empty list, the LM Studio test exactly when it returns a
    list, empty or not. *)
Theorem X11_connection_test_and_empty_list (config : ProviderConfig) (w : world) :
  (exists b,
      OpenAI.testConnection config w = (Ret b, snd (OpenAI.listModels config w))
      /\ (b = true <->
          exists m ms, fst (OpenAI.listModels config w) = Ret (Some (m :: ms))))
  /\ (exists b,
        LMStudio.testConnection config w
        = (Ret b, snd (LMStudio.listModels config w))
        /\ (b = true <->
            exists ms, fst (LMStudio.listModels config w) = Ret (Some ms))).
Proof.
  split.
  - unfold OpenAI.testConnection, try_catch, bind, ret.
    destruct (OpenAI.listModels config w) as [[[[|m ms]|]|e] w'] eqn:E;
      cbn [fst snd]; eexists; (split; [reflexivity|]); split; intros H;
      try discriminate; try (destruct H as (? & ? & H); discriminate).
    + now exists m, ms.
    + reflexivity.
  - unfold LMStudio.testConnection, try_catch, bind, ret.
    destruct (LMStudio.listModels config w) as [[[ms|]|e] w'] eqn:E;
      cbn [fst snd]; eexists; (split; [reflexivity|]); split; intros H;
      try discriminate; try (destruct H as (? & H); discriminate).
    + now exists ms.
    + reflexivity.
Qed.

(** X12. The Ollama connection test looks only at the native endpoint: with
    a base URL it sends that one request and returns whether the response
    status is a success, false if the request fails.  So it is false when
    the native endpoint is down even if listModels succeeds through the
    generic endpoint. *)
Theorem X12_ollama_test_is_native_only (config : ProviderConfig) (w : world) :
  truthy (Wire.baseUrl config) = true ->
  let url := Ollama.tagsUrl (toStr (Wire.baseUrl config)) in
  Ollama.testConnection config w
  = (Ret (match fetch (requests w) url with
          | Ret response => ok response
          | Throw _ => false
          end), sent (Fetch url) w)
  /\ (forall response client models,
        fetch (requests w) url = Ret response ->
        ok response = false ->
        Ollama.getClient config = Ret client ->
        models_list (requests (sent (Fetch url) w)) client = Ret models ->
        fst (Ollama.testConnection config w) = Ret false
        /\ fst (Ollama.listModels config w) = Ret (Some (sortedIds models))).
Proof.
  intros Hb url.
  assert (E : Ollama.testConnection config w
              = (Ret (match fetch (requests w) url with
                      | Ret response => ok response
                      | Throw _ => false
                      end), sent (Fetch url) w)).
  { unfold Ollama.testConnection. rewrite Hb. cbn [negb].
    unfold try_catch, bind, doFetch, ret. fold url.
    now destruct (fetch (requests w) url). }
  split; [exact E|].
  intros response client models Hf Hok Hc Hm. rewrite E. cbn [fst].
  rewrite Hf. split; [now rewrite Hok|].
  unfold Ollama.listModels. rewrite Hb. cbn [negb]. unfold try_catch.
  rewrite ProviderFacts.nativeList_cases. fold url. rewrite Hf, Hok. cbn [negb].
  rewrite ProviderFacts.fallbackList_cases, Hc. cbn [fst].
  unfold ProviderSpec.genericResult. now rewrite Hm.
Qed.

End WithNetwork.

(** X10 at a config with neither key nor URL. *)
Lemma X10_missing_config_fails_fast_witness :
  let w := Fixtures.worldOf Fixtures.oneChapter in
  OpenAI.testConnection (network := ProviderFixtures.storyteller)
    (mkConfig None None (lit "m")) w = (Ret false, w).
Proof.
  intros w.
  destruct (X10_missing_config_fails_fast
              (network := ProviderFixtures.storyteller)
              (mkConfig None None (lit "m")) [] w) as [H _].
  destruct (H eq_refl) as (_ & _ & E). exact E.
Defined.

(** X12 against the backend whose native endpoint answers 503 while its
    generic listing works. *)
Lemma X12_ollama_test_is_native_only_witness :
  let config := mkConfig None (Some (lit "http://localhost:11434")) (lit "llama3") in
  let w := Fixtures.worldOf Fixtures.oneChapter in
  fst (Ollama.testConnection (network := ProviderFixtures.nativeDown) config w)
  = Ret false
  /\ fst (Ollama.listModels (network := ProviderFixtures.nativeDown) config w)
     = Ret (Some (sortedIds [mkModel (lit "llama3")])).
Proof.
  intros config w.
  destruct (X12_ollama_test_is_native_only
              (network := ProviderFixtures.nativeDown) config w eq_refl)
    as [_ H].
  eapply H; reflexivity.
Defined.

End DispatchFacts.

Module RequestFacts.
Import Js Async Async.Notations Wire World Providers LlmService ExtraSpec.

Lemma endsWith_app (p s : jstring) : endsWith p (s ++ p) = true.
Proof.
  unfold endsWith. rewrite rev_app_distr. apply ParserFacts.startsWith_app.
Qed.

(** X13. Given a base URL, the Ollama provider's client always talks to a
    URL that ends in /v1: a base URL that already ends so is used as it is,
    any other gets /v1 appended.  The LM Studio provider uses the base URL
    as given. *)
Theorem X13_ollama_base_url_normalised (config : ProviderConfig) :
  truthy (Wire.baseUrl config) = true ->
  let url := toStr (Wire.baseUrl config) in
  (exists c u,
      Ollama.getClient config = Ret c
      /\ baseURL c = Some u
      /\ endsWith (lit "/v1") u = true
      /\ (endsWith (lit "/v1") url = true -> u = url)
      /\ (endsWith (lit "/v1") url = false -> u = url ++ lit "/v1"))
  /\ (exists c, LMStudio.getClient config = Ret c /\ baseURL c = Some url).
Proof.
  intros Hb url. split.
  - unfold Ollama.getClient. rewrite Hb. cbn [negb]. fold url.
    eexists. eexists. split; [reflexivity|]. split; [reflexivity|].
    destruct (endsWith (lit "/v1") url) eqn:E.
    + repeat split; [exact E | discriminate].
    + repeat split; [apply endsWith_app | discriminate].
  - unfold LMStudio.getClient. rewrite Hb. cbn [negb].
    eexists. split; [reflexivity|]. cbn [baseURL]. subst url.
    destruct (Wire.baseUrl config); [reflexivity | discriminate].
Qed.

(** X13 at the default Ollama address. *)
Lemma X13_ollama_base_url_normalised_witness :
  exists c,
    Ollama.getClient (mkConfig None (Some (lit "http://localhost:11434")) (lit "m"))
    = Ret c
    /\ baseURL c = Some (lit "http://localhost:11434/v1").
Proof.
  destruct (X13_ollama_base_url_normalised
              (mkConfig None (Some (lit "http://localhost:11434")) (lit "m"))
              eq_refl) as [(c & u & Hc & Hu & _ & _ & Happ) _].
  exists c. split; [exact Hc|]. rewrite Hu, Happ by reflexivity. reflexivity.
Defined.

Section WithNetwork.
Context {network : Network}.

Lemma createProviderConfig_model (settings : LlmSettings) :
  Wire.model (createProviderConfig settings) <> [].
Proof.
  unfold createProviderConfig. cbn [Wire.model].
  destruct (World.model settings) as [|x m] eqn:E; cbn [truthy negb].
  - destruct (Js.eqb _ _); [discriminate|].
    destruct (Js.eqb _ _); discriminate.
  - discriminate.
Qed.

Lemma sourceProvider_completion (settings : LlmSettings)
    (messages : list Message) (w : world) :
  match getActiveProvider (registry := sourceRegistry) settings with
  | None => clientFor settings = None
  | Some provider =>
      exists getClient,
        getChatCompletion provider = chatCompletionVia getClient
        /\ clientFor settings
           = match getClient (createProviderConfig settings) with
             | Ret c => Some c
             | Throw _ => None
             end
  end.
Proof.
  unfold getActiveProvider, clientFor.
  destruct (Js.eqb (provider settings) (lit "openai"));
    [exists OpenAI.getClient; split; reflexivity|].
  destruct (Js.eqb (provider settings) (lit "ollama"));
    [exists Ollama.getClient; split; reflexivity|].
  destruct (Js.eqb (provider settings) (lit "lmstudio"));
    [exists LMStudio.getClient; split; reflexivity|].
  reflexivity.
Qed.

(** What a completion request through the source's providers does to the
    world. *)
Lemma processLLMPrompt_source (prompt : jstring) (w : world) :
  exists r,
    processLLMPrompt (registry := sourceRegistry) prompt w
    = (Ret r,
       match clientFor (settings w) with
       | Some c =>
           sent (ChatCreate c (userMessage prompt)
                   (Wire.model (createProviderConfig (settings w)))) w
       | None => w
       end)
    /\ r <> Some [].
Proof.
  unfold processLLMPrompt, bind, loadLlmSettings.
  pose proof (sourceProvider_completion (settings w) (userMessage prompt) w) as H.
  destruct (getActiveProvider (settings w)) as [p|].
  - destruct H as (getClient & Hg & ->). unfold try_catch. rewrite Hg.
    fold (userMessage prompt).
    destruct (ProviderFacts.chatCompletionVia_nonempty getClient
                (userMessage prompt) (createProviderConfig (settings w)) w)
      as (r & Hr & Hne).
    rewrite ProviderFacts.chatCompletionVia_cases in *.
    destruct (getClient (createProviderConfig (settings w))) as [c|e].
    + cbv zeta in *.
      destruct (chat_completions_create _ _ _ _) as [completion|e];
        [destruct (firstContent completion) as [x|e]|];
        cbn [fst] in Hr; injection Hr as <-; eexists; split;
        try reflexivity; exact Hne.
    + exists None. split; [reflexivity | discriminate].
  - rewrite H. exists None. split; [reflexivity | discriminate].
Qed.

(** X14. processLLMPrompt through the source's provider modules never
    throws and never returns the empty string.  It touches neither the store
    nor the settings and sends at most one request: when the configured
    provider can build its client, one chat completion whose only message
    has role user and the prompt as content, for a model name that is never
    empty; otherwise nothing. *)
Theorem X14_prompt_sends_one_user_message (prompt : jstring) (w : world) :
  exists r,
    fst (processLLMPrompt (registry := sourceRegistry) prompt w) = Ret r
    /\ r <> Some []
    /\ db (snd (processLLMPrompt (registry := sourceRegistry) prompt w)) = db w
    /\ settings (snd (processLLMPrompt (registry := sourceRegistry) prompt w))
       = settings w
    /\ requests (snd (processLLMPrompt (registry := sourceRegistry) prompt w))
       = requests w
         ++ match clientFor (settings w) with
            | Some c =>
                [ChatCreate c [mkMessage (lit "user") prompt]
                   (Wire.model (createProviderConfig (settings w)))]
            | None => []
            end
    /\ Wire.model (createProviderConfig (settings w)) <> [].
Proof.
  destruct (processLLMPrompt_source prompt w) as (r & -> & Hne).
  exists r. cbn [fst snd].
  destruct (clientFor (settings w)); cbn [db settings requests sent];
    rewrite ?app_nil_r; repeat split; try assumption;
    apply createProviderConfig_model.
Qed.

End WithNetwork.
End RequestFacts.

Module WorkflowFacts.
Import Js Async Async.Notations Wire Db World Providers LlmService StoreSpec
       ExtraSpec.

Lemma contentOnly_refl (c : Chapter.t) : contentOnly c c.
Proof. repeat split. Qed.

Lemma contentOnly_trans (a b c : Chapter.t) :
  contentOnly a b -> contentOnly b c -> contentOnly a c.
Proof.
  intros (A1 & A2 & A3 & A4 & A5 & A6) (B1 & B2 & B3 & B4 & B5 & B6).
  repeat split; congruence.
Qed.

Lemma Forall2_refl_of {A : Type} (R : A -> A -> Prop) (l : list A) :
  (forall a, R a a) -> Forall2 R l l.
Proof. intros H. induction l; constructor; auto. Qed.

Lemma Forall2_trans_of {A : Type} (R : A -> A -> Prop) (l1 l2 l3 : list A) :
  (forall a b c, R a b -> R b c -> R a c) ->
  Forall2 R l1 l2 -> Forall2 R l2 l3 -> Forall2 R l1 l3.
Proof.
  intros HR H12. revert l3. induction H12 as [|a b l1 l2 Hab H12 IH]; intros l3 H23.
  - inversion H23. constructor.
  - inversion H23 as [|b' c l2' l3' Hbc H23']; subst.
    constructor; [eapply HR; eassumption | now apply IH].
Qed.

Lemma onlyContentWritten_refl (w : world) : onlyContentWritten w w.
Proof.
  repeat split.
  - apply Forall2_refl_of, contentOnly_refl.
  - exists []. now rewrite app_nil_r.
Qed.

Lemma onlyContentWritten_trans (w1 w2 w3 : world) :
  onlyContentWritten w1 w2 -> onlyContentWritten w2 w3 ->
  onlyContentWritten w1 w3.
Proof.
  intros (A1 & A2 & A3 & (x & A4)) (B1 & B2 & B3 & (y & B4)).
  repeat split.
  - eapply Forall2_trans_of; [apply contentOnly_trans | exact A1 | exact B1].
  - congruence.
  - congruence.
  - exists (x ++ y). rewrite B4, A4. now rewrite app_assoc.
Qed.

Section WithEngine.
Context {engine : Engine}.

(** Saving a response is at most one UPDATE of the content of that
    chapter. *)
Lemma handleChapterContentResponse_effect (response : jstring) (chapterId : Z)
    (w : world) :
  let s := UpdateChapter [SetContent (Some response)] chapterId in
  handleChapterContentResponse response chapterId w
  = (Ret true,
     if run_fails s (db w) then w else withDatabase (exec s (db w)) w).
Proof.
  intros s.
  unfold handleChapterContentResponse, try_catch, bind at 1.
  unfold ChapterService.updateChapter.
  cbn [ChapterService.fieldsToUpdate ChapterService.title
       ChapterService.description ChapterService.content ChapterService.order
       app List.length Nat.eqb].
  unfold try_catch, bind, DbService.run. fold s.
  destruct (run_fails s (db w)); [reflexivity|].
  now rewrite StoreFacts.getChapterById_spec.
Qed.

Lemma save_onlyContentWritten (response : jstring) (chapterId : Z) (w : world) :
  onlyContentWritten w (snd (handleChapterContentResponse response chapterId w))
  /\ requests (snd (handleChapterContentResponse response chapterId w))
     = requests w.
Proof.
  rewrite handleChapterContentResponse_effect. cbn [snd].
  destruct (run_fails _ _); [split; [apply onlyContentWritten_refl | reflexivity]|].
  split; [|reflexivity].
  repeat split.
  - cbn [db withDatabase exec chapters].
    induction (chapters (db w)) as [|c l IH]; simpl; constructor; [|exact IH].
    unfold updateChapterRow, contentOnly.
    destruct (Z.eqb (Chapter.id c) chapterId); repeat split.
  - exists []. now rewrite app_nil_r.
Qed.

Context {runtime : Runtime} {network : Network}.

Lemma prompt_onlyContentWritten (prompt : jstring) (w : world) :
  onlyContentWritten w (snd (processLLMPrompt (registry := sourceRegistry) prompt w)).
Proof.
  destruct (RequestFacts.processLLMPrompt_source prompt w) as (r & -> & _).
  cbn [snd]. destruct (clientFor (settings w)); [|apply onlyContentWritten_refl].
  repeat split.
  - apply Forall2_refl_of, contentOnly_refl.
  - eexists. reflexivity.
Qed.

Lemma sequenceLoop_onlyContentWritten (project : Project.t) (parameters : json)
    (n i : nat) (allChapters : list Chapter.t) (success : bool) (w : world) :
  onlyContentWritten w
    (snd (sequenceLoop (registry := sourceRegistry) project parameters n i
            allChapters success w)).
Proof.
  revert i allChapters success w.
  induction n as [|n IH]; intros i allChapters success w;
    [apply onlyContentWritten_refl|].
  cbn [sequenceLoop].
  destruct (nth_error allChapters i) as [currentChapter|];
    [|apply onlyContentWritten_refl].
  unfold bind at 1, lift at 1.
  destruct (propOf (lit "continueNarrative") parameters) as [cn|e];
    [|apply onlyContentWritten_refl].
  unfold bind at 1, lift at 1.
  destruct (generateChapterContentPrompt project currentChapter _) as [prompt|e];
    [|apply onlyContentWritten_refl].
  unfold bind at 1.
  pose proof (prompt_onlyContentWritten prompt w) as Hp.
  destruct (RequestFacts.processLLMPrompt_source prompt w) as (r & Er & _).
  destruct (processLLMPrompt prompt w) as [o w1] eqn:E1.
  injection Er as -> Ew1. cbn [snd] in Hp.
  destruct (truthy r).
  - unfold bind at 1.
    pose proof (save_onlyContentWritten (toStr r) (Chapter.id currentChapter) w1)
      as [Hs _].
    rewrite handleChapterContentResponse_effect in *. cbn [snd] in Hs.
    eapply onlyContentWritten_trans; [exact Hp|].
    eapply onlyContentWritten_trans; [exact Hs | apply IH].
  - eapply onlyContentWritten_trans; [exact Hp | apply IH].
Qed.

(** X15. Sequence generation through the source's provider modules never
    throws, and whatever the store, the backend and the prompt template do,
    it changes nothing but the content and updatedAt of chapters: it adds,
    removes, renumbers and retitles no chapter, leaves projects and settings
    alone, and only appends to the request log. *)
Theorem X15_sequence_writes_only_content (projectId startChapterId : Z)
    (w : world) :
  let r := generateChapterSequenceContent (registry := sourceRegistry)
             projectId startChapterId w in
  (exists b, fst r = Ret b) /\ onlyContentWritten w (snd r).
Proof.
  intros r. remember r as res eqn:E. subst r.
  unfold generateChapterSequenceContent, try_catch, bind at 1 in E.
  rewrite StoreFacts.getProjectById_spec in E.
  destruct (if get_fails _ _ then None else projectOf projectId (db w))
    as [project|];
    [|subst res; split; [now eexists | apply onlyContentWritten_refl]].
  unfold bind at 1, lift at 1 in E.
  destruct (if truthy (Project.parameters project) then _ else _)
    as [parameters|e];
    [|subst res; split; [now eexists | apply onlyContentWritten_refl]].
  unfold bind at 1 in E. rewrite ListingFacts.getChaptersByProjectId_spec in E.
  set (allChapters := if get_fails _ _ then [] else _) in E.
  destruct (findIndex startChapterId allChapters) as [s|];
    [|subst res; split; [now eexists | apply onlyContentWritten_refl]].
  pose proof (sequenceLoop_onlyContentWritten project parameters
                (List.length allChapters - s) s allChapters true w) as H.
  destruct (sequenceLoop project parameters _ s allChapters true w)
    as [[b|e] w'];
    cbn [snd] in H; subst res; split; try (now eexists); exact H.
Qed.

Lemma setContent_length (i : nat) (v : jstring) (l : list Chapter.t) :
  List.length (setContent i v l) = List.length l.
Proof.
  revert i. induction l as [|c l IH]; intros i; [now destruct i|].
  destruct i; simpl; [reflexivity | now rewrite IH].
Qed.

Lemma skipn_setContent (i : nat) (v : jstring) (l : list Chapter.t) :
  skipn (S i) (setContent i v l) = skipn (S i) l.
Proof.
  revert i. induction l as [|c l IH]; intros i; [now destruct i|].
  destruct i as [|i]; [reflexivity|]. cbn [setContent]. exact (IH i).
Qed.

Lemma skipn_nth_error {A : Type} (l : list A) (i : nat) (x : A) :
  nth_error l i = Some x -> skipn i l = x :: skipn (S i) l.
Proof.
  revert i. induction l as [|a l IH]; intros i H; [now destruct i|].
  destruct i as [|i]; [now injection H as -> | exact (IH i H)].
Qed.

(** The loop sends, for each of the [n] chapters from index [i] on and in
    that order, the request for that chapter's prompt, and nothing else. *)
Lemma sequenceLoop_requests (project : Project.t) (parameters : json)
    (c : Client) (model : jstring) :
  parameters <> JNull ->
  (forall ch ctx, exists prompt,
      generateChapterContentPrompt project ch ctx = Ret prompt) ->
  forall n i allChapters success w,
    clientFor (settings w) = Some c ->
    Wire.model (createProviderConfig (settings w)) = model ->
    (n + i <= List.length allChapters)%nat ->
    let r := sequenceLoop (registry := sourceRegistry) project parameters n i
               allChapters success w in
    (exists b, fst r = Ret b)
    /\ exists sentNow,
         requests (snd r) = requests w ++ sentNow
         /\ Forall2 (requestFor project parameters c model)
                    (firstn n (skipn i allChapters)) sentNow.
Proof.
  intros Hp Hprompt.
  assert (Hprop : propOf (lit "continueNarrative") parameters
                  = Ret (getProp (lit "continueNarrative") parameters))
    by (destruct parameters; try reflexivity; now destruct Hp).
  induction n as [|n IH]; intros i allChapters success w Hc Hmodel Hn res.
  - subst res. cbn [sequenceLoop]. split; [now eexists|].
    exists []. split; [cbn; now rewrite app_nil_r | constructor].
  - assert (E : res = sequenceLoop (registry := sourceRegistry) project
                        parameters (S n) i allChapters success w)
      by reflexivity.
    clearbody res. cbn [sequenceLoop] in E.
    destruct (nth_error allChapters i) as [currentChapter|] eqn:Hnth;
      [|apply nth_error_None in Hnth; lia].
    rewrite (skipn_nth_error _ _ Hnth). cbn [firstn].
    unfold bind at 1, lift at 1 in E. rewrite Hprop in E.
    match type of E with
    | context [generateChapterContentPrompt project currentChapter ?ctx] =>
        set (contextContent := ctx) in E;
        destruct (Hprompt currentChapter contextContent) as [prompt Hpr];
        rewrite Hpr in E
    end.
    assert (Hfor : requestFor project parameters c model currentChapter
                     (ChatCreate c (userMessage prompt) model)).
    { exists contextContent, prompt. split; [exact Hpr|].
      split; [reflexivity|]. intros Hoff. subst contextContent.
      now rewrite Hoff. }
    unfold bind at 1, lift at 1 in E. unfold bind at 1 in E.
    destruct (RequestFacts.processLLMPrompt_source prompt w) as (r & Er & _).
    rewrite Er, Hc, Hmodel in E.
    set (w1 := sent _ w) in E.
    assert (Hc1 : clientFor (settings w1) = Some c) by exact Hc.
    assert (Hm1 : Wire.model (createProviderConfig (settings w1)) = model)
      by exact Hmodel.
    assert (Hl1 : requests w1
                  = requests w ++ [ChatCreate c (userMessage prompt) model])
      by reflexivity.
    destruct (truthy r).
    + unfold bind at 1 in E. rewrite handleChapterContentResponse_effect in E.
      cbv beta iota in E. cbn [negb] in E.
      set (w2 := if run_fails _ _ then w1 else _) in E.
      assert (Hc2 : clientFor (settings w2) = Some c)
        by (subst w2; now destruct (run_fails _ _)).
      assert (Hm2 : Wire.model (createProviderConfig (settings w2)) = model)
        by (subst w2; now destruct (run_fails _ _)).
      assert (Hl2 : requests w2
                    = requests w ++ [ChatCreate c (userMessage prompt) model])
        by (subst w2; now destruct (run_fails _ _)).
      edestruct (IH (S i) (setContent i (toStr r) allChapters))
        as [Hb (sentNow & Hs & HF)];
        [exact Hc2 | exact Hm2 | rewrite setContent_length; lia |].
      rewrite skipn_setContent in HF.
      subst res. split; [exact Hb|].
      exists (ChatCreate c (userMessage prompt) model :: sentNow).
      split; [rewrite Hs, Hl2, <- app_assoc; reflexivity|].
      now constructor.
    + destruct (IH (S i) allChapters false w1 Hc1 Hm1)
        as [Hb (sentNow & Hs & HF)]; [lia|].
      subst res. split; [exact Hb|].
      exists (ChatCreate c (userMessage prompt) model :: sentNow).
      split; [rewrite Hs, Hl1, <- app_assoc; reflexivity|].
      now constructor.
Qed.

(** X16. Sequence generation does not stop at a failed step.  When the
    reads are answered, the project's parameters parse (to something other
    than null), the prompt template does not throw and the configured
    provider can build its client, the workflow returns and has sent
    exactly one completion request for each chapter from the start chapter
    to the end of the project's list, in list order and nothing else: the
    k-th request sent carries, as its one user message, the prompt the
    template gives for the k-th of these chapters (without context when
    narrative continuation is off), whatever the backend answered and
    whatever the store did with the saves. *)
Theorem X16_sequence_one_request_per_chapter (projectId startChapterId : Z)
    (w : world) (project : Project.t) (parameters : json) (c : Client)
    (s : nat) :
  (forall T (q : query T) d, get_fails q d = false) ->
  projectOf projectId (db w) = Some project ->
  (if truthy (Project.parameters project)
   then JSON_parse (toStr (Project.parameters project))
   else Ret (JObject [])) = Ret parameters ->
  parameters <> JNull ->
  (forall ch ctx, exists prompt,
      generateChapterContentPrompt project ch ctx = Ret prompt) ->
  clientFor (settings w) = Some c ->
  findIndex startChapterId (orderByOrder (siblings projectId (db w))) = Some s ->
  let r := generateChapterSequenceContent (registry := sourceRegistry)
             projectId startChapterId w in
  (exists b, fst r = Ret b)
  /\ List.length (requests (snd r))
     = (List.length (requests w)
        + (List.length (siblings projectId (db w)) - s))%nat
  /\ exists sentNow,
       requests (snd r) = requests w ++ sentNow
       /\ Forall2 (requestFor project parameters c
                     (Wire.model (createProviderConfig (settings w))))
                  (skipn s (orderByOrder (siblings projectId (db w))))
                  sentNow.
Proof.
  intros Hget Hproj Hparse Hnull Hprompt Hc Hs r.
  remember r as res eqn:E. subst r.
  unfold generateChapterSequenceContent, try_catch, bind at 1 in E.
  rewrite StoreFacts.getProjectById_spec, Hget, Hproj in E.
  unfold bind at 1, lift at 1 in E. rewrite Hparse in E.
  unfold bind at 1 in E.
  rewrite ListingFacts.getChaptersByProjectId_spec, Hget, Hs in E.
  set (listing := orderByOrder (siblings projectId (db w))) in *.
  assert (Hlen : List.length listing = List.length (siblings projectId (db w)))
    by (apply Permutation_length, ListingFacts.orderByOrder_perm).
  assert (Hle : (s < List.length listing)%nat).
  { clear - Hs. revert s Hs.
    induction listing as [|x l IH]; intros s Hs; [discriminate|].
    simpl in Hs. destruct (Z.eqb (Chapter.id x) startChapterId).
    - injection Hs as <-. simpl. lia.
    - destruct (findIndex startChapterId l) as [k|]; [|discriminate].
      injection Hs as <-. specialize (IH k eq_refl). simpl. lia. }
  destruct (@sequenceLoop_requests project parameters c _ Hnull Hprompt
              (List.length listing - s) s listing true w Hc eq_refl)
    as [[b Hb] (sentNow & Hreq & HF)]; [lia|].
  rewrite firstn_all2 in HF by (rewrite length_skipn; lia).
  destruct (sequenceLoop project parameters _ s _ true w) as [o w'].
  cbn [fst snd] in Hb, Hreq. subst o res. cbn [fst snd].
  split; [now eexists|]. split.
  - rewrite Hreq, length_app, <- (Forall2_length HF), length_skipn, Hlen.
    reflexivity.
  - now exists sentNow.
Qed.

End WithEngine.

(** X16 on the three-chapter store, starting at chapter 2, with a backend
    that fails for chapter 2: the requests for chapter 2 and for chapter 3
    are sent all the same, in that order. *)
Lemma X16_sequence_one_request_per_chapter_witness :
  let w := Fixtures.worldOf Fixtures.threeChapters in
  let c := mkClient (lit "ollama") (Some (lit "http://localhost:11434/v1")) in
  let r := generateChapterSequenceContent
             (engine := Fixtures.reliable) (runtime := Fixtures.plainRuntime)
             (registry := sourceRegistry
                            (network := ProviderFixtures.failsOn (lit "Two")))
             1 2 w in
  requests (snd r)
  = [ChatCreate c (userMessage (lit "Two")) (lit "llama3");
     ChatCreate c (userMessage (lit "Three")) (lit "llama3")].
Proof.
  intros w c r.
  destruct (X16_sequence_one_request_per_chapter
              (engine := Fixtures.reliable)
              (runtime := Fixtures.plainRuntime)
              (network := ProviderFixtures.failsOn (lit "Two"))
              1 2 w (project := Fixtures.book) (parameters := JObject [])
              (c := c) (s := 1%nat))
    as (_ & _ & sentNow & Hreq & HF).
  - reflexivity.
  - reflexivity.
  - reflexivity.
  - discriminate.
  - intros ch ctx. eexists. reflexivity.
  - reflexivity.
  - reflexivity.
  - subst r. rewrite Hreq. cbn [requests w Fixtures.worldOf app].
    change (skipn 1 (orderByOrder (siblings 1 (db w))))
      with [Fixtures.chapterRow 2 1 "Two"; Fixtures.chapterRow 3 2 "Three"]
      in HF.
    inversion HF as [|ch2 r2 chs rs (x2 & p2 & Hp2 & -> & _) HF2]; subst.
    inversion HF2 as [|ch3 r3 chs' rs' (x3 & p3 & Hp3 & -> & _) HF3]; subst.
    inversion HF3; subst.
    cbn in Hp2, Hp3. injection Hp2 as <-. injection Hp3 as <-.
    reflexivity.
Defined.

End WorkflowFacts.

Module RefusalFacts.
Import Js Async Async.Notations Wire Db World Providers LlmService StoreSpec
       ChatResponse ProjectExport ExtraSpec.

Lemma findIndex_absent (start : Z) (l : list Chapter.t) :
  (forall c, In c l -> Chapter.id c <> start) -> findIndex start l = None.
Proof.
  induction l as [|c l IH]; intros H; [reflexivity|].
  simpl. destruct (Z.eqb (Chapter.id c) start) eqn:E.
  - apply Z.eqb_eq in E. destruct (H c (or_introl eq_refl) E).
  - rewrite IH; [reflexivity|]. intros x Hx. apply H. now right.
Qed.

Section WithEnvironment.
Context {engine : Engine} {runtime : Runtime} {registry : Registry}.

(** X17. Sequence generation refuses before it sends or writes anything,
    returning false with the world as it was, whatever provider modules are
    registered: when the project is not stored (or its lookup raises), when
    the start chapter is not a chapter of the project, and when the
    project's parameters do not parse. *)
Theorem X17_sequence_refusals (projectId startChapterId : Z) (w : world) :
  (projectOf projectId (db w) = None
   \/ get_fails (SelectProjectById projectId) (db w) = true ->
   generateChapterSequenceContent projectId startChapterId w = (Ret false, w))
  /\ ((forall c, In c (siblings projectId (db w)) ->
                 Chapter.id c <> startChapterId) ->
      generateChapterSequenceContent projectId startChapterId w = (Ret false, w))
  /\ (forall project e,
        projectOf projectId (db w) = Some project ->
        get_fails (SelectProjectById projectId) (db w) = false ->
        truthy (Project.parameters project) = true ->
        JSON_parse (toStr (Project.parameters project)) = Throw e ->
        generateChapterSequenceContent projectId startChapterId w
        = (Ret false, w)).
Proof.
  assert (E : generateChapterSequenceContent projectId startChapterId w
    = match (if get_fails (SelectProjectById projectId) (db w) then None
             else projectOf projectId (db w)) with
      | None => (Ret false, w)
      | Some project =>
          match (if truthy (Project.parameters project)
                 then JSON_parse (toStr (Project.parameters project))
                 else Ret (JObject [])) with
          | Throw _ => (Ret false, w)
          | Ret parameters =>
              let allChapters :=
                if get_fails (SelectChaptersByProject projectId) (db w) then []
                else orderByOrder (siblings projectId (db w)) in
              match findIndex startChapterId allChapters with
              | None => (Ret false, w)
              | Some s =>
                  (TRY sequenceLoop project parameters
                         (List.length allChapters - s) s allChapters true
                   CATCH (fun _ => ret false)) w
              end
          end
      end).
  { unfold generateChapterSequenceContent, try_catch, bind at 1.
    rewrite StoreFacts.getProjectById_spec.
    destruct (if get_fails _ _ then None else projectOf projectId (db w))
      as [project|]; [|reflexivity].
    unfold bind at 1, lift at 1.
    destruct (if truthy (Project.parameters project) then _ else _)
      as [parameters|e]; [|reflexivity].
    unfold bind at 1. rewrite ListingFacts.getChaptersByProjectId_spec.
    cbv zeta.
    destruct (findIndex startChapterId _); reflexivity. }
  rewrite E. split; [|split].
  - intros [H|H]; rewrite H; [|reflexivity].
    now destruct (get_fails _ _).
  - intros H.
    destruct (if get_fails (SelectProjectById projectId) (db w) then None
              else projectOf projectId (db w)) as [project|]; [|reflexivity].
    destruct (if truthy (Project.parameters project) then _ else _);
      [|reflexivity].
    cbv zeta. rewrite findIndex_absent; [reflexivity|].
    destruct (get_fails (SelectChaptersByProject projectId) (db w));
      [intros c []|].
    intros c Hc. apply H.
    eapply Permutation_in; [apply ListingFacts.orderByOrder_perm | exact Hc].
  - intros project e Hp Hg Ht Hj. now rewrite Hg, Hp, Ht, Hj.
Qed.

(** X18. getChatResponse: with no provider for the configured name it
    returns null without looking the project up; with a provider but no
    stored project it returns null and sends nothing; but when the stored
    project's parameters do not parse, the exception is not caught: the
    call throws, having sent nothing. *)
Theorem X18_chat_response_errors (projectId : Z)
    (messages : list ChatMessage) (w : world) :
  (getActiveProvider (settings w) = None ->
   getChatResponse projectId messages w = (Ret None, w))
  /\ (projectOf projectId (db w) = None ->
      getChatResponse projectId messages w = (Ret None, w))
  /\ (forall provider project e,
        getActiveProvider (settings w) = Some provider ->
        projectOf projectId (db w) = Some project ->
        get_fails (SelectProjectById projectId) (db w) = false ->
        truthy (Project.parameters project) = true ->
        JSON_parse (toStr (Project.parameters project)) = Throw e ->
        getChatResponse projectId messages w = (Throw e, w)).
Proof.
  assert (E : getChatResponse projectId messages w
    = match getActiveProvider (settings w) with
      | None => (Ret None, w)
      | Some provider =>
          match (if get_fails (SelectProjectById projectId) (db w) then None
                 else projectOf projectId (db w)) with
          | None => (Ret None, w)
          | Some project =>
              match (if truthy (Project.parameters project)
                     then JSON_parse (toStr (Project.parameters project))
                     else Ret (JObject [])) with
              | Throw e => (Throw e, w)
              | Ret parameters =>
                  (narrativeHooks <-
                     lift (propOf (lit "narrativeHooks") parameters) ;;
                   TRY getChatCompletion provider
                         (mkMessage (lit "system")
                            (systemMessageContent project parameters
                               narrativeHooks)
                          :: List.map toParam messages)
                         (createProviderConfig (settings w))
                   CATCH (fun _ => ret None)) w
              end
          end
      end).
  { unfold getChatResponse, bind at 1, loadLlmSettings at 1.
    destruct (getActiveProvider (settings w)) as [provider|]; [|reflexivity].
    unfold bind at 1. rewrite StoreFacts.getProjectById_spec.
    destruct (if get_fails _ _ then None else projectOf projectId (db w))
      as [project|]; [|reflexivity].
    unfold bind at 1, lift at 1.
    now destruct (if truthy (Project.parameters project) then _ else _). }
  rewrite E. split; [|split].
  - now intros ->.
  - intros Hp. rewrite Hp.
    destruct (getActiveProvider (settings w)); [|reflexivity].
    now destruct (get_fails _ _).
  - intros provider project e -> Hp Hg Ht Hj. now rewrite Hg, Hp, Ht, Hj.
Qed.

(** X19. Exporting a project never throws and changes nothing.  It returns
    null exactly when the project lookup gives nothing.  Otherwise the
    export carries the project's name and description, the project's
    chapters (title, description, content, order) in ascending order, and
    the decoded parameters; parameters that are absent, empty or do not
    parse give an export without parameters, not a failure. *)
Theorem X19_export_project (projectId : Z) (w : world) :
  let found := if get_fails (SelectProjectById projectId) (db w) then None
               else projectOf projectId (db w) in
  (found = None -> exportProjectToJson projectId w = (Ret None, w))
  /\ (forall project,
        found = Some project ->
        exists export listed,
          exportProjectToJson projectId w = (Ret (Some export), w)
          /\ name export = Project.name project
          /\ export_description export = Project.description project
          /\ ProjectExport.chapters export = List.map exportChapter listed
          /\ StronglySorted byOrder listed
          /\ (get_fails (SelectChaptersByProject projectId) (db w) = false ->
              Permutation listed (siblings projectId (db w)))
          /\ ((truthy (Project.parameters project) = false
               \/ exists e, JSON_parse (toStr (Project.parameters project))
                            = Throw e) ->
              ProjectExport.parameters export = None)
          /\ (forall v,
                truthy (Project.parameters project) = true ->
                JSON_parse (toStr (Project.parameters project)) = Ret v ->
                ProjectExport.parameters export = Some v)).
Proof.
  intros found. subst found.
  assert (E : exportProjectToJson projectId w
    = (Ret (match (if get_fails (SelectProjectById projectId) (db w) then None
                   else projectOf projectId (db w)) with
            | None => None
            | Some project =>
                Some (mkExport (Project.name project)
                        (Project.description project)
                        (parseParameters (Project.parameters project))
                        (List.map exportChapter
                           (if get_fails (SelectChaptersByProject projectId)
                                 (db w)
                            then []
                            else orderByOrder (siblings projectId (db w)))))
            end), w)).
  { unfold exportProjectToJson, try_catch, bind at 1.
    rewrite StoreFacts.getProjectById_spec.
    destruct (if get_fails _ _ then None else projectOf projectId (db w))
      as [project|]; [|reflexivity].
    unfold bind. now rewrite ListingFacts.getChaptersByProjectId_spec. }
  rewrite E.
  destruct (if get_fails _ _ then None else projectOf projectId (db w))
    as [project|]; split; try discriminate; try reflexivity.
  intros p [= <-].
  eexists. eexists. split; [reflexivity|].
  cbn [name export_description ProjectExport.chapters ProjectExport.parameters].
  repeat split.
  - destruct (get_fails _ _); [constructor | apply ListingFacts.orderByOrder_sorted].
  - intros ->. apply ListingFacts.orderByOrder_perm.
  - unfold parseParameters. intros [->|[e ->]]; [reflexivity|].
    now destruct (truthy _).
  - unfold parseParameters. now intros v -> ->.
Qed.

End WithEnvironment.

(** X17 on the three-chapter store with a start chapter of another
    project. *)
Lemma X17_sequence_refusals_witness :
  let w := Fixtures.worldOf Fixtures.threeChapters in
  generateChapterSequenceContent
    (engine := Fixtures.reliable) (runtime := Fixtures.plainRuntime)
    (registry := sourceRegistry (network := ProviderFixtures.storyteller))
    1 9 w
  = (Ret false, w).
Proof.
  intros w.
  destruct (X17_sequence_refusals
              (engine := Fixtures.reliable) (runtime := Fixtures.plainRuntime)
              (registry := sourceRegistry (network := ProviderFixtures.storyteller))
              1 9 w) as (_ & H & _).
  apply H. intros c Hc.
  repeat (destruct Hc as [<-|Hc]; [discriminate|]). destruct Hc.
Defined.

(** X18 on a project whose parameters are not JSON. *)
Lemma X18_chat_response_errors_witness :
  let runtime :=
    {| JSON_parse := fun _ => Throw (Error "SyntaxError");
       JSON_stringify := fun _ => lit "{}";
       generateChapterContentPrompt := fun _ c _ => Ret (Chapter.title c) |} in
  let d := mkDb [Project.mk 1 (lit "Book") None (Some (lit "{oops")) (lit "T0")
                            (lit "T0")] [] 0 0 0 in
  let w := Fixtures.worldOf d in
  getChatResponse (engine := Fixtures.reliable) (runtime := runtime)
    (registry := sourceRegistry (network := ProviderFixtures.storyteller))
    1 [] w
  = (Throw (Error "SyntaxError"), w).
Proof.
  intros runtime d w.
  destruct (X18_chat_response_errors
              (engine := Fixtures.reliable) (runtime := runtime)
              (registry := sourceRegistry (network := ProviderFixtures.storyteller))
              1 [] w) as (_ & _ & H).
  eapply H; reflexivity.
Defined.

(** X19 on the same project: the export succeeds, without parameters. *)
Lemma X19_export_project_witness :
  let runtime :=
    {| JSON_parse := fun _ => Throw (Error "SyntaxError");
       JSON_stringify := fun _ => lit "{}";
       generateChapterContentPrompt := fun _ c _ => Ret (Chapter.title c) |} in
  let d := mkDb [Project.mk 1 (lit "Book") None (Some (lit "{oops")) (lit "T0")
                            (lit "T0")] [] 0 0 0 in
  exists export,
    fst (exportProjectToJson (engine := Fixtures.reliable) (runtime := runtime)
           1 (Fixtures.worldOf d)) = Ret (Some export)
    /\ ProjectExport.parameters export = None.
Proof.
  intros runtime d.
  destruct (X19_export_project (engine := Fixtures.reliable) (runtime := runtime)
              1 (Fixtures.worldOf d)) as [_ H].
  destruct (H _ eq_refl) as (export & listed & E & _ & _ & _ & _ & _ & Hp & _).
  exists export. rewrite E. split; [reflexivity|].
  apply Hp. right. eexists. reflexivity.
Defined.

End RefusalFacts.

Module ParserMoreFacts.
Import Js Parser ExtraSpec.

Lemma step_without_header (line : jstring) :
  startsWith (lit "Chapter") (trim line) = false -> step initial line = initial.
Proof.
  intros H. unfold step. rewrite H. cbn [initial currentChapter isDescription].
  now destruct (startsWith (lit "Description:") (trim line)).
Qed.

Lemma fold_without_header (lines : list jstring) :
  Forall (fun line => startsWith (lit "Chapter") (trim line) = false) lines ->
  fold_left step lines initial = initial.
Proof.
  induction 1 as [|line lines H _ IH]; [reflexivity|].
  simpl. now rewrite (step_without_header _ H).
Qed.

(** X20. A response none of whose lines, trimmed, begins with "Chapter"
    is rejected: the parser returns null, whatever else the text holds
    (Description lines included). *)
Theorem X20_no_header_no_plan (response : jstring) :
  Forall (fun line => startsWith (lit "Chapter") (trim line) = false)
         (split_lines response) ->
  parseEbookPlanResponse response = None.
Proof.
  intros H. unfold parseEbookPlanResponse, parsedChapters.
  now rewrite (fold_without_header H).
Qed.

(** X20 on the text "random text with no markers". *)
Lemma X20_no_header_no_plan_witness :
  parseEbookPlanResponse (lit "random text with no markers") = None.
Proof.
  apply X20_no_header_no_plan.
  repeat constructor.
Defined.

Lemma step_emptyContents (st : pstate) (line : jstring) :
  emptyContents st -> emptyContents (step st line).
Proof.
  intros [Hc Hcur]. unfold step, emptyContents.
  destruct (startsWith (lit "Chapter") (trim line)).
  - cbn [chapters currentChapter content]. split; [|now right].
    destruct (isDescription st && truthy (title (currentChapter st))) eqn:E;
      [|exact Hc].
    apply andb_true_iff in E as [_ Ht].
    apply Forall_app. split; [exact Hc|]. constructor; [|constructor].
    destruct Hcur as [He|He]; [|exact He].
    rewrite He in Ht. discriminate Ht.
  - destruct (startsWith (lit "Description:") (trim line)).
    + destruct (truthy (title (currentChapter st))) eqn:Ht; [|now split].
      cbn [chapters currentChapter content]. split; [exact Hc|].
      destruct Hcur as [He|He]; [|now right].
      rewrite He in Ht. discriminate Ht.
    + destruct (isDescription st && truthy (title (currentChapter st))) eqn:E;
        [|now split].
      apply andb_true_iff in E as [_ Ht].
      cbn [chapters currentChapter content]. split; [exact Hc|].
      destruct Hcur as [He|He]; [|now right].
      rewrite He in Ht. discriminate Ht.
Qed.

Lemma fold_emptyContents (lines : list jstring) (st : pstate) :
  emptyContents st -> emptyContents (fold_left step lines st).
Proof.
  revert st. induction lines as [|line lines IH]; intros st H; [exact H|].
  simpl. apply IH. now apply step_emptyContents.
Qed.

Lemma parsedChapters_contents (response : jstring) :
  Forall (fun c => content c = Some []) (parsedChapters response).
Proof.
  unfold parsedChapters.
  destruct (fold_emptyContents (split_lines response) (st := initial))
    as [Hc Hcur]; [split; [constructor | now left]|].
  destruct (truthy (title (currentChapter _))) eqn:Ht; [|exact Hc].
  apply Forall_app. split; [exact Hc|]. constructor; [|constructor].
  destruct Hcur as [He|He]; [|exact He].
  rewrite He in Ht. discriminate Ht.
Qed.

(** X21. The parser never returns the empty list: it returns null
    instead.  Every draft it returns has a non-empty title, a non-empty
    description, the empty string as content and a non-negative order. *)
Theorem X21_returned_drafts_well_formed (response : jstring)
    (l : list PartialChapter) :
  parseEbookPlanResponse response = Some l ->
  l <> [] /\ Forall wellFormedDraft l.
Proof.
  intros H.
  destruct (PlanFacts.parse_nonempty_valid _ H) as [Hne Hv].
  split; [exact Hne|].
  apply ParserFacts.parse_some in H. subst l.
  apply Forall_forall. intros c Hc.
  pose proof Hc as Hin. apply filter_In in Hin as [Hin Hvalid].
  destruct (PlanFacts.isValid_fields _ Hvalid) as (t & d & Ht & Hd & Htn & Hdn).
  repeat split.
  - now exists t.
  - now exists d.
  - pose proof (parsedChapters_contents response) as Hall.
    rewrite Forall_forall in Hall. now apply Hall.
  - destruct (ParserFacts.parsedChapters_inv response) as [Hidx _].
    apply In_nth_error in Hin as [k Hk]. exists k. now apply Hidx.
Qed.

(** X21 on the plan whose first chapter has an empty description. *)
Lemma X21_returned_drafts_well_formed_witness :
  Forall wellFormedDraft
    [mkPartial (Some (lit "B")) (Some (lit "x")) (Some []) (Some 1%Z)].
Proof.
  refine (proj2 (X21_returned_drafts_well_formed Examples.emptyDescriptionPlan _)).
  vm_compute. reflexivity.
Defined.

End ParserMoreFacts.

Module SettingsFacts.
Import Js World SettingsService LlmService ExtraSpec.

(** *** Trimming *)

Lemma trimStart_head (s : jstring) :
  match trimStart s with
  | [] => True
  | x :: _ => isWhiteSpace x = false
  end.
Proof.
  unfold trimStart. induction s as [|c s IH]; simpl; [exact I|].
  destruct (isWhiteSpace c) eqn:E; [exact IH | exact E].
Qed.

(** What [trimEnd] keeps is a prefix that is empty or ends in a character
    that is not white space. *)
Lemma trimEnd_split (s : jstring) :
  exists b,
    s = trimEnd s ++ b
    /\ (trimEnd s = []
        \/ exists a x, trimEnd s = a ++ [x] /\ isWhiteSpace x = false).
Proof.
  unfold trimEnd. induction s as [|x s IH] using rev_ind.
  - exists []. split; [reflexivity | now left].
  - rewrite rev_app_distr. cbn [rev app dropWhile].
    destruct (isWhiteSpace x) eqn:E.
    + destruct IH as (b & Hs & Hlast). exists (b ++ [x]).
      split; [|exact Hlast].
      rewrite app_assoc, <- Hs. reflexivity.
    + exists []. cbn [rev]. rewrite rev_involutive, app_nil_r.
      split; [reflexivity|]. right. now exists s, x.
Qed.

Lemma trimEnd_fixed (a : jstring) (x : char) :
  isWhiteSpace x = false -> trimEnd (a ++ [x]) = a ++ [x].
Proof.
  intros H. unfold trimEnd. rewrite rev_app_distr. cbn [rev app dropWhile].
  rewrite H. cbn [rev]. now rewrite rev_involutive.
Qed.

Lemma trimStart_fixed (x : char) (s : jstring) :
  isWhiteSpace x = false -> trimStart (x :: s) = x :: s.
Proof. intros H. unfold trimStart. simpl. now rewrite H. Qed.

(** A trimmed string is empty or begins and ends with characters that are
    not white space; trimming it again changes nothing. *)
Lemma trim_idempotent (s : jstring) : trim (trim s) = trim s.
Proof.
  unfold trim at 2 3.
  pose proof (trimStart_head s) as Hhead.
  destruct (trimEnd_split (trimStart s)) as (b & Hs & [He|(a & x & He & Hx)]).
  - rewrite He. reflexivity.
  - rewrite He. unfold trim.
    assert (Hst : trimStart (a ++ [x]) = a ++ [x]).
    { rewrite He in Hs. rewrite Hs in Hhead.
      destruct a as [|y a]; cbn [app] in *; now apply trimStart_fixed. }
    rewrite Hst. now apply trimEnd_fixed.
Qed.

Lemma orElse_trimmed (s d : jstring) :
  trim d = d -> trim (orElse (trim s) d) = orElse (trim s) d.
Proof.
  intros Hd. unfold orElse.
  destruct (trim s) as [|x t] eqn:E; [exact Hd|].
  rewrite <- E. apply trim_idempotent.
Qed.

Lemma orElse_nonempty (a d : jstring) : d <> [] -> orElse a d <> [].
Proof. intros Hd. destruct a; [exact Hd | discriminate]. Qed.

Lemma orElse_fixed (a d : jstring) : orElse (orElse a d) d = orElse a d.
Proof. destruct a; [now destruct d | reflexivity]. Qed.

(** The model that saveLlmSettings stores, by cases on the trimmed input. *)
Lemma saved_model (settings : LlmSettings) :
  model (settingsToSave settings)
  = match trim (model settings) with
    | [] => if Js.eqb (provider (settingsToSave settings)) (lit "ollama")
            then lit "llama3" else model defaultSettings
    | m => m
    end.
Proof.
  cbn [settingsToSave model provider]. unfold orElse at 2 3.
  now destruct (trim (model settings)).
Qed.

Lemma saved_model_trimmed (settings : LlmSettings) :
  trim (model (settingsToSave settings)) = model (settingsToSave settings)
  /\ model (settingsToSave settings) <> [].
Proof.
  rewrite saved_model.
  destruct (trim (model settings)) as [|x m] eqn:E.
  - destruct (Js.eqb _ _); split; solve [reflexivity | discriminate].
  - rewrite <- E. split; [apply trim_idempotent | rewrite E; discriminate].
Qed.

(** X22. What saveLlmSettings stores is normalised: every field is
    trimmed, and the provider, the base URL and the model are never empty
    (defaults take their place).  Saving what was saved stores the same
    settings again, and the dispatcher's config for saved settings carries
    the saved key, URL and model unchanged. *)
Theorem X22_saved_settings_normalised (settings : LlmSettings) :
  let saved := settingsToSave settings in
  settingsToSave saved = saved
  /\ provider saved <> [] /\ baseUrl saved <> [] /\ model saved <> []
  /\ trim (provider saved) = provider saved
  /\ trim (apiKey saved) = apiKey saved
  /\ trim (baseUrl saved) = baseUrl saved
  /\ trim (model saved) = model saved
  /\ createProviderConfig saved
     = Wire.mkConfig (Some (apiKey saved)) (Some (baseUrl saved)) (model saved).
Proof.
  intros saved.
  assert (P : trim (provider saved) = provider saved)
    by (apply orElse_trimmed; reflexivity).
  assert (K : trim (apiKey saved) = apiKey saved)
    by (apply orElse_trimmed; reflexivity).
  assert (B : trim (baseUrl saved) = baseUrl saved)
    by (apply orElse_trimmed; reflexivity).
  destruct (saved_model_trimmed settings) as [M Mne]. fold saved in M, Mne.
  assert (Pne : provider saved <> [])
    by (apply orElse_nonempty; discriminate).
  assert (Bne : baseUrl saved <> [])
    by (apply orElse_nonempty; discriminate).
  split; [|repeat split; try assumption].
  - assert (Ep : provider (settingsToSave saved) = provider saved).
    { change (provider (settingsToSave saved)) with (orElse (trim (provider saved)) (provider defaultSettings)).
      rewrite P. exact (orElse_fixed (trim (provider settings)) (provider defaultSettings)). }
    assert (Ek : apiKey (settingsToSave saved) = apiKey saved).
    { change (apiKey (settingsToSave saved)) with (orElse (trim (apiKey saved)) []).
      rewrite K. exact (orElse_fixed (trim (apiKey settings)) []). }
    assert (Eb : baseUrl (settingsToSave saved) = baseUrl saved).
    { change (baseUrl (settingsToSave saved)) with (orElse (trim (baseUrl saved)) (baseUrl defaultSettings)).
      rewrite B. exact (orElse_fixed (trim (baseUrl settings)) (baseUrl defaultSettings)). }
    assert (Em : model (settingsToSave saved) = model saved).
    { rewrite saved_model, M. destruct (model saved); [now destruct Mne | reflexivity]. }
    destruct (settingsToSave saved), saved. cbn in Ep, Ek, Eb, Em. congruence.
  - unfold createProviderConfig.
    destruct (model saved) eqn:E; [now destruct Mne | reflexivity].
Qed.

End SettingsFacts.

Module KeyFacts.
Import Js Async Async.Notations Db World DbService ChapterService StoreSpec
       Deletion PlanHandling ExtraSpec.

Lemma honours_refl (d : database) : honours d d.
Proof. split; [auto | split; [lia | auto]]. Qed.

Lemma honours_trans (d1 d2 d3 : database) :
  honours d1 d2 -> honours d2 d3 -> honours d1 d3.
Proof.
  intros (K1 & S1 & G1) (K2 & S2 & G2).
  split; [auto | split].
  - lia.
  - intros id Hid Hnone. apply G2; [lia|]. now apply G1.
Qed.

Lemma find_id_none (i : Z) (l : list Chapter.t) :
  find (fun c => Z.eqb (Chapter.id c) i) l = None
  <-> ~ In i (List.map Chapter.id l).
Proof.
  induction l as [|c l IH]; simpl; [tauto|].
  destruct (Z.eqb (Chapter.id c) i) eqn:E.
  - apply Z.eqb_eq in E. split; [discriminate | tauto].
  - apply Z.eqb_neq in E. tauto.
Qed.

Section WithEngine.
Context {engine : Engine} {deleteEngine : DeleteEngine}.

Lemma map_id_update (now : jstring) (sets : list chapterAssign) (id : Z)
    (l : list Chapter.t) :
  List.map Chapter.id (List.map (updateChapterRow now sets id) l)
  = List.map Chapter.id l.
Proof.
  rewrite map_map. apply map_ext. intros c.
  apply StoreFacts.updateChapterRow_id.
Qed.

(** INSERT takes a rowid beyond the sequence and beyond every stored row;
    UPDATE keeps every rowid. *)
Lemma exec_honours (s : statement) (d : database) : honours d (exec s d).
Proof.
  destruct s as [pid t ds ct o | sets id | sets id].
  - set (new := (Z.max (sqlite_sequence_chapters d)
                       (maxChapterId (chapters d)) + 1)%Z).
    assert (Hids : forall c, In c (chapters d) -> (Chapter.id c < new)%Z).
    { intros c Hc.
      destruct (StoreFacts.fold_max_ge Chapter.id (chapters d) 0) as [_ H].
      specialize (H c Hc). unfold new, maxChapterId. lia. }
    split; [intros [Hnd _]; split | split].
    + cbn [exec chapters]. fold new.
      rewrite map_app. cbn [List.map Chapter.id].
      apply NoDup_app; repeat split.
      * exact Hnd.
      * constructor; [intros [] | constructor].
      * intros i Hi [<-|[]]. apply in_map_iff in Hi as (c & Hc & Hin).
        apply Hids in Hin. lia.
    + cbn [exec chapters sqlite_sequence_chapters]. fold new.
      apply Forall_app. split.
      * apply Forall_forall. intros c Hc. apply Hids in Hc. lia.
      * constructor; [cbn; lia | constructor].
    + cbn [exec sqlite_sequence_chapters]. lia.
    + intros id Hid Hnone. unfold chapterOf in *. cbn [exec chapters].
      fold new. apply find_id_none. rewrite map_app, in_app_iff.
      cbn [List.map Chapter.id In].
      intros [Hin|[E|[]]]; [now apply (proj1 (find_id_none id _) Hnone)|].
      unfold new in E. lia.
  - split; [intros [Hnd Hle]; split | split].
    + cbn [exec chapters]. now rewrite map_id_update.
    + cbn [exec chapters sqlite_sequence_chapters].
      apply Forall_map. eapply Forall_impl; [|exact Hle].
      intros c Hc. cbv beta in *.
      now rewrite StoreFacts.updateChapterRow_id.
    + cbn [exec sqlite_sequence_chapters]. lia.
    + intros i _ Hnone. unfold chapterOf in *. cbn [exec chapters].
      apply find_id_none. rewrite map_id_update. now apply find_id_none.
  - split; [intros H; exact H | split].
    + cbn [exec sqlite_sequence_chapters]. lia.
    + intros i _ Hnone. exact Hnone.
Qed.

(** DELETE hands no rowid back. *)
Lemma execDelete_honours (id : Z) (d : database) : honours d (execDelete id d).
Proof.
  split; [intros [Hnd Hle]; split | split].
  - cbn [execDelete chapters].
    induction (chapters d) as [|c l IH]; simpl; [constructor|].
    inversion Hnd as [|? ? Hc Hl]; subst.
    inversion Hle as [|? ? _ Hle']; subst.
    destruct (Z.eqb (Chapter.id c) id); simpl; [now apply IH|].
    constructor; [|now apply IH].
    intros Hin. apply Hc. apply in_map_iff in Hin as (x & Hx & Hin).
    apply filter_In in Hin as [Hin _]. apply in_map_iff. now exists x.
  - cbn [execDelete chapters sqlite_sequence_chapters].
    apply Forall_forall. intros c Hc. apply filter_In in Hc as [Hc _].
    now apply (proj1 (Forall_forall _ _) Hle).
  - cbn [execDelete sqlite_sequence_chapters]. lia.
  - intros i _ Hnone. unfold chapterOf in *. cbn [execDelete chapters].
    apply find_id_none. intros Hin. apply (proj1 (find_id_none i _) Hnone).
    apply in_map_iff in Hin as (x & Hx & Hin).
    apply filter_In in Hin as [Hin _]. apply in_map_iff. now exists x.
Qed.

(** *** Calls built from calls that keep the keys *)

Lemma keeps_ret {A} (a : A) : keepsKeys (ret a).
Proof. intros w. apply honours_refl. Qed.

Lemma keeps_bind {A B} (m : M world A) (k : A -> M world B) :
  keepsKeys m -> (forall a, keepsKeys (k a)) -> keepsKeys (bind m k).
Proof.
  intros Hm Hk w. unfold bind. specialize (Hm w).
  destruct (m w) as [[a|e] w']; [|exact Hm].
  eapply honours_trans; [exact Hm | apply Hk].
Qed.

Lemma keeps_try {A} (m : M world A) (h : exn -> M world A) :
  keepsKeys m -> (forall e, keepsKeys (h e)) -> keepsKeys (try_catch m h).
Proof.
  intros Hm Hh w. unfold try_catch. specialize (Hm w).
  destruct (m w) as [[a|e] w']; [exact Hm|].
  eapply honours_trans; [exact Hm | apply Hh].
Qed.

Lemma keeps_run (s : statement) : keepsKeys (run s).
Proof.
  intros w. unfold run.
  destruct (run_fails s (db w)); [apply honours_refl | apply exec_honours].
Qed.

Lemma keeps_get {T} (q : query T) : keepsKeys (get q).
Proof.
  intros w. unfold get. destruct (get_fails q (db w)); apply honours_refl.
Qed.

Lemma keeps_getOne {T} (q : query T) : keepsKeys (getOne q).
Proof.
  unfold getOne. apply keeps_bind; [apply keeps_get|].
  intros a. apply keeps_ret.
Qed.

Lemma keeps_runDelete (id : Z) : keepsKeys (runDelete id).
Proof.
  intros w. unfold runDelete.
  destruct (delete_fails id (db w)); [apply honours_refl | apply execDelete_honours].
Qed.

Lemma keeps_createChapter (projectId : Z) (title description : jstring)
    (content : option jstring) :
  keepsKeys (createChapter projectId title description content).
Proof.
  unfold createChapter.
  apply keeps_try; [|intros; apply keeps_ret].
  apply keeps_bind; [apply keeps_getOne|]. intros r.
  apply keeps_bind; [apply keeps_run|]. intros _.
  apply keeps_bind; [apply keeps_getOne|]. intros c. apply keeps_ret.
Qed.

Lemma keeps_getChapterById (id : Z) : keepsKeys (getChapterById id).
Proof.
  unfold getChapterById. apply keeps_try; [|intros; apply keeps_ret].
  apply keeps_bind; [apply keeps_getOne|]. intros c. apply keeps_ret.
Qed.

Lemma keeps_runOrderUpdates (updates : list OrderUpdate) :
  keepsKeys (runOrderUpdates updates).
Proof.
  induction updates as [|u us IH]; cbn [runOrderUpdates]; [apply keeps_ret|].
  apply keeps_bind; [apply keeps_run | intros _; exact IH].
Qed.

Lemma keeps_createAll (projectId : Z) (drafts : list Parser.PartialChapter) :
  keepsKeys (createAll projectId drafts).
Proof.
  induction drafts as [|c rest IH]; cbn [createAll]; [apply keeps_ret|].
  destruct (Parser.title c), (Parser.description c); try exact IH.
  apply keeps_bind; [apply keeps_createChapter | intros _; exact IH].
Qed.

(** X23. The chapter rowids are a key that no service call breaks and no
    call hands out twice.  Starting from any store, creating, updating,
    renumbering and deleting chapters and saving a parsed plan leave the
    rowids distinct and within the AUTOINCREMENT sequence if they were,
    never move the sequence back, and never give a rowid the sequence has
    passed (one of a deleted chapter, say) to a row again. *)
Theorem X23_rowids_never_reused :
  (forall projectId title description content,
      keepsKeys (createChapter projectId title description content))
  /\ (forall id updates, keepsKeys (updateChapter id updates))
  /\ (forall updates, keepsKeys (updateChapterOrder updates))
  /\ (forall id, keepsKeys (deleteChapter id))
  /\ (forall response projectId,
        keepsKeys (handleEbookPlanResponse response projectId)).
Proof.
  split; [|split; [|split; [|split]]].
  - intros. apply keeps_createChapter.
  - intros id updates. unfold updateChapter.
    destruct (_ =? 0)%nat; [apply keeps_getChapterById|].
    apply keeps_try; [|intros; apply keeps_ret].
    apply keeps_bind; [apply keeps_run|]. intros _. apply keeps_getChapterById.
  - intros updates. unfold updateChapterOrder.
    destruct (_ =? 0)%nat; [apply keeps_ret|].
    apply keeps_try; [|intros; apply keeps_ret].
    apply keeps_bind; [apply keeps_runOrderUpdates|]. intros _. apply keeps_ret.
  - intros id. unfold deleteChapter.
    apply keeps_try; [|intros; apply keeps_ret].
    apply keeps_bind; [apply keeps_runDelete|]. intros _. apply keeps_ret.
  - intros response projectId. unfold handleEbookPlanResponse.
    apply keeps_try; [|intros; apply keeps_ret].
    destruct (Parser.parseEbookPlanResponse response) as [drafts|];
      [|apply keeps_ret].
    destruct (_ =? 0)%nat; [apply keeps_ret|].
    apply keeps_bind; [apply keeps_createAll|]. intros _. apply keeps_ret.
Qed.

End WithEngine.

(** X23 on the store with chapters 1, 2, 3: once chapter 2 is deleted, the
    chapter created next is not numbered 2, and the rowids stay a key. *)
Lemma X23_rowids_never_reused_witness :
  let deletes := {| delete_fails := fun _ _ => false |} in
  let w := Fixtures.worldOf Fixtures.threeChapters in
  let w1 := snd (deleteChapter (deleteEngine := deletes) 2 w) in
  let w2 := snd (createChapter (engine := Fixtures.reliable) 1 (lit "Four")
                   (lit "more") None w1) in
  keyed (db w)
  /\ chapterOf 2 (db w1) = None
  /\ keyed (db w2)
  /\ chapterOf 2 (db w2) = None.
Proof.
  intros deletes w w1 w2.
  destruct (X23_rowids_never_reused (engine := Fixtures.reliable)
              (deleteEngine := deletes)) as (Hcreate & _ & _ & Hdelete & _).
  assert (K : keyed (db w)).
  { split.
    - repeat constructor; cbn; intuition discriminate.
    - repeat constructor; cbn; discriminate. }
  destruct (Hdelete 2%Z w) as (K1 & _ & _).
  destruct (Hcreate 1%Z (lit "Four") (lit "more") None w1) as (K2 & _ & G2).
  split; [exact K|]. split; [reflexivity|].
  split; [exact (K2 (K1 K))|].
  apply G2; [vm_compute; discriminate | reflexivity].
Defined.

End KeyFacts.

Module GeneratePlanFacts.
Import Js Async Async.Notations Db World DbService ChapterService StoreSpec
       Deletion PlanHandling ChapterManager GeneratePlan ExtraSpec.

Lemma withoutIds_nil (l : list Chapter.t) : withoutIds [] l = l.
Proof.
  induction l as [|c l IH]; [reflexivity|].
  unfold withoutIds in *. cbn [filter existsb negb]. now f_equal.
Qed.

Lemma withoutIds_cons (i : Z) (ids : list Z) (l : list Chapter.t) :
  withoutIds ids (filter (fun c => negb (Z.eqb (Chapter.id c) i)) l)
  = withoutIds (i :: ids) l.
Proof.
  unfold withoutIds. induction l as [|c l IH]; simpl; [reflexivity|].
  destruct (Z.eqb (Chapter.id c) i); simpl; [exact IH|].
  destruct (existsb _ ids); simpl; [exact IH | now rewrite IH].
Qed.

Lemma chapterOf_withoutIds (ids : list Z) (d d' : database) (i : Z) :
  chapters d' = withoutIds ids (chapters d) ->
  chapterOf i d' = if existsb (Z.eqb i) ids then None else chapterOf i d.
Proof.
  unfold chapterOf, withoutIds. intros ->.
  induction (chapters d) as [|c l IH]; simpl.
  - now destruct (existsb _ ids).
  - destruct (existsb (Z.eqb (Chapter.id c)) ids) eqn:E; simpl.
    + rewrite IH. destruct (Z.eqb (Chapter.id c) i) eqn:Ei; [|reflexivity].
      apply Z.eqb_eq in Ei. subst i. now rewrite E.
    + destruct (Z.eqb (Chapter.id c) i) eqn:Ei; [|exact IH].
      apply Z.eqb_eq in Ei. subst i. now rewrite E.
Qed.

Lemma existsb_id (i : Z) (ids : list Z) :
  existsb (Z.eqb i) ids = true <-> In i ids.
Proof.
  rewrite existsb_exists. split.
  - intros (x & Hx & E). apply Z.eqb_eq in E. now subst.
  - intros H. exists i. split; [exact H | apply Z.eqb_refl].
Qed.

Section WithEnvironment.
Context {engine : Engine} {deleteEngine : DeleteEngine}
        {network : Wire.Network} {planPrompt : PlanPrompt}.

(** With an engine that deletes what it is asked to, the loop removes the
    rows of the listed ids and nothing else. *)
Lemma deleteAll_spec (l : list Chapter.t) (w : world) :
  (forall id d, delete_fails id d = false) ->
  exists d',
    deleteAll l w = (Ret tt, withDatabase d' w)
    /\ chapters d' = withoutIds (List.map Chapter.id l) (chapters (db w))
    /\ projects d' = projects (db w).
Proof.
  intros Hdel. revert w. induction l as [|c l IH]; intros w.
  - exists (db w). cbn [deleteAll List.map]. unfold ret.
    now rewrite StoreFacts.withDatabase_same, withoutIds_nil.
  - cbn [deleteAll List.map]. unfold bind.
    rewrite DeletionFacts.deleteChapter_spec, Hdel.
    destruct (IH (withDatabase (execDelete (Chapter.id c) (db w)) w))
      as (d' & E & Hch & Hpr).
    exists d'. split; [exact E|]. split; [|exact Hpr].
    rewrite Hch. cbn [db withDatabase execDelete chapters].
    apply withoutIds_cons.
Qed.

(** What the prompt request does before the response is looked at. *)
Lemma prompt_step (prompt : jstring) (w : world) :
  exists r w1,
    LlmService.processLLMPrompt (registry := LlmService.sourceRegistry) prompt w
    = (Ret r, w1)
    /\ db w1 = db w /\ r <> Some [].
Proof.
  destruct (RequestFacts.processLLMPrompt_source prompt w) as (r & E & Hne).
  eexists r, _. split; [exact E|]. split; [|exact Hne].
  now destruct (clientFor (settings w)).
Qed.

(** X24. Regenerating a plan deletes before it parses.  When the
    component holds chapters and the model's answer contains no chapter the
    parser accepts, declining the confirmation leaves the store as it was,
    but after confirming every listed chapter is deleted, the rows with
    another id are kept as they were, nothing is stored in place of the
    deleted ones, and the user is shown an empty list and a failure
    message. *)
Theorem X24_unusable_plan_still_deletes (project : Project.t)
    (chapters : list Chapter.t) (prompt response : jstring) (w : world) :
  chapters <> [] ->
  (forall id d, delete_fails id d = false) ->
  generateEbookPlanPrompt project = Ret prompt ->
  fst (LlmService.processLLMPrompt (registry := LlmService.sourceRegistry)
         prompt w) = Ret (Some response) ->
  Parser.parseEbookPlanResponse response = None ->
  let declined :=
    handleGeneratePlan (registry := LlmService.sourceRegistry)
      project chapters false w in
  let confirmed :=
    handleGeneratePlan (registry := LlmService.sourceRegistry)
      project chapters true w in
  fst declined = Ret (mkUi [] None)
  /\ db (snd declined) = db w
  /\ fst confirmed
     = Ret (mkUi [[]]
              (Some "Failed to process LLM response or create chapters."%string))
  /\ (forall c, In c chapters -> chapterOf (Chapter.id c) (db (snd confirmed)) = None)
  /\ (forall i, ~ In i (List.map Chapter.id chapters) ->
                chapterOf i (db (snd confirmed)) = chapterOf i (db w))
  /\ Db.chapters (db (snd confirmed))
     = withoutIds (List.map Chapter.id chapters) (Db.chapters (db w)).
Proof.
  intros Hne Hdel Hprompt Hresp Hparse declined confirmed.
  destruct (prompt_step prompt w) as (r & w1 & E & Hdb & Hr).
  rewrite E in Hresp. cbn [fst] in Hresp. injection Hresp as ->.
  destruct response as [|x response]; [now destruct Hr|].
  assert (Hlen : (0 <? List.length chapters)%nat = true)
    by (destruct chapters; [now destruct Hne | reflexivity]).
  assert (Ed : declined = (Ret (mkUi [] None), w1)).
  { subst declined. unfold handleGeneratePlan, try_catch, bind, lift.
    rewrite Hprompt, E, Hlen. reflexivity. }
  destruct (deleteAll_spec chapters w1 Hdel) as (d' & Edel & Hch & _).
  assert (Ec : confirmed
               = (Ret (mkUi [[]]
                    (Some "Failed to process LLM response or create chapters."%string)),
                  withDatabase d' w1)).
  { subst confirmed. unfold handleGeneratePlan, try_catch, bind, lift.
    rewrite Hprompt, E, Hlen. unfold bind. rewrite Edel.
    unfold storePlan, bind, handleEbookPlanResponse, try_catch.
    rewrite Hparse. reflexivity. }
  rewrite Ed, Ec. cbn [fst snd db withDatabase].
  rewrite Hdb in Hch.
  split; [reflexivity|]. split; [exact Hdb|]. split; [reflexivity|].
  split; [|split; [|exact Hch]].
  - intros c Hc. rewrite (@chapterOf_withoutIds _ _ _ (Chapter.id c) Hch).
    assert (H : existsb (Z.eqb (Chapter.id c)) (List.map Chapter.id chapters) = true)
      by (apply existsb_id; now apply in_map).
    now rewrite H.
  - intros i Hi. rewrite (@chapterOf_withoutIds _ _ _ i Hch).
    destruct (existsb _ _) eqn:H; [|reflexivity].
    apply existsb_id in H. now destruct Hi.
Qed.

Lemma filter_all {A : Type} (p : A -> bool) (l : list A) :
  Forall (fun x => p x = true) l -> filter p l = l.
Proof.
  induction 1 as [|x l Hx _ IH]; simpl; [reflexivity|].
  now rewrite Hx, IH.
Qed.

(** A list whose orders are consecutive is listed as it is. *)
Lemma orderByOrder_consecutive (l : list Chapter.t) (z : Z) :
  List.map Chapter.order l = consecutiveFrom z (List.length l) ->
  orderByOrder l = l.
Proof.
  intros Ho.
  destruct (RenumberFacts.consecutiveFrom_sorted z (List.length l))
    as (Hs & Hn & _).
  apply (RenumberFacts.sorted_perm_unique Chapter.order).
  - apply ListingFacts.orderByOrder_sorted.
  - apply RenumberFacts.sorted_of_map_order. now rewrite Ho.
  - apply ListingFacts.orderByOrder_perm.
  - eapply Permutation_NoDup;
      [apply Permutation_map, Permutation_sym, ListingFacts.orderByOrder_perm|].
    now rewrite Ho.
Qed.

(** Once the listed chapters of a project are gone, the project has none. *)
Lemma siblings_withoutIds (pid : Z) (d : database) (rows : list Chapter.t) :
  rows = withoutIds (List.map Chapter.id (orderByOrder (siblings pid d)))
           (Db.chapters d) ->
  filter (fun c => Z.eqb (Chapter.projectId c) pid) rows = [].
Proof.
  intros ->.
  destruct (filter _ _) as [|c rest] eqn:E; [reflexivity|].
  assert (Hc : In c (c :: rest)) by now left.
  rewrite <- E in Hc. apply filter_In in Hc as [Hc Hpid].
  unfold withoutIds in Hc. apply filter_In in Hc as [Hc Hid].
  assert (Hin : In (Chapter.id c)
                   (List.map Chapter.id (orderByOrder (siblings pid d)))).
  { apply in_map.
    apply (Permutation_in _ (Permutation_sym (ListingFacts.orderByOrder_perm _))).
    unfold siblings. apply filter_In. now split. }
  apply existsb_id in Hin. rewrite Hin in Hid. discriminate.
Qed.

(** Storing an accepted plan in a project that has no chapter. *)
Lemma storePlan_accepting (project : Project.t) (response : jstring)
    (drafts : list Parser.PartialChapter) (cleared : list (list Chapter.t))
    (w : world) :
  accepting ->
  Parser.parseEbookPlanResponse response = Some drafts ->
  (Z.of_nat (List.length drafts) < 2 ^ 32)%Z ->
  siblings (Project.id project) (db w) = [] ->
  exists added w',
    storePlan project response cleared w
    = (Ret (mkUi (cleared ++ [added]) None), w')
    /\ Db.chapters (db w') = Db.chapters (db w) ++ added
    /\ siblings (Project.id project) (db w') = added
    /\ List.map Chapter.title added
       = List.map (fun c => toStr (Parser.title c)) drafts
    /\ List.map Chapter.description added
       = List.map (fun c => toStr (Parser.description c)) drafts
    /\ List.map Chapter.order added
       = consecutiveFrom 0 (List.length drafts).
Proof.
  intros Hacc Hp Harray Hnone.
  destruct (PlanFacts.parse_nonempty_valid _ Hp) as [Hne Hv].
  assert (Hnext : nextOrderOf (Project.id project) (db w) = 0%Z)
    by (unfold nextOrderOf; now rewrite Hnone).
  assert (Hsafe : safeOrders (Project.id project) (db w))
    by (unfold safeOrders; rewrite Hnone; constructor).
  destruct (@PlanFacts.createAll_accepting _ (Project.id project) drafts w
              Hacc Hv Hsafe)
    as (d' & added & E & Hadd & Hts & Hds & _ & Hos); [rewrite Hnext; lia|].
  destruct (PlanFacts.createAll_appends (Project.id project) drafts w)
    as (d2 & added2 & E2 & Hadd2 & _ & Hpid & _).
  rewrite E in E2. injection E2 as E2.
  assert (d2 = d') by (unfold withDatabase in E2; congruence). subst d2.
  rewrite Hadd in Hadd2. apply app_inv_head in Hadd2. subst added2.
  rewrite Hnext in Hos.
  assert (Hlen : List.length added = List.length drafts).
  { rewrite <- (length_map Chapter.order added), Hos.
    unfold consecutiveFrom. now rewrite length_map, length_seq. }
  assert (Hsib : siblings (Project.id project) d' = added).
  { unfold siblings in *. rewrite Hadd, filter_app, Hnone. cbn [app].
    apply filter_all. eapply Forall_impl; [|exact Hpid].
    intros c Hc. cbv beta in Hc. rewrite Hc. apply Z.eqb_refl. }
  exists added, (withDatabase d' w).
  split; [|now repeat split].
  unfold storePlan, bind, handleEbookPlanResponse, try_catch. rewrite Hp.
  destruct drafts as [|c l]; [now destruct Hne|].
  cbn [List.length Nat.eqb]. unfold bind. rewrite E.
  unfold ret at 1. cbv beta iota.
  rewrite ListingFacts.getChaptersByProjectId_spec.
  destruct Hacc as [Hget _]. rewrite Hget.
  cbn [db withDatabase]. rewrite Hsib.
  rewrite (@orderByOrder_consecutive added 0%Z) by now rewrite Hlen.
  reflexivity.
Qed.

(** X25. Regenerating a plan replaces the chapters.  When the component
    holds the project's current listing, the engine raises on nothing, the
    user confirms and the parser accepts the model's answer (the drafts
    being a JavaScript array, of fewer than 2^32 elements), the project
    ends up with exactly one chapter per returned draft, in draft order,
    titled and described as the drafts, numbered from 0; every chapter
    listed before is deleted, the rows with another id are kept as they
    were, and the new listing is what the user is shown last. *)
Theorem X25_plan_replaces_chapters (project : Project.t)
    (chapters : list Chapter.t) (prompt response : jstring)
    (drafts : list Parser.PartialChapter) (w : world) :
  accepting ->
  (forall id d, delete_fails id d = false) ->
  getChaptersByProjectId (Project.id project) w = (Ret chapters, w) ->
  generateEbookPlanPrompt project = Ret prompt ->
  fst (LlmService.processLLMPrompt (registry := LlmService.sourceRegistry)
         prompt w) = Ret (Some response) ->
  Parser.parseEbookPlanResponse response = Some drafts ->
  (Z.of_nat (List.length drafts) < 2 ^ 32)%Z ->
  let r := handleGeneratePlan (registry := LlmService.sourceRegistry)
             project chapters true w in
  exists added,
    fst r = Ret (mkUi (match chapters with
                       | [] => [added]
                       | _ => [[]; added]
                       end) None)
    /\ siblings (Project.id project) (db (snd r)) = added
    /\ Db.chapters (db (snd r))
       = withoutIds (List.map Chapter.id chapters) (Db.chapters (db w)) ++ added
    /\ List.map Chapter.title added
       = List.map (fun c => toStr (Parser.title c)) drafts
    /\ List.map Chapter.description added
       = List.map (fun c => toStr (Parser.description c)) drafts
    /\ List.map Chapter.order added
       = consecutiveFrom 0 (List.length drafts).
Proof.
  intros Hacc Hdel Hlist Hprompt Hresp Hparse Harray r.
  destruct (prompt_step prompt w) as (o & w1 & E & Hdb & Ho).
  rewrite E in Hresp. cbn [fst] in Hresp. injection Hresp as ->.
  destruct response as [|x response]; [now destruct Ho|].
  rewrite ListingFacts.getChaptersByProjectId_spec in Hlist.
  destruct Hacc as [Hget Hrun]. rewrite Hget in Hlist.
  injection Hlist as Hlist.
  assert (Hacc : accepting) by now split.
  destruct (deleteAll_spec chapters w1 Hdel) as (d' & Edel & Hch & _).
  rewrite Hdb in Hch.
  assert (Hnone : siblings (Project.id project) d' = []).
  { unfold siblings.
    apply (@siblings_withoutIds (Project.id project) (db w)).
    now rewrite Hlist. }
  destruct chapters as [|c0 rest] eqn:Hcs.
  - (* nothing to delete: the plan is stored at once *)
    assert (Hsame : Db.chapters d' = Db.chapters (db w1))
      by (rewrite Hch, Hdb; apply withoutIds_nil).
    assert (Hnone1 : siblings (Project.id project) (db w1) = [])
      by (unfold siblings in *; now rewrite <- Hsame).
    destruct (@storePlan_accepting project _ drafts [] w1 Hacc Hparse Harray
                Hnone1)
      as (added & w' & Es & Hadd & Hsib & Hts & Hds & Hos).
    assert (Er : r = (Ret (mkUi [added] None), w')).
    { subst r. unfold handleGeneratePlan, try_catch, bind, lift.
      rewrite Hprompt, E. cbn [List.length Nat.ltb Nat.leb].
      now rewrite Es. }
    exists added. rewrite Er. cbn [fst snd].
    split; [reflexivity|]. split; [exact Hsib|].
    split; [|now repeat split].
    rewrite Hadd, Hdb. cbn [List.map]. now rewrite withoutIds_nil.
  - (* the listed chapters are deleted first *)
    destruct (@storePlan_accepting project _ drafts [[]] (withDatabase d' w1)
                Hacc Hparse Harray Hnone)
      as (added & w' & Es & Hadd & Hsib & Hts & Hds & Hos).
    assert (Er : r = (Ret (mkUi [[]; added] None), w')).
    { subst r. unfold handleGeneratePlan, try_catch, bind, lift.
      rewrite Hprompt, E. cbn [List.length Nat.ltb Nat.leb].
      unfold bind. rewrite Edel. now rewrite Es. }
    exists added. rewrite Er. cbn [fst snd].
    split; [reflexivity|]. split; [exact Hsib|].
    split; [|now repeat split].
    rewrite Hadd. cbn [db withDatabase]. now rewrite Hch.
Qed.

End WithEnvironment.

(** X24 on the store with three chapters and a backend that answers with
    a story: after the confirmation the project has no chapter left. *)
Lemma X24_unusable_plan_still_deletes_witness :
  let w := Fixtures.worldOf Fixtures.threeChapters in
  let r := handleGeneratePlan (engine := Fixtures.reliable)
             (deleteEngine := PlanFixtures.deletes)
             (registry := LlmService.sourceRegistry
                            (network := ProviderFixtures.storyteller))
             (planPrompt := PlanFixtures.namePrompt)
             Fixtures.book (Db.chapters Fixtures.threeChapters) true w in
  fst r = Ret (mkUi [[]]
                 (Some "Failed to process LLM response or create chapters."%string))
  /\ Db.chapters (db (snd r)) = [].
Proof.
  intros w r.
  destruct (X24_unusable_plan_still_deletes
              (engine := Fixtures.reliable)
              (deleteEngine := PlanFixtures.deletes)
              (network := ProviderFixtures.storyteller)
              (planPrompt := PlanFixtures.namePrompt)
              Fixtures.book (chapters := Db.chapters Fixtures.threeChapters)
              (prompt := lit "Book") (response := lit "Once upon a time") w)
    as (_ & _ & Hui & _ & _ & Hrows).
  - discriminate.
  - reflexivity.
  - reflexivity.
  - reflexivity.
  - reflexivity.
  - split; [exact Hui|]. subst r. rewrite Hrows. reflexivity.
Defined.

(** X25 on the store with three chapters and a backend that answers with
    the two-chapter plan: the project ends with the chapters Intro and
    Middle, numbered 0 and 1. *)
Lemma X25_plan_replaces_chapters_witness :
  let w := Fixtures.worldOf Fixtures.threeChapters in
  let r := handleGeneratePlan (engine := Fixtures.reliable)
             (deleteEngine := PlanFixtures.deletes)
             (registry := LlmService.sourceRegistry
                            (network := PlanFixtures.planner))
             (planPrompt := PlanFixtures.namePrompt)
             Fixtures.book (Db.chapters Fixtures.threeChapters) true w in
  List.map Chapter.title (siblings 1 (db (snd r))) = [lit "Intro"; lit "Middle"]
  /\ List.map Chapter.order (siblings 1 (db (snd r))) = [0%Z; 1%Z].
Proof.
  intros w r.
  pose (drafts := match Parser.parseEbookPlanResponse Examples.planExample with
                  | Some l => l
                  | None => []
                  end).
  destruct (X25_plan_replaces_chapters
              (engine := Fixtures.reliable)
              (deleteEngine := PlanFixtures.deletes)
              (network := PlanFixtures.planner)
              (planPrompt := PlanFixtures.namePrompt)
              Fixtures.book (chapters := Db.chapters Fixtures.threeChapters)
              (prompt := lit "Book") (response := Examples.planExample)
              (drafts := drafts) (w := w))
    as (added & _ & Hsib & _ & Hts & _ & Hos).
  - split; reflexivity.
  - reflexivity.
  - reflexivity.
  - reflexivity.
  - reflexivity.
  - reflexivity.
  - reflexivity.
  - subst r. change (Project.id Fixtures.book) with 1%Z in Hsib.
    rewrite Hsib, Hts, Hos. split; reflexivity.
Defined.

End GeneratePlanFacts.
